(** * Communication manager of the Skybrush server

    A shallow embedding of [src/flockwave/server/comm.py]: the entries of the
    communication manager, the alias table, the submission operations and the
    outbound dispatcher, together with the properties of the routing and of the
    error bookkeeping.

    Conventions of the embedding:
    - Python [int] is [Z]; [str] is [string]; [Optional[T]] is [option T];
    - objects that are compared by identity ([is], [is not]) are references
      with decidable equality;
    - [dict] values that are iterated are insertion-ordered association lists,
      those that are only looked up are [gmap]s;
    - code that can raise returns an [Outcome]; [try]/[except] is a [match]
      on it;
    - the calls made on channels and on the logger are recorded, in order, in a
      trace of [Event]s;
    - the two ends of a memory channel share one buffer; tasks that run side
      by side take turns, and what channels, connections and queues answer
      is a parameter of the functions that call them. *)

From Stdlib Require Import ZArith String List Bool Lia.
From stdpp Require Import base option list strings gmap pretty.

Import ListNotations.
Local Open Scope string_scope.
Local Open Scope list_scope.
Local Open Scope Z_scope.

(** ** Module level constants *)

(** Special Windows error codes for the "network down or unreachable"
    condition. *)
Definition WSAENETDOWN : Z := 10050.
Definition WSAENETUNREACH : Z := 10051.

(** Special Windows error codes for the "host down or unreachable"
    condition. *)
Definition WSAEHOSTDOWN : Z := 10064.
Definition WSAEHOSTUNREACH : Z := 10065.

Inductive ErrorAction : Type :=
| SKIP_LOGGING
| LOG_AND_SUSPEND
| LOG.

#[global] Instance ErrorAction_eq_dec : EqDecision ErrorAction.
Proof. solve_decision. Defined.

(** The exceptions that the modelled code raises or tells apart.
    [trio.BrokenResourceError] and [trio.ClosedResourceError] derive from
    [Exception], not from [OSError]. *)
Inductive Exception : Type :=
| OSError (errno : option Z)
| BrokenResourceError (msg : string)
| ClosedResourceError
| RuntimeError (msg : string)
| KeyError (key : string)
| AttributeError (msg : string)
| RecursionError
| AssertionError
| OtherException (tag : nat).

Definition isinstance_OSError (ex : Exception) : bool :=
  match ex with OSError _ => true | _ => false end.

Definition isinstance_BrokenResourceError (ex : Exception) : bool :=
  match ex with BrokenResourceError _ => true | _ => false end.

Inductive Outcome (A : Type) : Type :=
| Returns (a : A)
| Raises (ex : Exception).
Arguments Returns {A} a.
Arguments Raises {A} ex.

(** ** Entries *)

Section Entries.

(** Connections and channels are opaque objects.  Channels are compared by
    identity in [set_channel]; [is_BroadcastMessageChannel ch] is
    [isinstance(ch, BroadcastMessageChannel)]. *)
Context {Connection Channel : Type} `{EqDecision Channel}.
Variable is_BroadcastMessageChannel : Channel -> bool.

Record CommunicationManagerEntry : Type := mkEntry {
  connection : Connection;
  name : string;
  can_broadcast : bool;
  can_send : bool;
  channel : option Channel;
  _error_count : Z
}.

(** The dataclass constructor as the manager calls it: the remaining fields
    take their defaults. *)
Definition new_entry (conn : Connection) (nm : string) (cs : bool)
  : CommunicationManagerEntry :=
  {| connection := conn; name := nm; can_broadcast := false;
     can_send := cs; channel := None; _error_count := 0 |}.

Definition notify_error (self : CommunicationManagerEntry) (limit : Z)
  : ErrorAction * CommunicationManagerEntry :=
  let self' :=
    {| connection := connection self; name := name self;
       can_broadcast := can_broadcast self; can_send := can_send self;
       channel := channel self; _error_count := _error_count self + 1 |} in
  if _error_count self' >? limit then (SKIP_LOGGING, self')
  else if _error_count self' =? limit then (LOG_AND_SUSPEND, self')
  else (LOG, self').

Definition reset_error_count (self : CommunicationManagerEntry)
  : bool * CommunicationManagerEntry :=
  if _error_count self >? 0 then
    (true,
     {| connection := connection self; name := name self;
        can_broadcast := can_broadcast self; can_send := can_send self;
        channel := channel self; _error_count := 0 |})
  else (false, self).

(** [isinstance(channel, BroadcastMessageChannel)] for an optional channel:
    [None] is an instance of nothing. *)
Definition isinstance_broadcast (ch : option Channel) : bool :=
  match ch with
  | Some c => is_BroadcastMessageChannel c
  | None => false
  end.

Definition set_channel (self : CommunicationManagerEntry)
    (ch : option Channel) : CommunicationManagerEntry :=
  if decide (channel self = ch) then self
  else
    {| connection := connection self; name := name self;
       can_broadcast := isinstance_broadcast ch;
       can_send := can_send self;
       channel := ch; _error_count := 0 |}.

Definition detach_channel (self : CommunicationManagerEntry)
  : CommunicationManagerEntry :=
  set_channel self None.

Definition is_open (self : CommunicationManagerEntry) : bool :=
  match channel self with Some _ => true | None => false end.

(** [n] consecutive calls of [notify_error], collecting the returned
    actions. *)
Fixpoint notify_errors (n : nat) (limit : Z)
    (self : CommunicationManagerEntry)
  : list ErrorAction * CommunicationManagerEntry :=
  match n with
  | O => ([], self)
  | S n' =>
      let '(a, self1) := notify_error self limit in
      let '(acts, self2) := notify_errors n' limit self1 in
      (a :: acts, self2)
  end.

(** The action the specification assigns to the call that brings the count
    to [k]. *)
Definition action_at_count (limit k : Z) : ErrorAction :=
  if k <? limit then LOG
  else if k =? limit then LOG_AND_SUSPEND
  else SKIP_LOGGING.

(** The operations through which the manager mutates an entry once it has
    been created. *)
Inductive EntryOp : Type :=
| OpSetChannel (ch : option Channel)
| OpDetachChannel
| OpNotifyError (limit : Z)
| OpResetErrorCount.

Definition apply_op (op : EntryOp) (self : CommunicationManagerEntry)
  : CommunicationManagerEntry :=
  match op with
  | OpSetChannel ch => set_channel self ch
  | OpDetachChannel => detach_channel self
  | OpNotifyError limit => snd (notify_error self limit)
  | OpResetErrorCount => snd (reset_error_count self)
  end.

(** The cache invariant of an entry: a set [can_broadcast] flag comes with a
    channel. *)
Definition broadcast_implies_channel (self : CommunicationManagerEntry)
  : Prop :=
  can_broadcast self = true -> channel self <> None.

End Entries.

Arguments CommunicationManagerEntry : clear implicits.
Arguments EntryOp : clear implicits.

(** ** Insertion-ordered dictionaries

    [_entries_by_name] is iterated with [values()] and [items()], so the
    order of insertion of its keys is kept. *)

Definition odict (V : Type) : Type := list (string * V).

Fixpoint odict_get {V : Type} (k : string) (d : odict V) : option V :=
  match d with
  | [] => None
  | (k', v) :: rest => if decide (k = k') then Some v else odict_get k rest
  end.

(** [d[k] = v]: an existing key keeps its position, a new key goes last. *)
Fixpoint odict_set {V : Type} (k : string) (v : V) (d : odict V) : odict V :=
  match d with
  | [] => [(k, v)]
  | (k', v') :: rest =>
      if decide (k = k') then (k, v) :: rest
      else (k', v') :: odict_set k v rest
  end.

(** [k in d] *)
Definition odict_contains {V : Type} (k : string) (d : odict V) : bool :=
  match odict_get k d with Some _ => true | None => false end.

Definition odict_keys {V : Type} (d : odict V) : list string := map fst d.
Definition odict_values {V : Type} (d : odict V) : list V := map snd d.

(** Truth value of an optional list, as in [if not entries:]: [None] and the
    empty list are false. *)
Definition truthy {A : Type} (l : option (list A)) : bool :=
  match l with
  | Some (_ :: _) => true
  | _ => false
  end.

(** ** The manager *)

(** The special address that marks a broadcast, next to the addresses proper
    of the manager. *)
Inductive Address (AddressType : Type) : Type :=
| BROADCAST
| Unicast (a : AddressType).
Arguments BROADCAST {AddressType}.
Arguments Unicast {AddressType} a.

Definition is_BROADCAST {AddressType : Type} (a : Address AddressType) : bool :=
  match a with BROADCAST => true | Unicast _ => false end.

(** What travels with a packet in the outbound queue: the marker itself, or a
    pair of a name and an address. *)
Inductive Destination (AddressType : Type) : Type :=
| ToEveryone
| ToChannel (nm : string) (address : Address AddressType).
Arguments ToEveryone {AddressType}.
Arguments ToChannel {AddressType} nm address.

Inductive LogLevel : Type := INFO | WARNING | ERROR.

(** A call on the logger: [exc_info] is set by [Logger.exception], which
    appends the traceback of the exception being handled; [telemetry_ignore]
    is the ["telemetry": "ignore"] item of [extra]. *)
Record LogRecord : Type := mkLog {
  level : LogLevel;
  message : string;
  extra_id : string;
  telemetry_ignore : bool;
  exc_info : bool
}.

(** The result of a blocking submission. *)
Inductive Submitted (A : Type) : Type :=
| Completed (a : A)
| Suspended
| Failed (ex : Exception).
Arguments Completed {A} a.
Arguments Suspended {A}.
Arguments Failed {A} ex.

Section Manager.

Context {Connection Channel PacketType AddressType World Seconds : Type}
        `{EqDecision Channel}.

(** [isinstance(ch, BroadcastMessageChannel)] *)
Variable is_BroadcastMessageChannel : Channel -> bool.

(** The channels: [None] when the call returns, [Some ex] when it raises. *)
Variable channel_send :
  Channel -> PacketType -> Address AddressType -> World ->
  option Exception * World.
Variable channel_broadcast :
  Channel -> PacketType -> World -> option Exception * World.

(** [self.format_address], which may raise, and [repr]. *)
Variable format_address : AddressType -> Outcome string.
Variable repr : Address AddressType -> string.

(** [broadcast_delay > 0] *)
Variable is_positive : Seconds -> bool.

(** The platform's [errno] module. *)
Variable errorcode : Z -> option string.
Variables EADDRNOTAVAIL EHOSTDOWN EHOSTUNREACH ENETDOWN ENETUNREACH : Z.

Abbreviation Entry := (CommunicationManagerEntry Connection Channel).
Abbreviation QueueItem := (PacketType * Destination AddressType)%type.

(** The sending end of the memory channel opened by [_run_outbound_links]:
    the packets waiting in its buffer. *)
Record MemorySendChannel : Type := mkQueue {
  buffer : list QueueItem;
  max_buffer_size : nat
}.

Record CommunicationManager : Type := mkManager {
  broadcast_delay : Seconds;
  error_limit : Z;
  _aliases : gmap string (list string);
  _entries_by_name : odict (list Entry);
  _error_counters : gmap string Z;
  _running : bool;
  _outbound_tx_queue : option MemorySendChannel
}.

Definition with_aliases (self : CommunicationManager)
    (a : gmap string (list string)) : CommunicationManager :=
  {| broadcast_delay := broadcast_delay self;
     error_limit := error_limit self;
     _aliases := a;
     _entries_by_name := _entries_by_name self;
     _error_counters := _error_counters self;
     _running := _running self;
     _outbound_tx_queue := _outbound_tx_queue self |}.

Definition with_entries (self : CommunicationManager)
    (e : odict (list Entry)) : CommunicationManager :=
  {| broadcast_delay := broadcast_delay self;
     error_limit := error_limit self;
     _aliases := _aliases self;
     _entries_by_name := e;
     _error_counters := _error_counters self;
     _running := _running self;
     _outbound_tx_queue := _outbound_tx_queue self |}.

Definition with_error_counters (self : CommunicationManager)
    (c : gmap string Z) : CommunicationManager :=
  {| broadcast_delay := broadcast_delay self;
     error_limit := error_limit self;
     _aliases := _aliases self;
     _entries_by_name := _entries_by_name self;
     _error_counters := c;
     _running := _running self;
     _outbound_tx_queue := _outbound_tx_queue self |}.

Definition with_queue (self : CommunicationManager)
    (q : option MemorySendChannel) : CommunicationManager :=
  {| broadcast_delay := broadcast_delay self;
     error_limit := error_limit self;
     _aliases := _aliases self;
     _entries_by_name := _entries_by_name self;
     _error_counters := _error_counters self;
     _running := _running self;
     _outbound_tx_queue := q |}.

(** [__init__]; the class attributes give [broadcast_delay] and
    [error_limit] (5 in the class body). *)
Definition init (delay : Seconds) (limit : Z) : CommunicationManager :=
  {| broadcast_delay := delay;
     error_limit := limit;
     _aliases := ∅;
     _entries_by_name := [];
     _error_counters := ∅;
     _running := false;
     _outbound_tx_queue := None |}.

(** [_entries_by_name[name].append(entry)] on a [defaultdict(list)] *)
Definition append_entry (nm : string) (entry : Entry)
    (d : odict (list Entry)) : odict (list Entry) :=
  odict_set nm (default [] (odict_get nm d) ++ [entry]) d.

(** [add], with [can_send] already resolved by the caller or by the
    capability probe. *)
Definition add (self : CommunicationManager) (conn : Connection)
    (nm : string) (cs : bool) : Outcome CommunicationManager :=
  if _running self then
    Raises (RuntimeError
              "cannot add new connections when the manager is running")
  else
    Returns (with_entries self
               (append_entry nm (new_entry conn nm cs)
                  (_entries_by_name self))).

Definition remove_alias (self : CommunicationManager) (alias : string)
  : Outcome CommunicationManager :=
  match _aliases self !! alias with
  | Some _ => Returns (with_aliases self (delete alias (_aliases self)))
  | None => Raises (KeyError alias)
  end.

(** [add_alias] returns the disposer [partial(self.remove_alias, alias)]:
    called later, it acts on the manager as it is then. *)
Definition add_alias (self : CommunicationManager) (alias : string)
    (targets : list string)
  : Outcome (CommunicationManager *
             (CommunicationManager -> Outcome CommunicationManager)) :=
  match _aliases self !! alias with
  | Some _ =>
      Raises (RuntimeError
                ("Alias already registered: '" +:+ alias +:+ "'"))
  | None =>
      Returns (with_aliases self (<[alias := targets]> (_aliases self)),
               fun self' => remove_alias self' alias)
  end.

(** [await queue.send(item)] on an open memory channel: the item is
    buffered when there is room, the caller waits otherwise. *)
Definition queue_send (self : CommunicationManager)
    (queue : MemorySendChannel) (item : QueueItem)
  : Submitted CommunicationManager :=
  if (length (buffer queue) <? max_buffer_size queue)%nat then
    Completed (with_queue self
                 (Some {| buffer := buffer queue ++ [item];
                          max_buffer_size := max_buffer_size queue |}))
  else Suspended.

Definition broadcast_packet (self : CommunicationManager)
    (packet : PacketType) (destination : option string)
    (allow_failure : bool) : Submitted CommunicationManager :=
  match _outbound_tx_queue self with
  | None =>
      if negb allow_failure then
        Failed (BrokenResourceError "Outbound message queue is closed")
      else Completed self
  | Some queue =>
      let address :=
        match destination with
        | None => ToEveryone
        | Some d => ToChannel d BROADCAST
        end in
      queue_send self queue (packet, address)
  end.

Definition send_packet (self : CommunicationManager)
    (packet : PacketType) (destination : string * AddressType)
  : Submitted CommunicationManager :=
  match _outbound_tx_queue self with
  | None => Failed (BrokenResourceError "Outbound message queue is closed")
  | Some queue =>
      queue_send self queue
        (packet, ToChannel (fst destination) (Unicast (snd destination)))
  end.

Definition is_channel_open (self : CommunicationManager) (nm : string)
  : bool :=
  match odict_get nm (_entries_by_name self) with
  | Some (e :: es) => existsb is_open (e :: es)
  | _ => false
  end.

Definition _iter_entries (self : CommunicationManager) : list Entry :=
  concat (odict_values (_entries_by_name self)).

(** *** The outbound dispatcher

    The dispatcher runs in a state made of the manager, of the world the
    channels act on, and of the calls made so far on channels and logger. *)

Inductive Event : Type :=
| ChannelSend (ch : Channel) (packet : PacketType)
    (address : Address AddressType)
| ChannelBroadcast (ch : Channel) (packet : PacketType)
| Sleep (d : Seconds)
| Logged (r : LogRecord).

Record State : Type := mkState {
  mgr : CommunicationManager;
  world : World;
  trace : list Event
}.

Definition M (A : Type) : Type := State -> Outcome A * State.

Definition ret {A : Type} (a : A) : M A := fun s => (Returns a, s).

Definition bind {A B : Type} (m : M A) (k : A -> M B) : M B :=
  fun s =>
    match m s with
    | (Returns a, s') => k a s'
    | (Raises ex, s') => (Raises ex, s')
    end.

Definition raise {A : Type} (ex : Exception) : M A :=
  fun s => (Raises ex, s).

(** [try: m  except Exception as ex: handler ex] *)
Definition try_except {A : Type} (m : M A) (handler : Exception -> M A)
  : M A :=
  fun s =>
    match m s with
    | (Returns a, s') => (Returns a, s')
    | (Raises ex, s') => handler ex s'
    end.

Definition get_mgr : M CommunicationManager := fun s => (Returns (mgr s), s).

Definition put_mgr (self : CommunicationManager) : M unit :=
  fun s =>
    (Returns tt, {| mgr := self; world := world s; trace := trace s |}).

Definition emit (e : Event) : M unit :=
  fun s =>
    (Returns tt,
     {| mgr := mgr s; world := world s; trace := trace s ++ [e] |}).

Notation "x <- m ;; k" := (bind m (fun x => k))
  (at level 100, m at next level, right associativity).
Notation "m ;;; k" := (bind m (fun _ => k))
  (at level 100, right associativity).

Fixpoint for_each {A : Type} (l : list A) (body : A -> M unit) : M unit :=
  match l with
  | [] => ret tt
  | x :: rest => body x ;;; for_each rest body
  end.

Definition log_info (msg id : string) : M unit :=
  emit (Logged {| level := INFO; message := msg; extra_id := id;
                  telemetry_ignore := false; exc_info := false |}).

Definition log_warning (msg id : string) (ignore : bool) : M unit :=
  emit (Logged {| level := WARNING; message := msg; extra_id := id;
                  telemetry_ignore := ignore; exc_info := false |}).

Definition log_error (msg id : string) (ignore : bool) : M unit :=
  emit (Logged {| level := ERROR; message := msg; extra_id := id;
                  telemetry_ignore := ignore; exc_info := false |}).

(** [Logger.exception]: an [ERROR] record with the traceback. *)
Definition log_exception (msg id : string) : M unit :=
  emit (Logged {| level := ERROR; message := msg; extra_id := id;
                  telemetry_ignore := false; exc_info := true |}).

(** [await channel.send((message, address))] *)
Definition call_send (ch : Channel) (message : PacketType)
    (address : Address AddressType) : M unit :=
  fun s =>
    let '(r, w) := channel_send ch message address (world s) in
    let s' := {| mgr := mgr s; world := w;
                 trace := trace s ++ [ChannelSend ch message address] |} in
    match r with
    | None => (Returns tt, s')
    | Some ex => (Raises ex, s')
    end.

(** [await channel.broadcast((message, BROADCAST))], where [channel] went
    through [cast], which checks nothing: on [None] the attribute lookup
    fails. *)
Definition call_broadcast (ch : option Channel) (message : PacketType)
  : M unit :=
  match ch with
  | None =>
      raise (AttributeError
               "'NoneType' object has no attribute 'broadcast'")
  | Some c =>
      fun s =>
        let '(r, w) := channel_broadcast c message (world s) in
        let s' := {| mgr := mgr s; world := w;
                     trace := trace s ++ [ChannelBroadcast c message] |} in
        match r with
        | None => (Returns tt, s')
        | Some ex => (Raises ex, s')
        end
  end.

(** [f"{name}[{index}]"] *)
Definition format_id (nm : string) (index : nat) : string :=
  nm +:+ "[" +:+ pretty index +:+ "]".

(** [ex.errno in codes]; a missing [errno] is in no tuple of numbers. *)
Definition errno_in (errno : option Z) (codes : list Z) : bool :=
  match errno with
  | Some n => bool_decide (n ∈ codes)
  | None => false
  end.

Definition format_error_code (errno : option Z) : string :=
  match errno with
  | Some n =>
      match errorcode n with
      | Some symbol => symbol
      | None => pretty n
      end
  | None => "code missing"
  end.

Definition _log_os_error_during_tx (errno : option Z)
    (formatted_address formatted_id : string) : M unit :=
  let formatted_error_code := format_error_code errno in
  let prefix :=
    if decide (formatted_address = "") then ""
    else formatted_address +:+ ": " in
  if errno_in errno
       [ENETDOWN; ENETUNREACH; EADDRNOTAVAIL; WSAENETDOWN; WSAENETUNREACH]
  then
    log_error
      (prefix +:+ "Network is down or unreachable ("
         +:+ formatted_error_code +:+ ")")
      formatted_id true
  else if errno_in errno
            [EHOSTDOWN; EHOSTUNREACH; WSAEHOSTDOWN; WSAEHOSTUNREACH]
  then
    log_error
      (prefix +:+ "Host is down or unreachable ("
         +:+ formatted_error_code +:+ ")")
      formatted_id true
  else
    log_exception
      (prefix +:+ "Error while sending message ("
         +:+ formatted_error_code +:+ ")")
      formatted_id.

(** [_handle_tx_error]; the entry is returned as [notify_error] left it. *)
Definition _handle_tx_error (ex : Exception)
    (address : Address AddressType) (entry : Entry) (index : nat)
  : M Entry :=
  self <- get_mgr ;;
  let '(action, entry') := notify_error entry (error_limit self) in
  if decide (action = SKIP_LOGGING) then ret entry'
  else
    let formatted_id := format_id (name entry') index in
    let formatted_address :=
      match address with
      | BROADCAST => ""
      | Unicast a =>
          match format_address a with
          | Returns str => str
          | Raises _ => repr address
          end
      end in
    (match ex with
     | OSError errno =>
         _log_os_error_during_tx errno formatted_address formatted_id
     | BrokenResourceError _ =>
         log_error "Channel is broken" formatted_id false
     | _ => log_error "Error while sending message" formatted_id false
     end) ;;;
    (if decide (action = LOG_AND_SUSPEND) then
       log_warning "Error reporting suspended until the connection recovers"
         formatted_id true
     else ret tt) ;;;
    (if negb (isinstance_OSError ex) then
       log_exception "Error while sending message"
         (format_id (name entry') index)
     else ret tt) ;;;
    ret entry'.

(** The body of the loop over the entries of a name (lines 616-648):
    [entry] and [sent] come in as the iteration finds them and go out as it
    leaves them. *)
Definition send_on_entry (nm : string) (address : Address AddressType)
    (message : PacketType) (index : nat) (entry : Entry) (sent : bool)
  : M (Entry * bool) :=
  if is_open entry && can_send entry then
    try_except
      (sent' <-
         (if is_BROADCAST address then
            if can_broadcast entry then
              call_broadcast (channel entry) message ;;;
              self <- get_mgr ;;
              (if is_positive (broadcast_delay self)
               then emit (Sleep (broadcast_delay self))
               else ret tt) ;;;
              ret true
            else ret sent
          else
            match channel entry with
            | None => raise AssertionError
            | Some ch => call_send ch message address ;;; ret true
            end) ;;
       if sent' then
         let '(was_failing, entry') := reset_error_count entry in
         (if was_failing then
            log_info "Channel resumed normal operation" (format_id nm index)
          else ret tt) ;;;
         ret (entry', sent')
       else ret (entry, sent'))
      (fun ex =>
         try_except
           (entry' <- _handle_tx_error ex address entry index ;;
            ret (entry', sent))
           (fun _ =>
              self <- get_mgr ;;
              log_exception
                "Error while handling error during message transmission"
                (format_id nm index) ;;;
              ret (snd (notify_error entry (error_limit self)), sent)))
  else ret (entry, sent).

(** [for index, entry in enumerate(entries)], from [index] on *)
Fixpoint send_loop (nm : string) (address : Address AddressType)
    (message : PacketType) (index : nat) (entries : list Entry)
    (sent : bool) : M (list Entry * bool) :=
  match entries with
  | [] => ret ([], sent)
  | entry :: rest =>
      r <- send_on_entry nm address message index entry sent ;;
      rs <- send_loop nm address message (S index) rest (snd r) ;;
      ret (fst r :: fst rs, snd rs)
  end.

(** The bookkeeping that ends a dispatch to a name (lines 650-669). *)
Definition record_result (nm : string) (address : Address AddressType)
    (entries : option (list Entry)) (sent : bool) : M unit :=
  self <- get_mgr ;;
  if sent then
    put_mgr (with_error_counters self (<[nm := 0]> (_error_counters self)))
  else
    let error_counter := default 0 (_error_counters self !! nm) + 1 in
    put_mgr (with_error_counters self
               (<[nm := error_counter]> (_error_counters self))) ;;;
    if negb (is_BROADCAST address) then
      if error_counter <=? error_limit self then
        if truthy entries then
          log_warning
            "Dropping outbound message, sending failed on all channels"
            nm true
        else
          log_warning "Dropping outbound message, no suitable channel"
            nm true
      else ret tt
    else ret tt.

(** Lines 611-669 of [_send_message_to_single_channel]: the message goes to
    the entries found for [nm].  The entries are mutated in place by the
    loop; the list that the loop returns takes the place of the one in the
    registry. *)
Definition send_to_entries (nm : string) (address : Address AddressType)
    (message : PacketType) (entries : option (list Entry)) : M unit :=
  match entries with
  | Some (e :: es) =>
      r <- send_loop nm address message 0 (e :: es) false ;;
      self <- get_mgr ;;
      put_mgr (with_entries self
                 (odict_set nm (fst r) (_entries_by_name self))) ;;;
      record_result nm address entries (snd r)
  | _ => record_result nm address entries false
  end.

(** [depth] bounds the nesting of the recursive calls, as the recursion
    limit of the interpreter does. *)
Fixpoint _send_message_to_single_channel (depth : nat)
    (message : PacketType) (destination : string * Address AddressType)
  : M unit :=
  match depth with
  | O => raise RecursionError
  | S depth' =>
      let '(nm, address) := destination in
      self <- get_mgr ;;
      let entries := odict_get nm (_entries_by_name self) in
      if negb (truthy entries) then
        (* try with an alias *)
        match _aliases self !! nm with
        | None | Some [] => ret tt
        | Some [target] =>
            send_to_entries target address message
              (odict_get target (_entries_by_name self))
        | Some targets =>
            for_each targets
              (fun target =>
                 self' <- get_mgr ;;
                 if odict_contains target (_entries_by_name self') then
                   _send_message_to_single_channel depth' message
                     (target, address)
                 else ret tt)
        end
      else send_to_entries nm address message entries
  end.

(** The call that the loop of lines 615-648 makes for [entry] in the world
    [w], if it makes one: the call, what it raised, and the world it
    left. *)
Definition attempt_outcome (address : Address AddressType)
    (message : PacketType) (entry : Entry) (w : World)
  : option (Event * option Exception * World) :=
  match channel entry with
  | Some ch =>
      if can_send entry then
        if is_BROADCAST address then
          if can_broadcast entry then
            let '(r, w') := channel_broadcast ch message w in
            Some (ChannelBroadcast ch message, r, w')
          else None
        else
          let '(r, w') := channel_send ch message address w in
          Some (ChannelSend ch message address, r, w')
      else None
  | None => None
  end.


(** One step of the loop over the entries in
    [_send_message_to_all_channels]. *)
Definition broadcast_on_entry (message : PacketType) (entry : Entry)
  : M unit :=
  if negb (can_broadcast entry) then ret tt
  else try_except (call_broadcast (channel entry) message)
                  (fun _ => ret tt).

Definition _send_message_to_all_channels (message : PacketType) : M unit :=
  self <- get_mgr ;;
  for_each (odict_values (_entries_by_name self))
    (fun entries => for_each entries (broadcast_on_entry message)).

(** One iteration of [_run_outbound_links_inner]. *)
Definition dispatch (depth : nat) (item : QueueItem) : M unit :=
  match snd item with
  | ToEveryone => _send_message_to_all_channels (fst item)
  | ToChannel nm address =>
      _send_message_to_single_channel depth (fst item) (nm, address)
  end.

End Manager.

(** ** What a dispatch puts on the wire *)

Section Attempts.

Context {Connection Channel PacketType AddressType Seconds : Type}.

Abbreviation Entry' := (CommunicationManagerEntry Connection Channel).
Abbreviation Event' := (@Event Channel PacketType AddressType Seconds).

Definition is_transmission (e : Event') : bool :=
  match e with
  | ChannelSend _ _ _ | ChannelBroadcast _ _ => true
  | _ => false
  end.

(** The calls made on channels, in order, without the log records and the
    pauses between them. *)
Definition transmissions (t : list Event') : list Event' :=
  List.filter is_transmission t.

(** The call that the loop of lines 615-648 makes for one entry, if it makes
    one. *)
Definition attempt_of (address : Address AddressType)
    (message : PacketType) (entry : Entry') : option Event' :=
  match channel entry with
  | Some ch =>
      if can_send entry then
        if is_BROADCAST address then
          if can_broadcast entry then Some (ChannelBroadcast ch message)
          else None
        else Some (ChannelSend ch message address)
      else None
  | None => None
  end.

(** The call for one entry in the words of the specification: every entry
    that is open and can send gets an attempt, which is a broadcast when
    the address is the marker and the entry can broadcast, and a plain send
    otherwise. *)
Definition attempt_as_specified (address : Address AddressType)
    (message : PacketType) (entry : Entry') : option Event' :=
  match channel entry with
  | Some ch =>
      if can_send entry then
        if is_BROADCAST address && can_broadcast entry
        then Some (ChannelBroadcast ch message)
        else Some (ChannelSend ch message address)
      else None
  | None => None
  end.

(** Resolution of a name in the words of the specification: a name with
    entries stands for itself; otherwise its alias is looked up and each
    target is resolved in turn, aliases of aliases included. *)
Fixpoint resolve_as_specified (depth : nat)
    (registry : odict (list Entry')) (aliases : gmap string (list string))
    (nm : string) : list string :=
  match depth with
  | O => []
  | S depth' =>
      if truthy (odict_get nm registry) then [nm]
      else
        match aliases !! nm with
        | Some targets =>
            flat_map (resolve_as_specified depth' registry aliases) targets
        | None => []
        end
  end.

(** The entries registered under a list of names, one name after the
    other. *)
Definition entries_of (registry : odict (list Entry'))
    (names : list string) : list Entry' :=
  flat_map (fun nm => default [] (odict_get nm registry)) names.

(** Every list in the registry has an entry: [add] creates a list only to
    append to it. *)
Definition lists_nonempty (registry : odict (list Entry')) : Prop :=
  Forall (fun kv => snd kv <> []) registry.

(** The call that [_send_message_to_all_channels] makes for one entry, if
    it makes one. *)
Definition broadcast_of (message : PacketType) (entry : Entry')
  : option Event' :=
  if can_broadcast entry then
    match channel entry with
    | Some ch => Some (ChannelBroadcast ch message)
    | None => None
    end
  else None.


(** The channel on which [_send_message_to_all_channels] calls the broadcast
    primitive for one entry, if it calls it. *)
Definition broadcast_channel (entry : Entry') : option Channel :=
  if can_broadcast entry then channel entry else None.


(** The names whose entries a dispatch to [nm] goes through (lines 596-609):
    the name itself when it has entries, the targets of its alias
    otherwise.  The entries of a target are those that the registry has for
    it, see [entries_of]. *)
Definition route (registry : odict (list Entry'))
    (aliases : gmap string (list string)) (nm : string) : list string :=
  if truthy (odict_get nm registry) then [nm]
  else default [] (aliases !! nm).

(** The calls on channels that the dispatch of one item of the outbound
    queue makes, in their order. *)
Definition expected_calls (registry : odict (list Entry'))
    (aliases : gmap string (list string))
    (item : PacketType * Destination AddressType) : list Event' :=
  match snd item with
  | ToEveryone =>
      omap (broadcast_of (fst item)) (concat (odict_values registry))
  | ToChannel nm address =>
      omap (attempt_of address (fst item))
           (entries_of registry (route registry aliases nm))
  end.


End Attempts.

(** ** Computations that only write to the log *)

Section Effects.

Context {Connection Channel PacketType AddressType World Seconds : Type}.

(** Two states of the same entry: everything but the error count agrees. *)
Definition same_link (e e' : CommunicationManagerEntry Connection Channel)
  : Prop :=
  connection e' = connection e
  /\ name e' = name e
  /\ can_broadcast e' = can_broadcast e
  /\ can_send e' = can_send e
  /\ channel e' = channel e.

(** [m] returns [a], calls no channel and leaves manager and world alone. *)
Definition logs_only {A : Type}
    (m : @M Connection Channel PacketType AddressType World Seconds A)
    (a : A) : Prop :=
  forall s,
    exists logs,
      m s = (Returns a,
             {| mgr := mgr s; world := world s; trace := trace s ++ logs |})
      /\ transmissions logs = [].

End Effects.


(** ** A concrete installation

    Two links, ["A"] with two redundant radios and ["B"] with one, on a
    platform with the error numbers of Linux.  Channel 13 is out of order:
    sending on it fails with [ENETUNREACH], broadcasting with a broken
    resource. *)

Module Scenario.

Definition channel_send (ch : nat) (packet : nat) (address : Address nat)
    (w : unit) : option Exception * unit :=
  (if Nat.eqb ch 13 then Some (OSError (Some 101)) else None, w).

Definition channel_broadcast (ch : nat) (packet : nat) (w : unit)
  : option Exception * unit :=
  (if Nat.eqb ch 13 then Some (BrokenResourceError "") else None, w).

Definition is_BroadcastMessageChannel (ch : nat) : bool := Nat.even ch.

Definition format_address (a : nat) : Outcome string := Returns (pretty a).

Definition repr (a : Address nat) : string :=
  match a with
  | BROADCAST => "<object object>"
  | Unicast n => pretty n
  end.

Definition is_positive (d : nat) : bool := (0 <? d)%nat.

Definition errorcode (n : Z) : option string :=
  if n =? 99 then Some "EADDRNOTAVAIL"
  else if n =? 100 then Some "ENETDOWN"
  else if n =? 101 then Some "ENETUNREACH"
  else if n =? 112 then Some "EHOSTDOWN"
  else if n =? 113 then Some "EHOSTUNREACH"
  else None.

Definition EADDRNOTAVAIL : Z := 99.
Definition EHOSTDOWN : Z := 112.
Definition EHOSTUNREACH : Z := 113.
Definition ENETDOWN : Z := 100.
Definition ENETUNREACH : Z := 101.

Abbreviation entry := (CommunicationManagerEntry nat nat).
Abbreviation manager := (@CommunicationManager nat nat nat nat nat).
Abbreviation state := (@State nat nat nat nat unit nat).

(** An entry as [add] makes it, then attached to channel [ch]. *)
Definition attached (conn : nat) (nm : string) (ch : nat) : entry :=
  set_channel is_BroadcastMessageChannel (new_entry conn nm true) (Some ch).

(** ["A"]: channel 2 (can broadcast) and channel 13 (cannot);
    ["B"]: channel 5 (cannot broadcast). *)
Definition registry : odict (list entry) :=
  [("A", [attached 0 "A" 2; attached 1 "A" 13]);
   ("B", [attached 2 "B" 5])].

Definition stopped : manager :=
  {| broadcast_delay := 0%nat; error_limit := 5;
     _aliases := ∅; _entries_by_name := registry;
     _error_counters := ∅; _running := false;
     _outbound_tx_queue := None |}.

Definition running (aliases : gmap string (list string)) : state :=
  {| mgr := {| broadcast_delay := 0%nat; error_limit := 5;
               _aliases := aliases; _entries_by_name := registry;
               _error_counters := ∅; _running := true;
               _outbound_tx_queue :=
                 Some {| buffer := []; max_buffer_size := 256 |} |};
     world := tt; trace := [] |}.

Definition send_single :=
  @_send_message_to_single_channel nat nat nat nat unit nat
    channel_send channel_broadcast format_address repr is_positive
    errorcode EADDRNOTAVAIL EHOSTDOWN EHOSTUNREACH ENETDOWN ENETUNREACH.

Definition send_all :=
  @_send_message_to_all_channels nat nat nat nat unit nat channel_broadcast.

Definition handle_tx_error :=
  @_handle_tx_error nat nat nat nat unit nat
    format_address repr errorcode
    EADDRNOTAVAIL EHOSTDOWN EHOSTUNREACH ENETDOWN ENETUNREACH.

(** An alias of an alias of ["B"]. *)
Definition chained : gmap string (list string) :=
  <["G" := ["H"]]> (<["H" := ["B"]]> ∅).

(** An alias with a single target that is not registered. *)
Definition dangling : gmap string (list string) :=
  <["G" := ["nowhere"]]> ∅.

(** An alias of both links. *)
Definition both : gmap string (list string) :=
  <["G" := ["A"; "B"]]> ∅.

End Scenario.

(** * The rest of the manager *)

(** ** Channels that are open, non-blocking submission, scoped aliases *)

Section Submission.

Context {Connection Channel PacketType AddressType Seconds : Type}.

Abbreviation Manager' :=
  (@CommunicationManager Connection Channel PacketType AddressType Seconds).
Abbreviation Queue' :=
  (@MemorySendChannel PacketType AddressType).

(** [open_channels]: the channels of the entries that have one, in the order
    of the registry.  The source tests [if entry.channel:]; a channel object
    is taken to be true in a condition, as objects are by default. *)
Definition open_channels (self : Manager') : list Channel :=
  omap channel (_iter_entries self).

(** The entry object at position [index] under [nm] is mutated in place by
    [f]; an absent name or position leaves the registry alone. *)
Definition update_entry (nm : string) (index : nat)
    (f : CommunicationManagerEntry Connection Channel ->
         CommunicationManagerEntry Connection Channel)
    (self : Manager') : Manager' :=
  match odict_get nm (_entries_by_name self) with
  | Some entries =>
      match entries !! index with
      | Some e =>
          with_entries self
            (odict_set nm (<[index := f e]> entries) (_entries_by_name self))
      | None => self
      end
  | None => self
  end.

(** [queue.send_nowait(item)]: [None] stands for [WouldBlock]. *)
Definition queue_send_nowait (queue : Queue')
    (item : PacketType * Destination AddressType) : option Queue' :=
  if (length (buffer queue) <? max_buffer_size queue)%nat then
    Some {| buffer := buffer queue ++ [item];
            max_buffer_size := max_buffer_size queue |}
  else None.

(** A warning written without [extra]. *)
Definition plain_warning (msg : string) : LogRecord :=
  {| level := WARNING; message := msg; extra_id := "";
     telemetry_ignore := false; exc_info := false |}.

(** [enqueue_packet]; [log] tells whether [self.log] is set.  The records
    written to the log are returned with the manager. *)
Definition enqueue_packet (self : Manager') (log : bool)
    (packet : PacketType) (destination : string * AddressType)
  : Outcome (Manager' * list LogRecord) :=
  match _outbound_tx_queue self with
  | None => Raises (BrokenResourceError "Outbound message queue is closed")
  | Some queue =>
      match queue_send_nowait queue
              (packet,
               ToChannel (fst destination) (Unicast (snd destination))) with
      | Some queue' => Returns (with_queue self (Some queue'), [])
      | None =>
          Returns
            (self,
             if log then
               [plain_warning
                  "Dropping outbound packet; outbound message queue is full"]
             else [])
      end
  end.

Definition enqueue_broadcast_packet (self : Manager') (log : bool)
    (packet : PacketType) (destination : option string)
    (allow_failure : bool) : Outcome (Manager' * list LogRecord) :=
  match _outbound_tx_queue self with
  | None =>
      if negb allow_failure then
        Raises (BrokenResourceError "Outbound message queue is closed")
      else Returns (self, [])
  | Some queue =>
      let address :=
        match destination with
        | None => ToEveryone
        | Some d => ToChannel d BROADCAST
        end in
      match queue_send_nowait queue (packet, address) with
      | Some queue' => Returns (with_queue self (Some queue'), [])
      | None =>
          Returns
            (self,
             if log then
               [plain_warning
                  "Dropping outbound broadcast packet; outbound message queue is full"]
             else [])
      end
  end.

(** [with_alias]: the alias is registered, the body of the [with] statement
    runs on the manager, and the disposer runs in the [finally] clause; an
    exception of the disposer takes the place of the result of the body. *)
Definition with_alias (self : Manager') (alias : string)
    (targets : list string) (body : Manager' -> Outcome unit * Manager')
  : Outcome unit * Manager' :=
  match add_alias self alias targets with
  | Raises ex => (Raises ex, self)
  | Returns (self1, disposer) =>
      let '(r, self2) := body self1 in
      match disposer self2 with
      | Returns self3 => (r, self3)
      | Raises ex => (Raises ex, self2)
      end
  end.

(** Several connections registered in a row, as an extension does before
    [run]; the first call that raises ends the registration. *)
Fixpoint add_all (self : Manager')
    (registrations : list (Connection * string * bool))
  : Outcome Manager' :=
  match registrations with
  | [] => Returns self
  | (conn, nm, cs) :: rest =>
      match add self conn nm cs with
      | Returns self' => add_all self' rest
      | Raises ex => Raises ex
      end
  end.

(** The entries that [registrations] create under [nm], in their order. *)
Definition registered_under (nm : string)
    (registrations : list (Connection * string * bool))
  : list (CommunicationManagerEntry Connection Channel) :=
  map (fun r => new_entry (fst (fst r)) (snd (fst r)) (snd r))
      (List.filter (fun r => bool_decide (snd (fst r) = nm)) registrations).


(** The registry without the error counts: names, and for each entry its
    connection, name, flags and channel. *)
Definition same_links
    (l l' : list (CommunicationManagerEntry Connection Channel)) : Prop :=
  Forall2 same_link l l'.

Definition same_registry
    (d d' : odict (list (CommunicationManagerEntry Connection Channel)))
  : Prop :=
  Forall2 (fun kv kv' => fst kv' = fst kv /\ same_links (snd kv) (snd kv'))
          d d'.

(** What a dispatch leaves alone in the manager. *)
Definition same_manager (self self' : Manager') : Prop :=
  broadcast_delay self' = broadcast_delay self
  /\ error_limit self' = error_limit self
  /\ _aliases self' = _aliases self
  /\ same_registry (_entries_by_name self) (_entries_by_name self')
  /\ _running self' = _running self
  /\ _outbound_tx_queue self' = _outbound_tx_queue self.

End Submission.

(** ** The outbound task *)

Section Outbound.

Context {Connection Channel PacketType AddressType World Seconds : Type}.
Variable channel_send :
  Channel -> PacketType -> Address AddressType -> World ->
  option Exception * World.
Variable channel_broadcast :
  Channel -> PacketType -> World -> option Exception * World.
Variable format_address : AddressType -> Outcome string.
Variable repr : Address AddressType -> string.
Variable is_positive : Seconds -> bool.
Variable errorcode : Z -> option string.
Variables EADDRNOTAVAIL EHOSTDOWN EHOSTUNREACH ENETDOWN ENETUNREACH : Z.

Abbreviation Task A :=
  (@M Connection Channel PacketType AddressType World Seconds A).
Abbreviation Item := (PacketType * Destination AddressType)%type.

(** One turn of [async for message, destination in queue] (line 568).  The
    receiving end takes the oldest item out of the buffer that it shares
    with the sending end, the one that the manager holds in
    [_outbound_tx_queue] and that [send_packet] and the other submitting
    methods fill.  [None]: there is nothing in the buffer, and the loop
    waits for a sender; this is also the answer while the manager holds no
    queue, which does not happen under [_run_outbound_links], the only
    caller of the loop. *)
Definition queue_receive : Task (option Item) :=
  fun s =>
    match _outbound_tx_queue (mgr s) with
    | Some queue =>
        match buffer queue with
        | item :: rest =>
            (Returns (Some item),
             {| mgr := with_queue (mgr s)
                         (Some {| buffer := rest;
                                  max_buffer_size := max_buffer_size queue |});
                world := world s; trace := trace s |})
        | [] => (Returns None, s)
        end
    | None => (Returns None, s)
    end.

(** Where a run of the loop stands when the model leaves it: waiting for
    the next item, the buffer being empty, or cut after the number of turns
    it was allowed. *)
Inductive LoopStatus : Type :=
| Waiting
| Interrupted.

(** [_run_outbound_links_inner], for at most [steps] turns of its loop, up
    to the point where it finds the buffer empty. *)
Fixpoint _run_outbound_links_inner (depth steps : nat) : Task LoopStatus :=
  match steps with
  | O => ret Interrupted
  | S steps' =>
      bind queue_receive
        (fun next =>
           match next with
           | None => ret Waiting
           | Some item =>
               bind
                 (dispatch channel_send channel_broadcast format_address
                    repr is_positive errorcode
                    EADDRNOTAVAIL EHOSTDOWN EHOSTUNREACH ENETDOWN
                    ENETUNREACH depth item)
                 (fun _ => _run_outbound_links_inner depth steps')
           end)
  end.

(** What the other tasks do with the manager while the outbound task runs:
    they submit packets with the two methods that wait for room in the
    queue. *)
Inductive Submission : Type :=
| BySendPacket (packet : PacketType) (destination : string * AddressType)
| ByBroadcastPacket (packet : PacketType) (destination : option string)
    (allow_failure : bool).

Definition submit
    (self : @CommunicationManager
              Connection Channel PacketType AddressType Seconds)
    (call : Submission) :=
  match call with
  | BySendPacket packet destination => send_packet self packet destination
  | ByBroadcastPacket packet destination allow_failure =>
      broadcast_packet self packet destination allow_failure
  end.

(** The tasks of the nursery take turns: another task makes a call, or the
    loop of the outbound task runs until it has to wait. *)
Inductive Turn : Type :=
| OtherTask (call : Submission)
| LoopRuns.

(** One turn.  A call that finds the queue full waits in [queue.send]
    until the loop has taken items out, and goes through then; a call that
    raises does so in the task that made it, and puts nothing in the
    queue. *)
Definition take_turn (depth steps : nat) (turn : Turn) : Task unit :=
  match turn with
  | LoopRuns =>
      bind (_run_outbound_links_inner depth steps) (fun _ => ret tt)
  | OtherTask call =>
      bind get_mgr
        (fun self =>
           match submit self call with
           | Completed self' => put_mgr self'
           | Failed _ => ret tt
           | Suspended =>
               bind (_run_outbound_links_inner depth steps)
                 (fun _ =>
                    bind get_mgr
                      (fun self1 =>
                         match submit self1 call with
                         | Completed self' => put_mgr self'
                         | _ => ret tt
                         end))
           end)
  end.

(** [_run_outbound_links] (lines 554-563) in the company of the other tasks,
    whose turns and those of the loop are given by [schedule].  The memory
    channel is opened with room for 256 items and its sending end is put in
    [_outbound_tx_queue]; the loop has no end of its own, the task ends when
    it is cancelled, which is where the schedule ends, or when a dispatch
    raises; the [finally] clause then takes the queue away. *)
Definition _run_outbound_links (depth steps : nat) (schedule : list Turn)
  : Task unit :=
  fun s =>
    let opened :=
      {| mgr := with_queue (mgr s)
                  (Some {| buffer := []; max_buffer_size := 256 |});
         world := world s; trace := trace s |} in
    let '(r, s') := for_each schedule (take_turn depth steps) opened in
    (r, {| mgr := with_queue (mgr s') None;
           world := world s'; trace := trace s' |}).

(** The item that a call puts in the queue, and the items of the calls of a
    schedule, in their order. *)
Definition item_of (call : Submission) : Item :=
  match call with
  | BySendPacket packet destination =>
      (packet, ToChannel (fst destination) (Unicast (snd destination)))
  | ByBroadcastPacket packet destination _ =>
      (packet,
       match destination with
       | None => ToEveryone
       | Some d => ToChannel d BROADCAST
       end)
  end.

Definition submitted (schedule : list Turn) : list Item :=
  omap (fun turn => match turn with
                    | OtherTask call => Some (item_of call)
                    | LoopRuns => None
                    end) schedule.

End Outbound.

(** ** The inbound task of a connection *)

Section Inbound.

Context {Connection Channel PacketType AddressType : Type}
        `{EqDecision Channel}.
Variable is_BroadcastMessageChannel : Channel -> bool.

(** [getattr(connection, "address", None)], with [None] also for an address
    that is false in a condition. *)
Variable connection_address : Connection -> option AddressType.
Variable format_address : AddressType -> Outcome string.

(** [str(ex)], the message of [Logger.exception(ex)]. *)
Variable str : Exception -> string.

(** [await queue.send(...)] on the queue of the consumer (line 527): what
    the call raises, if it raises, for each call of a run, the calls being
    counted from 0.  The queue raises when one of its ends has been
    closed. *)
Variable inbound_send : nat -> option Exception.

(** What arrives in the queue of the consumer, and what goes to the log. *)
Inductive LinkEvent : Type :=
| Forwarded (nm : string) (message : PacketType * AddressType)
| LinkLogged (r : LogRecord).

(** What the connection does during one run of the task: the factory fails,
    or it returns a channel that delivers the messages [received], one each
    time the loop asks for the next, and then is exhausted ([None]) or
    raises ([Some ex]).  The factory is taken to return a channel when it
    returns, so that the assertion on the channel of the entry holds. *)
Inductive LinkSession : Type :=
| FactoryRaises (ex : Exception)
| ChannelRuns (ch : Channel) (received : list (PacketType * AddressType))
    (ending : option Exception).

Definition is_benign (ex : Exception) : bool :=
  match ex with
  | BrokenResourceError _ | ClosedResourceError => true
  | _ => false
  end.

Definition link_record (lvl : LogLevel) (msg id : string) (exc : bool)
  : LinkEvent :=
  LinkLogged {| level := lvl; message := msg; extra_id := id;
                telemetry_ignore := false; exc_info := exc |}.

(** The [except] clause: the exception is logged unless it is benign, and
    the connection is reported down if its channel had been created. *)
Definition link_failure (ex : Exception) (channel_created : bool)
    (address : option string) (id : string) : list LinkEvent :=
  (if is_benign ex then [] else [link_record ERROR (str ex) "" true])
  ++ (if channel_created then
        match address with
        | Some a =>
            [link_record WARNING
               ("Connection at " +:+ a +:+ " down, trying to reopen...")
               id false]
        | None =>
            [link_record WARNING "Connection down, trying to reopen..."
               id false]
        end
      else []).

(** The loop of lines 526-527, from the [k]-th call of [queue.send] on:
    each message that the channel delivers is sent to the queue under the
    name of the entry.  A call of [queue.send] that raises ends the loop
    with its exception: its message is not in the queue, and the channel is
    not asked for another.  The result is what went to the queue and the
    exception that ended the loop, if one did. *)
Fixpoint forward (nm : string) (k : nat)
    (received : list (PacketType * AddressType))
    (ending : option Exception) : list LinkEvent * option Exception :=
  match received with
  | [] => ([], ending)
  | message :: rest =>
      match inbound_send k with
      | Some ex => ([], Some ex)
      | None =>
          let r := forward nm (S k) rest ending in
          (Forwarded nm message :: fst r, snd r)
      end
  end.

(** The task from the call of the factory on, with the formatted address
    of the connection, if it has one. *)
Definition link_body
    (entry : CommunicationManagerEntry Connection Channel)
    (address : option string) (session : LinkSession)
  : CommunicationManagerEntry Connection Channel * list LinkEvent :=
  let id := name entry in
  match session with
  | FactoryRaises ex =>
      (detach_channel is_BroadcastMessageChannel entry,
       link_failure ex false address id)
  | ChannelRuns ch received ending =>
      let attached :=
        set_channel is_BroadcastMessageChannel entry (Some ch) in
      let up :=
        match address with
        | Some a =>
            link_record INFO
              ("Connection at " +:+ a +:+ " up and running") id false
        | None => link_record INFO "Connection up and running" id false
        end in
      let loop := forward (name attached) 0 received ending in
      let ended :=
        match snd loop with
        | Some ex => link_failure ex true address id
        | None =>
            match address with
            | Some a =>
                [link_record INFO
                   ("Connection at " +:+ a +:+ " closed") id false]
            | None => [link_record INFO "Connection closed" id false]
            end
        end in
      (detach_channel is_BroadcastMessageChannel attached,
       up :: fst loop ++ ended)
  end.

(** [_run_inbound_link]: the entry as the task leaves it, and what the task
    sent to the queue and to the log. *)
Definition _run_inbound_link
    (entry : CommunicationManagerEntry Connection Channel)
    (session : LinkSession)
  : CommunicationManagerEntry Connection Channel * list LinkEvent :=
  let formatted : Outcome (option string) :=
    match connection_address (connection entry) with
    | Some a =>
        match format_address a with
        | Returns text => Returns (Some text)
        | Raises ex => Raises ex
        end
    | None => Returns None
    end in
  match formatted with
  | Raises ex =>
      (detach_channel is_BroadcastMessageChannel entry,
       link_failure ex false None (name entry))
  | Returns formatted_address =>
      (* [if address:] on the formatted text *)
      link_body entry
        match formatted_address with
        | Some "" => None
        | other => other
        end session
  end.

(** The messages that a run of the task put in the queue, and the records
    it wrote, each in their order. *)
Definition forwarded_of (evs : list LinkEvent)
  : list (string * (PacketType * AddressType)) :=
  omap (fun ev => match ev with
                  | Forwarded nm message => Some (nm, message)
                  | LinkLogged _ => None
                  end) evs.

Definition logged_of (evs : list LinkEvent) : list LogRecord :=
  omap (fun ev => match ev with
                  | LinkLogged r => Some r
                  | Forwarded _ _ => None
                  end) evs.

(** The exception that [format_address] raises on the address of the
    connection, if it does. *)
Definition format_raises
    (entry : CommunicationManagerEntry Connection Channel)
  : option Exception :=
  match connection_address (connection entry) with
  | Some a =>
      match format_address a with
      | Raises ex => Some ex
      | Returns _ => None
      end
  | None => None
  end.

(** The exception of the first call of [queue.send] that raises, among the
    [n] calls from the [k]-th on. *)
Fixpoint send_failure (k n : nat) : option Exception :=
  match n with
  | O => None
  | S n' =>
      match inbound_send k with
      | Some ex => Some ex
      | None => send_failure (S k) n'
      end
  end.

(** The exception that ends a run of the task, if one does: that of
    [format_address], of the factory, of the first call of [queue.send]
    that raises for a message of the channel, or of the channel. *)
Definition link_raised
    (entry : CommunicationManagerEntry Connection Channel)
    (session : LinkSession) : option Exception :=
  match format_raises entry with
  | Some ex => Some ex
  | None =>
      match session with
      | FactoryRaises ex => Some ex
      | ChannelRuns _ received ending =>
          match send_failure 0 (length received) with
          | Some ex => Some ex
          | None => ending
          end
      end
  end.

(** Whether a run of the task gets as far as [channel_created = True]. *)
Definition channel_created
    (entry : CommunicationManagerEntry Connection Channel)
    (session : LinkSession) : bool :=
  match format_raises entry, session with
  | None, ChannelRuns _ _ _ => true
  | _, _ => false
  end.

(** The address that the messages of the log name: the formatted address
    of the connection, when the connection has an address and its text is
    not empty. *)
Definition link_address
    (entry : CommunicationManagerEntry Connection Channel)
  : option string :=
  match connection_address (connection entry) with
  | Some a =>
      match format_address a with
      | Returns "" => None
      | Returns text => Some text
      | Raises _ => None
      end
  | None => None
  end.

(** The message of the log about the connection: [what] is one of
    [" up and running"], [" closed"] and [" down, trying to reopen..."]. *)
Definition link_message (address : option string) (what : string)
  : string :=
  match address with
  | Some a => "Connection at " +:+ a +:+ what
  | None => "Connection" +:+ what
  end.

End Inbound.


(** * Properties *)

Section Properties.

Context {Connection Channel PacketType AddressType World Seconds : Type}
        `{EqDecision Channel}.
Variable is_BroadcastMessageChannel : Channel -> bool.
Variable channel_send :
  Channel -> PacketType -> Address AddressType -> World ->
  option Exception * World.
Variable channel_broadcast :
  Channel -> PacketType -> World -> option Exception * World.
Variable format_address : AddressType -> Outcome string.
Variable repr : Address AddressType -> string.
Variable is_positive : Seconds -> bool.
Variable errorcode : Z -> option string.
Variables EADDRNOTAVAIL EHOSTDOWN EHOSTUNREACH ENETDOWN ENETUNREACH : Z.

Abbreviation entry := (CommunicationManagerEntry Connection Channel).
Abbreviation manager :=
  (@CommunicationManager Connection Channel PacketType AddressType Seconds).
Abbreviation state :=
  (@State Connection Channel PacketType AddressType World Seconds).
Abbreviation event := (@Event Channel PacketType AddressType Seconds).
Abbreviation action A :=
  (@M Connection Channel PacketType AddressType World Seconds A).

Abbreviation handle_tx_error :=
  (@_handle_tx_error Connection Channel PacketType AddressType World Seconds
     format_address repr errorcode
     EADDRNOTAVAIL EHOSTDOWN EHOSTUNREACH ENETDOWN ENETUNREACH).
Abbreviation on_entry :=
  (@send_on_entry Connection Channel PacketType AddressType World Seconds
     channel_send channel_broadcast format_address repr is_positive
     errorcode EADDRNOTAVAIL EHOSTDOWN EHOSTUNREACH ENETDOWN ENETUNREACH).
Abbreviation loop :=
  (@send_loop Connection Channel PacketType AddressType World Seconds
     channel_send channel_broadcast format_address repr is_positive
     errorcode EADDRNOTAVAIL EHOSTDOWN EHOSTUNREACH ENETDOWN ENETUNREACH).
Abbreviation to_entries :=
  (@send_to_entries Connection Channel PacketType AddressType World Seconds
     channel_send channel_broadcast format_address repr is_positive
     errorcode EADDRNOTAVAIL EHOSTDOWN EHOSTUNREACH ENETDOWN ENETUNREACH).
Abbreviation to_single_channel :=
  (@_send_message_to_single_channel
     Connection Channel PacketType AddressType World Seconds
     channel_send channel_broadcast format_address repr is_positive
     errorcode EADDRNOTAVAIL EHOSTDOWN EHOSTUNREACH ENETDOWN ENETUNREACH).
Abbreviation to_all_channels :=
  (@_send_message_to_all_channels
     Connection Channel PacketType AddressType World Seconds
     channel_broadcast).
Abbreviation on_entry_broadcast :=
  (@broadcast_on_entry
     Connection Channel PacketType AddressType World Seconds
     channel_broadcast).

Abbreviation broadcast_by :=
  (@broadcast_of Connection Channel PacketType AddressType Seconds).
Abbreviation attempt_by :=
  (@attempt_of Connection Channel PacketType AddressType Seconds).

(** ** The error counter of an entry *)

Lemma notify_error_count (e : entry) (limit : Z) :
  _error_count (snd (notify_error e limit)) = _error_count e + 1.
Proof.
  unfold notify_error; cbn.
  destruct (_error_count e + 1 >? limit); [reflexivity|].
  destruct (_error_count e + 1 =? limit); reflexivity.
Qed.

Lemma notify_error_action (e : entry) (limit : Z) :
  fst (notify_error e limit) = action_at_count limit (_error_count e + 1).
Proof.
  unfold notify_error, action_at_count; cbn.
  destruct (Z.gtb_spec (_error_count e + 1) limit) as [Hgt|Hle];
    destruct (Z.ltb_spec (_error_count e + 1) limit) as [Hlt|Hge];
    destruct (Z.eqb_spec (_error_count e + 1) limit) as [Heq|Hne];
    try reflexivity; lia.
Qed.

Lemma notify_errors_from (n : nat) (limit : Z) (e : entry) :
  fst (notify_errors n limit e)
    = map (fun k => action_at_count limit (_error_count e + Z.of_nat k))
          (seq 1 n)
  /\ _error_count (snd (notify_errors n limit e))
     = _error_count e + Z.of_nat n.
Proof.
  revert e; induction n as [|n IH]; intros e.
  - cbn; split; [reflexivity | lia].
  - cbn [notify_errors].
    pose proof (notify_error_count e limit) as Hc.
    pose proof (notify_error_action e limit) as Ha.
    destruct (notify_error e limit) as [a e1]; cbn in Hc, Ha.
    destruct (IH e1) as [IH1 IH2].
    destruct (notify_errors n limit e1) as [acts e2]; cbn in *.
    split.
    + cbn [seq map]. f_equal.
      * rewrite Ha. f_equal.
      * rewrite IH1, <- (seq_shift n 1), map_map.
        apply map_ext; intros k. f_equal. lia.
    + lia.
Qed.

Lemma count_suspend (limit : Z) (n : nat) :
  0 < limit ->
  count_occ ErrorAction_eq_dec
    (map (fun k => action_at_count limit (Z.of_nat k)) (seq 1 n))
    LOG_AND_SUSPEND
  = (if limit <=? Z.of_nat n then 1%nat else 0%nat).
Proof.
  intros Hpos; induction n as [|n IH].
  - cbn. destruct (Z.leb_spec limit (Z.of_nat 0)); [lia | reflexivity].
  - rewrite seq_S, map_app, count_occ_app, IH; cbn [map count_occ].
    unfold action_at_count.
    destruct (Z.leb_spec limit (Z.of_nat n));
      destruct (Z.leb_spec limit (Z.of_nat (S n)));
      destruct (Z.ltb_spec (Z.of_nat (1 + n)) limit);
      destruct (Z.eqb_spec (Z.of_nat (1 + n)) limit);
      try lia;
      match goal with
      | |- context [ErrorAction_eq_dec ?a ?b] =>
          destruct (ErrorAction_eq_dec a b); try congruence; try lia
      end.
Qed.

(** C2. Starting from an error count of 0 and with a positive limit [L],
    the [k]-th call of [notify_error] brings the count to [k] and returns
    [LOG] while [k < L], [LOG_AND_SUSPEND] when [k = L] (so exactly once in
    a run that reaches [L]) and [SKIP_LOGGING] when [k > L];
    [reset_error_count] then returns true iff the count was non-zero and
    sets it to 0, and the next [notify_error] brings it to 1. *)
Theorem notify_error_sequence (e : entry) (limit : Z) (n : nat) :
  0 < limit ->
  _error_count e = 0 ->
  let acts := fst (notify_errors n limit e) in
  let e' := snd (notify_errors n limit e) in
  length acts = n
  /\ _error_count e' = Z.of_nat n
  /\ (forall (k : nat) (a : ErrorAction),
        acts !! k = Some a ->
        (Z.of_nat (S k) < limit -> a = LOG)
        /\ (Z.of_nat (S k) = limit -> a = LOG_AND_SUSPEND)
        /\ (Z.of_nat (S k) > limit -> a = SKIP_LOGGING))
  /\ count_occ ErrorAction_eq_dec acts LOG_AND_SUSPEND
     = (if limit <=? Z.of_nat n then 1%nat else 0%nat)
  /\ (fst (reset_error_count e') = true <-> _error_count e' <> 0)
  /\ _error_count (snd (reset_error_count e')) = 0
  /\ _error_count (snd (notify_error (snd (reset_error_count e')) limit))
     = 1
  /\ fst (notify_error (snd (reset_error_count e')) limit)
     = action_at_count limit 1.
Proof.
  intros Hpos H0 acts e'.
  destruct (notify_errors_from n limit e) as [Hacts Hcount].
  fold acts in Hacts; fold e' in Hcount.
  rewrite H0 in Hacts, Hcount; cbn in Hcount.
  assert (Hacts' : acts
                   = map (fun k => action_at_count limit (Z.of_nat k))
                         (seq 1 n)).
  { rewrite Hacts. apply map_ext; intros k. f_equal. }
  assert (Hreset : _error_count (snd (reset_error_count e')) = 0).
  { unfold reset_error_count.
    destruct (Z.gtb_spec (_error_count e') 0); cbn; [reflexivity | lia]. }
  assert (Hat : forall (k : nat) (a : ErrorAction),
             acts !! k = Some a ->
             a = action_at_count limit (Z.of_nat (S k))).
  { intros k a Hk. rewrite Hacts', list_lookup_fmap in Hk.
    destruct (seq 1 n !! k) as [j|] eqn:Hj; [|discriminate].
    apply lookup_seq in Hj as [-> _]. cbn in Hk. congruence. }
  split; [|split; [|split; [|split; [|split; [|split; [|split]]]]]].
  - rewrite Hacts', length_map, length_seq. reflexivity.
  - exact Hcount.
  - intros k a Hk. rewrite (Hat k a Hk). unfold action_at_count.
    destruct (Z.ltb_spec (Z.of_nat (S k)) limit);
      destruct (Z.eqb_spec (Z.of_nat (S k)) limit);
      repeat split; intros; try reflexivity; lia.
  - rewrite Hacts'. apply count_suspend, Hpos.
  - unfold reset_error_count.
    destruct (Z.gtb_spec (_error_count e') 0); cbn;
      split; intros; try lia; try discriminate; reflexivity.
  - exact Hreset.
  - rewrite notify_error_count, Hreset. reflexivity.
  - rewrite notify_error_action, Hreset. reflexivity.
Qed.

(** ** The channel of an entry *)

(** C7. [set_channel] with a channel other than the current one installs
    it, sets [can_broadcast] to whether the new channel is a broadcast
    channel and clears the error count; with the current channel it changes
    nothing. *)
Theorem set_channel_spec (self : entry) (ch : option Channel) :
  (channel self <> ch ->
     channel (set_channel is_BroadcastMessageChannel self ch) = ch
     /\ (can_broadcast (set_channel is_BroadcastMessageChannel self ch)
           = true
         <-> exists c, ch = Some c /\ is_BroadcastMessageChannel c = true)
     /\ _error_count (set_channel is_BroadcastMessageChannel self ch) = 0)
  /\ (channel self = ch ->
        set_channel is_BroadcastMessageChannel self ch = self).
Proof.
  unfold set_channel; split; intros Hch.
  - destruct (decide (channel self = ch)) as [Heq|_]; [contradiction|].
    cbn. split; [reflexivity|]. split; [|reflexivity].
    destruct ch as [c|]; cbn.
    + split; [intros Hb; exists c; auto|].
      intros (c' & Hc' & Hb). congruence.
    + split; [discriminate|]. intros (c' & Hc' & _). discriminate.
  - destruct (decide (channel self = ch)) as [_|Hne];
      [reflexivity | contradiction].
Qed.

Lemma set_channel_invariant (self : entry) (ch : option Channel) :
  broadcast_implies_channel self ->
  broadcast_implies_channel (set_channel is_BroadcastMessageChannel self ch).
Proof.
  unfold broadcast_implies_channel, set_channel; intros Hinv.
  destruct (decide (channel self = ch)); [exact Hinv|].
  cbn. destruct ch; cbn; [discriminate | discriminate].
Qed.

Lemma apply_op_invariant (op : EntryOp Channel) (self : entry) :
  broadcast_implies_channel self ->
  broadcast_implies_channel (apply_op is_BroadcastMessageChannel op self).
Proof.
  intros Hinv; destruct op as [ch| |limit|]; cbn.
  - apply set_channel_invariant, Hinv.
  - apply set_channel_invariant, Hinv.
  - unfold broadcast_implies_channel, notify_error in *; cbn.
    destruct (_ >? _); [exact Hinv|]. destruct (_ =? _); exact Hinv.
  - unfold broadcast_implies_channel, reset_error_count in *.
    destruct (_ >? _); exact Hinv.
Qed.

Lemma reachable_entry_invariant (conn : Connection) (nm : string)
    (cs : bool) (ops : list (EntryOp Channel)) :
  broadcast_implies_channel
    (fold_left (fun e op => apply_op is_BroadcastMessageChannel op e)
               ops (new_entry conn nm cs)).
Proof.
  assert (Hgen : forall e : entry,
             broadcast_implies_channel e ->
             broadcast_implies_channel
               (fold_left
                  (fun e op => apply_op is_BroadcastMessageChannel op e)
                  ops e)).
  { induction ops as [|op ops IH]; intros e He; cbn; [exact He|].
    apply IH, apply_op_invariant, He. }
  apply Hgen. unfold broadcast_implies_channel; cbn. discriminate.
Qed.

(** ** Broadcasting to every channel *)

Lemma broadcast_on_entry_skips (message : PacketType) (e : entry)
    (s : state) :
  can_broadcast e = false ->
  on_entry_broadcast message e s = (Returns tt, s).
Proof. intros Hb. unfold broadcast_on_entry. rewrite Hb. reflexivity. Qed.

Lemma broadcast_on_entry_calls (message : PacketType) (e : entry)
    (s : state) (ch : Channel) :
  can_broadcast e = true ->
  channel e = Some ch ->
  on_entry_broadcast message e s
  = (Returns tt,
     {| mgr := mgr s;
        world := snd (channel_broadcast ch message (world s));
        trace := trace s ++ [ChannelBroadcast ch message] |}).
Proof.
  intros Hb Hch. unfold broadcast_on_entry, try_except, call_broadcast.
  rewrite Hb, Hch. cbn.
  destruct (channel_broadcast ch message (world s)) as [[ex|] w];
    reflexivity.
Qed.

(** C10. An entry made by the manager and then changed only through the
    operations of the entry ([set_channel], [detach_channel] and the
    error counter) has a channel whenever its [can_broadcast] flag is
    set; for such an entry the loop that broadcasts to every channel
    reaches the broadcast primitive of that channel, whatever the call
    then does. *)
Theorem can_broadcast_has_channel (conn : Connection) (nm : string)
    (cs : bool) (ops : list (EntryOp Channel)) :
  let e := fold_left (fun e op => apply_op is_BroadcastMessageChannel op e)
                     ops (new_entry conn nm cs) in
  broadcast_implies_channel e
  /\ (can_broadcast e = true ->
      exists ch : Channel,
        channel e = Some ch
        /\ forall (message : PacketType) (s : state),
             on_entry_broadcast message e s
             = (Returns tt,
                {| mgr := mgr s;
                   world := snd (channel_broadcast ch message (world s));
                   trace := trace s ++ [ChannelBroadcast ch message] |})).
Proof.
  intros e.
  pose proof (reachable_entry_invariant conn nm cs ops) as Hinv.
  fold e in Hinv. split; [exact Hinv|].
  intros Hb. destruct (channel e) as [ch|] eqn:Hch.
  - exists ch. split; [reflexivity|]. intros message s.
    apply broadcast_on_entry_calls; assumption.
  - exfalso. exact (Hinv Hb Hch).
Qed.

Lemma broadcast_on_entry_trace (message : PacketType) (e : entry)
    (s : state) :
  exists w : World,
    on_entry_broadcast message e s
    = (Returns tt,
       {| mgr := mgr s; world := w;
          trace := trace s ++ from_option (fun ev => [ev]) []
                                (broadcast_by message e) |}).
Proof.
  unfold broadcast_of.
  destruct (can_broadcast e) eqn:Hb.
  - destruct (channel e) as [ch|] eqn:Hch.
    + eexists. apply broadcast_on_entry_calls; assumption.
    + exists (world s).
      unfold broadcast_on_entry, try_except, call_broadcast.
      rewrite Hb, Hch. cbn. rewrite app_nil_r. destruct s; reflexivity.
  - exists (world s). rewrite broadcast_on_entry_skips by assumption.
    cbn. rewrite app_nil_r. destruct s; reflexivity.
Qed.

Lemma broadcast_entries_trace (message : PacketType) (entries : list entry)
    (s : state) :
  exists w : World,
    for_each entries (on_entry_broadcast message) s
    = (Returns tt,
       {| mgr := mgr s; world := w;
          trace := trace s ++ omap (broadcast_by message) entries |}).
Proof.
  revert s; induction entries as [|e entries IH]; intros s.
  - exists (world s). cbn. rewrite app_nil_r. destruct s; reflexivity.
  - destruct (broadcast_on_entry_trace message e s) as [w1 H1].
    cbn [for_each]. unfold bind at 1. rewrite H1.
    destruct (IH {| mgr := mgr s; world := w1;
                    trace := trace s ++ from_option (fun ev => [ev]) []
                                          (broadcast_by message e) |})
      as [w2 H2].
    exists w2. rewrite H2. cbn [mgr trace]. f_equal. f_equal.
    rewrite <- app_assoc. f_equal.
    cbn [omap list_omap]. destruct (broadcast_by message e); reflexivity.
Qed.

Lemma broadcast_lists_trace (message : PacketType)
    (lists : list (list entry)) (s : state) :
  exists w : World,
    for_each lists
      (fun entries => for_each entries (on_entry_broadcast message)) s
    = (Returns tt,
       {| mgr := mgr s; world := w;
          trace := trace s ++ omap (broadcast_by message) (concat lists) |}).
Proof.
  revert s; induction lists as [|l lists IH]; intros s.
  - exists (world s). cbn. rewrite app_nil_r. destruct s; reflexivity.
  - destruct (broadcast_entries_trace message l s) as [w1 H1].
    cbn [for_each]. unfold bind at 1. rewrite H1.
    destruct (IH {| mgr := mgr s; world := w1;
                    trace := trace s ++ omap (broadcast_by message) l |})
      as [w2 H2].
    exists w2. rewrite H2. cbn [mgr trace concat]. f_equal. f_equal.
    rewrite <- app_assoc. f_equal.
    rewrite omap_app. reflexivity.
Qed.

Lemma broadcast_on_entry_world (message : PacketType) (e : entry)
    (s : state) :
  on_entry_broadcast message e s
  = (Returns tt,
     {| mgr := mgr s;
        world := fold_left (fun w ch => snd (channel_broadcast ch message w))
                   (omap broadcast_channel [e]) (world s);
        trace := trace s
                 ++ map (fun ch => ChannelBroadcast ch message)
                      (omap broadcast_channel [e]) |}).
Proof.
  cbn [omap list_omap]. unfold broadcast_channel.
  destruct (can_broadcast e) eqn:Hb.
  - destruct (channel e) as [ch|] eqn:Hch.
    + apply broadcast_on_entry_calls; assumption.
    + unfold broadcast_on_entry, try_except, call_broadcast.
      rewrite Hb, Hch. cbn. rewrite app_nil_r. destruct s; reflexivity.
  - rewrite broadcast_on_entry_skips by assumption.
    cbn. rewrite app_nil_r. destruct s; reflexivity.
Qed.

Lemma broadcast_entries_world (message : PacketType) (entries : list entry)
    (s : state) :
  for_each entries (on_entry_broadcast message) s
  = (Returns tt,
     {| mgr := mgr s;
        world := fold_left (fun w ch => snd (channel_broadcast ch message w))
                   (omap broadcast_channel entries) (world s);
        trace := trace s
                 ++ map (fun ch => ChannelBroadcast ch message)
                      (omap broadcast_channel entries) |}).
Proof.
  revert s; induction entries as [|e entries IH]; intros s.
  - cbn. rewrite app_nil_r. destruct s; reflexivity.
  - cbn [for_each]. unfold bind at 1.
    rewrite broadcast_on_entry_world, IH. cbn [mgr world trace].
    change (e :: entries) with ([e] ++ entries).
    rewrite omap_app, fold_left_app, map_app, app_assoc. reflexivity.
Qed.

Lemma broadcast_lists_world (message : PacketType)
    (lists : list (list entry)) (s : state) :
  for_each lists
    (fun entries => for_each entries (on_entry_broadcast message)) s
  = (Returns tt,
     {| mgr := mgr s;
        world := fold_left (fun w ch => snd (channel_broadcast ch message w))
                   (omap broadcast_channel (concat lists)) (world s);
        trace := trace s
                 ++ map (fun ch => ChannelBroadcast ch message)
                      (omap broadcast_channel (concat lists)) |}).
Proof.
  revert s; induction lists as [|l lists IH]; intros s.
  - cbn. rewrite app_nil_r. destruct s; reflexivity.
  - cbn [for_each]. unfold bind at 1.
    rewrite broadcast_entries_world, IH. cbn [mgr world trace concat].
    rewrite omap_app, fold_left_app, map_app, app_assoc. reflexivity.
Qed.

Lemma broadcast_channels_of_broadcasters (entries : list entry) :
  Forall broadcast_implies_channel entries ->
  Forall2 (fun e ch => channel e = Some ch)
          (List.filter can_broadcast entries)
          (omap broadcast_channel entries).
Proof.
  induction 1 as [|e entries He _ IH]; [constructor|].
  cbn [omap list_omap List.filter]. unfold broadcast_channel at 1.
  destruct (can_broadcast e) eqn:Hb; [|exact IH].
  destruct (channel e) as [ch|] eqn:Hch; [|exfalso; exact (He Hb Hch)].
  constructor; assumption.
Qed.

(** C8. Dispatching to the broadcast marker calls the broadcast primitive
    with the packet once on the channel of every entry, of whatever name,
    whose [can_broadcast] flag is set, in the order of the registry, and
    makes no call for the other entries: the world is the one that these
    calls leave, one after the other, and the trace has them and nothing
    else.  An exception of a call is swallowed: the turn of the loop
    returns with the world as the call left it, so that the calls on the
    further entries follow; the dispatch itself returns and leaves the
    manager as it was. *)
Theorem broadcast_reaches_broadcasters (message : PacketType) (s : state) :
  Forall broadcast_implies_channel (_iter_entries (mgr s)) ->
  (exists chans : list Channel,
      Forall2 (fun e ch => channel e = Some ch)
              (List.filter can_broadcast (_iter_entries (mgr s))) chans
      /\ to_all_channels message s
         = (Returns tt,
            {| mgr := mgr s;
               world :=
                 fold_left
                   (fun w ch => snd (channel_broadcast ch message w))
                   chans (world s);
               trace :=
                 trace s
                 ++ map (fun ch => ChannelBroadcast ch message) chans |}))
  /\ (forall (e : entry) (ch : Channel) (ex : Exception) (w' : World)
             (s0 : state),
        can_broadcast e = true ->
        channel e = Some ch ->
        channel_broadcast ch message (world s0) = (Some ex, w') ->
        on_entry_broadcast message e s0
        = (Returns tt,
           {| mgr := mgr s0; world := w';
              trace := trace s0 ++ [ChannelBroadcast ch message] |})).
Proof.
  intros Hinv. split.
  - exists (omap broadcast_channel (_iter_entries (mgr s))).
    split; [apply broadcast_channels_of_broadcasters; exact Hinv|].
    unfold _send_message_to_all_channels, bind, get_mgr.
    apply broadcast_lists_world.
  - intros e ch ex w' s0 Hb Hch Hcall.
    rewrite (broadcast_on_entry_calls message e s0 ch Hb Hch), Hcall.
    reflexivity.
Qed.

(** ** Sending to the entries of a name *)

Lemma transmissions_app (t1 t2 : list event) :
  transmissions (t1 ++ t2) = transmissions t1 ++ transmissions t2.
Proof. unfold transmissions. apply List.filter_app. Qed.

Lemma logs_only_ret {A : Type} (a : A) :
  logs_only (World := World) (Connection := Connection) (ret a : action A) a.
Proof.
  intros s. exists []. split; [|reflexivity].
  unfold ret. rewrite app_nil_r. destruct s; reflexivity.
Qed.

Lemma logs_only_emit (r : LogRecord) :
  logs_only (emit (Logged r) : action unit) tt.
Proof. intros s. exists [Logged r]. split; reflexivity. Qed.

Lemma logs_only_bind {A B : Type} (m : action A) (k : A -> action B)
    (a : A) (b : B) :
  logs_only m a -> logs_only (k a) b -> logs_only (bind m k) b.
Proof.
  intros Hm Hk s. destruct (Hm s) as (l1 & H1 & T1).
  destruct (Hk {| mgr := mgr s; world := world s;
                  trace := trace s ++ l1 |}) as (l2 & H2 & T2).
  exists (l1 ++ l2). split.
  - unfold bind. rewrite H1, H2. cbn [mgr world trace].
    rewrite app_assoc. reflexivity.
  - rewrite transmissions_app, T1, T2. reflexivity.
Qed.

Lemma log_os_error_logs_only (errno : option Z) (fa fid : string) :
  logs_only
    (_log_os_error_during_tx errorcode EADDRNOTAVAIL EHOSTDOWN EHOSTUNREACH
       ENETDOWN ENETUNREACH errno fa fid : action unit) tt.
Proof.
  unfold _log_os_error_during_tx.
  destruct (errno_in errno _); [apply logs_only_emit|].
  destruct (errno_in errno _); apply logs_only_emit.
Qed.

(** The error handler returns the entry with its count advanced, and only
    writes to the log. *)
Lemma handle_tx_error_run (ex : Exception) (address : Address AddressType)
    (e : entry) (index : nat) (s : state) :
  exists logs : list event,
    handle_tx_error ex address e index s
    = (Returns (snd (notify_error e (error_limit (mgr s)))),
       {| mgr := mgr s; world := world s; trace := trace s ++ logs |})
    /\ transmissions logs = [].
Proof.
  unfold _handle_tx_error. unfold bind at 1. unfold get_mgr.
  destruct (notify_error e (error_limit (mgr s))) as [act e'] eqn:Hn.
  cbn [snd].
  destruct (decide (act = SKIP_LOGGING)); [apply logs_only_ret|].
  clear Hn. revert s.
  refine (logs_only_bind _ _ tt e' _ _).
  { destruct ex; try apply logs_only_emit. apply log_os_error_logs_only. }
  refine (logs_only_bind _ _ tt e' _ _).
  { destruct (decide (act = LOG_AND_SUSPEND));
      [apply logs_only_emit | apply logs_only_ret]. }
  refine (logs_only_bind _ _ tt e' _ (logs_only_ret e')).
  destruct (negb (isinstance_OSError ex));
    [apply logs_only_emit | apply logs_only_ret].
Qed.

Lemma same_link_refl (e : entry) : same_link e e.
Proof. repeat split. Qed.

Lemma same_link_trans (e1 e2 e3 : entry) :
  same_link e1 e2 -> same_link e2 e3 -> same_link e1 e3.
Proof.
  unfold same_link. intros (?&?&?&?&?) (?&?&?&?&?).
  repeat split; congruence.
Qed.

Lemma notify_same_link (e : entry) (limit : Z) :
  same_link e (snd (notify_error e limit)).
Proof.
  unfold notify_error; cbn.
  destruct (_ >? _); [repeat split|]. destruct (_ =? _); repeat split.
Qed.

Lemma reset_same_link (e : entry) :
  same_link e (snd (reset_error_count e)).
Proof. unfold reset_error_count. destruct (_ >? _); repeat split. Qed.

(** What follows a successful call, or no call at all, in the body of the
    loop. *)
Lemma after_attempt_run (nm : string) (index : nat) (e : entry)
    (sent' : bool) :
  exists e' : entry,
    same_link e e'
    /\ logs_only (World := World)
         (if sent' then
            let '(was_failing, e1) := reset_error_count e in
            bind (if was_failing then
                    log_info "Channel resumed normal operation"
                      (format_id nm index)
                  else ret tt)
                 (fun _ => ret (e1, sent'))
          else ret (e, sent') : action (entry * bool))
         (e', sent').
Proof.
  destruct sent'.
  - pose proof (reset_same_link e) as Hl.
    destruct (reset_error_count e) as [was e1]. cbn in Hl.
    exists e1. split; [exact Hl|].
    refine (logs_only_bind _ _ tt (e1, true) _ _);
      [|apply logs_only_ret].
    destruct was; [apply logs_only_emit | apply logs_only_ret].
  - exists e. split; [apply same_link_refl | apply logs_only_ret].
Qed.

(** The handler of the loop: the error goes to [_handle_tx_error], which
    returns, so that the handler of the handler stays idle. *)
Lemma on_error_run (nm : string) (ex : Exception)
    (address : Address AddressType) (e : entry) (index : nat)
    (sent : bool) (s : state) :
  exists logs : list event,
    try_except
      (bind (handle_tx_error ex address e index)
            (fun e' => ret (e', sent)))
      (fun _ =>
         bind get_mgr
           (fun self =>
              bind (log_exception
                      "Error while handling error during message transmission"
                      (format_id nm index))
                   (fun _ =>
                      ret (snd (notify_error e (error_limit self)), sent))))
      s
    = (Returns (snd (notify_error e (error_limit (mgr s))), sent),
       {| mgr := mgr s; world := world s; trace := trace s ++ logs |})
    /\ transmissions logs = [].
Proof.
  destruct (handle_tx_error_run ex address e index s) as (logs & Hrun & Ht).
  exists logs. split; [|exact Ht].
  unfold try_except, bind at 1. rewrite Hrun. reflexivity.
Qed.

Lemma bind_returns {A B : Type} (m : action A) (k : A -> action B)
    (s s' : state) (a : A) :
  m s = (Returns a, s') -> bind m k s = k a s'.
Proof. intros Hm. unfold bind. rewrite Hm. reflexivity. Qed.

Lemma bind_raises {A B : Type} (m : action A) (k : A -> action B)
    (s s' : state) (ex : Exception) :
  m s = (Raises ex, s') -> bind m k s = (Raises ex, s').
Proof. intros Hm. unfold bind. rewrite Hm. reflexivity. Qed.

Lemma try_returns {A : Type} (m : action A) (h : Exception -> action A)
    (s s' : state) (a : A) :
  m s = (Returns a, s') -> try_except m h s = (Returns a, s').
Proof. intros Hm. unfold try_except. rewrite Hm. reflexivity. Qed.

Lemma try_raises {A : Type} (m : action A) (h : Exception -> action A)
    (s s' : state) (ex : Exception) :
  m s = (Raises ex, s') -> try_except m h s = h ex s'.
Proof. intros Hm. unfold try_except. rewrite Hm. reflexivity. Qed.

Lemma attempt_of_closed (address : Address AddressType)
    (message : PacketType) (e : entry) :
  is_open e && can_send e = false -> attempt_by address message e = None.
Proof.
  unfold is_open, attempt_of. destruct (channel e); [|reflexivity].
  cbn. intros ->. reflexivity.
Qed.

(** One turn of the loop: it returns, makes the call of [attempt_of] and no
    other, and touches nothing in the entry but its error count. *)
Lemma send_on_entry_run (nm : string) (address : Address AddressType)
    (message : PacketType) (index : nat) (e : entry) (sent : bool)
    (s : state) :
  exists (e' : entry) (sent' : bool) (w : World) (evs : list event),
    on_entry nm address message index e sent s
    = (Returns (e', sent'),
       {| mgr := mgr s; world := w; trace := trace s ++ evs |})
    /\ transmissions evs
       = from_option (fun ev => [ev]) [] (attempt_by address message e)
    /\ same_link e e'.
Proof.
  unfold send_on_entry.
  destruct (is_open e && can_send e) eqn:Hel.
  2:{ exists e, sent, (world s), []. rewrite attempt_of_closed by exact Hel.
      split; [|split; [reflexivity | apply same_link_refl]].
      unfold ret. rewrite app_nil_r. destruct s; reflexivity. }
  apply andb_true_iff in Hel as [Hopen Hcs]. unfold is_open in Hopen.
  destruct (channel e) as [ch|] eqn:Hch; [clear Hopen | discriminate].
  unfold attempt_of. rewrite Hch, Hcs.
  destruct address as [|a]; cbn [is_BROADCAST].
  - destruct (can_broadcast e) eqn:Hcb.
    + destruct (channel_broadcast ch message (world s)) as [[ex|] w1]
        eqn:Hcall.
      * (* the broadcast raises *)
        set (s1 := {| mgr := mgr s; world := w1;
                      trace := trace s ++ [ChannelBroadcast ch message] |}).
        destruct (on_error_run nm ex BROADCAST e index sent s1)
          as (logs & Hrun & Ht).
        exists (snd (notify_error e (error_limit (mgr s)))), sent, w1,
          ([ChannelBroadcast ch message] ++ logs).
        split; [|split; [|apply notify_same_link]].
        -- erewrite try_raises.
           ++ rewrite Hrun. subst s1. cbn [mgr world trace].
              rewrite <- app_assoc. reflexivity.
           ++ apply bind_raises. apply bind_raises.
              unfold call_broadcast. rewrite Hcall. reflexivity.
        -- rewrite transmissions_app, Ht. reflexivity.
      * (* the broadcast returns *)
        set (s1 := {| mgr := mgr s; world := w1;
                      trace := trace s ++ [ChannelBroadcast ch message] |}).
        set (pause := if is_positive (broadcast_delay (mgr s))
                      then [Sleep (broadcast_delay (mgr s)) : event]
                      else []).
        set (s2 := {| mgr := mgr s; world := w1;
                      trace := trace s1 ++ pause |}).
        destruct (after_attempt_run nm index e true) as (e' & Hl & Hrun).
        destruct (Hrun s2) as (logs & Hrun2 & Ht).
        exists e', true, w1,
          ([ChannelBroadcast ch message] ++ pause ++ logs).
        split; [|split; [|exact Hl]].
        -- erewrite try_returns; [reflexivity|].
           rewrite (bind_returns _ _ s s2 true).
           ++ cbn beta iota. rewrite Hrun2. subst s2 s1.
              cbn [mgr world trace].
              rewrite <- !app_assoc. reflexivity.
           ++ erewrite bind_returns.
              2:{ unfold call_broadcast. rewrite Hcall. reflexivity. }
              unfold bind, get_mgr. subst s2 pause s1.
              cbn [mgr world trace].
              destruct (is_positive (broadcast_delay (mgr s)));
                cbn; [reflexivity|].
              rewrite app_nil_r. reflexivity.
        -- rewrite !transmissions_app, Ht. subst pause.
           destruct (is_positive _); reflexivity.
    + (* the entry cannot broadcast: no call *)
      destruct (after_attempt_run nm index e sent) as (e' & Hl & Hrun).
      destruct (Hrun s) as (logs & Hrun2 & Ht).
      exists e', sent, (world s), logs.
      split; [|split; [exact Ht | exact Hl]].
      erewrite try_returns; [reflexivity|].
      rewrite (bind_returns _ _ s s sent); [exact Hrun2 | reflexivity].
  - destruct (channel_send ch message (Unicast a) (world s)) as [[ex|] w1]
      eqn:Hcall.
    + set (s1 := {| mgr := mgr s; world := w1;
                    trace := trace s
                             ++ [ChannelSend ch message (Unicast a)] |}).
      destruct (on_error_run nm ex (Unicast a) e index sent s1)
        as (logs & Hrun & Ht).
      exists (snd (notify_error e (error_limit (mgr s)))), sent, w1,
        ([ChannelSend ch message (Unicast a)] ++ logs).
      split; [|split; [|apply notify_same_link]].
      * erewrite try_raises.
        -- rewrite Hrun. subst s1. cbn [mgr world trace].
           rewrite <- app_assoc. reflexivity.
        -- apply bind_raises. apply bind_raises.
           unfold call_send. rewrite Hcall. reflexivity.
      * rewrite transmissions_app, Ht. reflexivity.
    + set (s1 := {| mgr := mgr s; world := w1;
                    trace := trace s
                             ++ [ChannelSend ch message (Unicast a)] |}).
      destruct (after_attempt_run nm index e true) as (e' & Hl & Hrun).
      destruct (Hrun s1) as (logs & Hrun2 & Ht).
      exists e', true, w1, ([ChannelSend ch message (Unicast a)] ++ logs).
      split; [|split; [|exact Hl]].
      * erewrite try_returns; [reflexivity|].
        rewrite (bind_returns _ _ s s1 true).
        -- cbn beta iota. rewrite Hrun2. subst s1. cbn [mgr world trace].
           rewrite <- app_assoc. reflexivity.
        -- erewrite bind_returns.
           2:{ unfold call_send. rewrite Hcall. reflexivity. }
           reflexivity.
      * rewrite transmissions_app, Ht. reflexivity.
Qed.

(** When the call on an entry raises, the error goes to
    [_handle_tx_error], which advances the error count of the entry, and
    the turn of the loop returns with [sent] as it was. *)
Lemma send_on_entry_raises (nm : string) (address : Address AddressType)
    (message : PacketType) (index : nat) (e : entry) (sent : bool)
    (s : state) (ev : event) (ex : Exception) (w1 : World) :
  attempt_outcome channel_send channel_broadcast address message e (world s)
  = Some (ev, Some ex, w1) ->
  exists s2 : state,
    handle_tx_error ex address e index
      {| mgr := mgr s; world := w1; trace := trace s ++ [ev] |}
    = (Returns (snd (notify_error e (error_limit (mgr s)))), s2)
    /\ on_entry nm address message index e sent s
       = (Returns (snd (notify_error e (error_limit (mgr s))), sent), s2).
Proof.
  unfold attempt_outcome, send_on_entry, is_open.
  destruct (channel e) as [ch|] eqn:Hch; [|discriminate].
  destruct (can_send e); [|discriminate]. cbn [andb].
  set (s1 := {| mgr := mgr s; world := w1; trace := trace s ++ [ev] |}).
  destruct (handle_tx_error_run ex address e index s1) as (logs & Hrun & _).
  destruct address as [|a]; cbn [is_BROADCAST].
  - destruct (can_broadcast e); [|discriminate].
    destruct (channel_broadcast ch message (world s)) as [r w'] eqn:Hcall.
    intros [= <- -> ->]. eexists. split; [exact Hrun|].
    erewrite try_raises.
    + unfold try_except, bind at 1. fold s1. rewrite Hrun. reflexivity.
    + apply bind_raises. apply bind_raises.
      unfold call_broadcast. rewrite Hcall. reflexivity.
  - destruct (channel_send ch message (Unicast a) (world s)) as [r w']
      eqn:Hcall.
    intros [= <- -> ->]. eexists. split; [exact Hrun|].
    erewrite try_raises.
    + unfold try_except, bind at 1. fold s1. rewrite Hrun. reflexivity.
    + apply bind_raises. apply bind_raises.
      unfold call_send. rewrite Hcall. reflexivity.
Qed.

(** The loop visits the entries in order and makes, for each, the call of
    [attempt_of]; it returns whatever the calls raise. *)
Lemma send_loop_run (nm : string) (address : Address AddressType)
    (message : PacketType) (entries : list entry) :
  forall (index : nat) (sent : bool) (s : state),
  exists (es' : list entry) (sent' : bool) (w : World) (evs : list event),
    loop nm address message index entries sent s
    = (Returns (es', sent'),
       {| mgr := mgr s; world := w; trace := trace s ++ evs |})
    /\ transmissions evs = omap (attempt_by address message) entries
    /\ Forall2 same_link entries es'.
Proof.
  induction entries as [|e entries IH]; intros index sent s.
  - exists [], sent, (world s), []. split; [|split; [reflexivity|constructor]].
    cbn. unfold ret. rewrite app_nil_r. destruct s; reflexivity.
  - destruct (send_on_entry_run nm address message index e sent s)
      as (e' & sent1 & w1 & evs1 & Hrun1 & Ht1 & Hl1).
    destruct (IH (S index) sent1
                 {| mgr := mgr s; world := w1; trace := trace s ++ evs1 |})
      as (es' & sent2 & w2 & evs2 & Hrun2 & Ht2 & Hl2).
    exists (e' :: es'), sent2, w2, (evs1 ++ evs2).
    split; [|split].
    + cbn [send_loop].
      rewrite (bind_returns _ _ _ _ _ Hrun1). cbn [fst snd].
      rewrite (bind_returns _ _ _ _ _ Hrun2). cbn [fst snd mgr trace].
      unfold ret. rewrite app_assoc. reflexivity.
    + rewrite transmissions_app, Ht1, Ht2. cbn [omap list_omap].
      destruct (attempt_by address message e); reflexivity.
    + constructor; assumption.
Qed.

(** The bookkeeping at the end of a dispatch changes the error counter of
    the name, writes at most one warning and returns. *)
Lemma record_result_run (nm : string) (address : Address AddressType)
    (es : option (list entry)) (sent : bool) (s : state) :
  exists (logs : list event),
    record_result nm address es sent s
    = (Returns tt,
       {| mgr := with_error_counters (mgr s)
                   (<[nm := if sent then 0
                            else default 0 (_error_counters (mgr s) !! nm)
                                 + 1]>
                      (_error_counters (mgr s)));
          world := world s; trace := trace s ++ logs |})
    /\ transmissions logs = [].
Proof.
  unfold record_result, bind, get_mgr, put_mgr. destruct sent.
  - exists []. rewrite app_nil_r. split; reflexivity.
  - cbn [mgr world trace].
    destruct (negb (is_BROADCAST address)).
    2:{ exists []. unfold ret. rewrite app_nil_r. split; reflexivity. }
    destruct (_ <=? _).
    2:{ exists []. unfold ret. rewrite app_nil_r. split; reflexivity. }
    destruct (truthy es); eexists; split; reflexivity.
Qed.

Lemma odict_get_set_eq {V : Type} (k : string) (v : V) (d : odict V) :
  odict_get k (odict_set k v d) = Some v.
Proof.
  induction d as [|[k' v'] d IH]; cbn.
  - destruct (decide (k = k)); [reflexivity | contradiction].
  - destruct (decide (k = k')) as [->|Hne]; cbn.
    + destruct (decide (k' = k')); [reflexivity | contradiction].
    + destruct (decide (k = k')); [contradiction | exact IH].
Qed.

Lemma odict_get_set_ne {V : Type} (k k0 : string) (v : V) (d : odict V) :
  k0 <> k -> odict_get k0 (odict_set k v d) = odict_get k0 d.
Proof.
  intros Hne. induction d as [|[k' v'] d IH]; cbn.
  - destruct (decide (k0 = k)); [contradiction | reflexivity].
  - destruct (decide (k = k')) as [->|Hne']; cbn.
    + destruct (decide (k0 = k')); [contradiction | reflexivity].
    + destruct (decide (k0 = k')); [reflexivity | exact IH].
Qed.

Lemma lists_nonempty_get (d : odict (list entry)) (k : string)
    (l : list entry) :
  lists_nonempty d -> odict_get k d = Some l -> l <> [].
Proof.
  unfold lists_nonempty. induction 1 as [|[k' v'] d Hv _ IH]; cbn.
  - discriminate.
  - destruct (decide (k = k')); [|exact IH]. intros [= <-]. exact Hv.
Qed.

Lemma lists_nonempty_set (d : odict (list entry)) (k : string)
    (l : list entry) :
  lists_nonempty d -> l <> [] -> lists_nonempty (odict_set k l d).
Proof.
  unfold lists_nonempty. intros Hd Hl.
  induction Hd as [|[k' v'] d Hv Hd IH]; cbn.
  - constructor; [exact Hl | constructor].
  - destruct (decide (k = k')); constructor; assumption.
Qed.

(** [add] keeps every list of the registry non-empty. *)
Lemma add_lists_nonempty (self self' : manager) (conn : Connection)
    (nm : string) (cs : bool) :
  lists_nonempty (_entries_by_name self) ->
  add self conn nm cs = Returns self' ->
  lists_nonempty (_entries_by_name self').
Proof.
  unfold add. intros Hd. destruct (_running self); [discriminate|].
  intros [= <-]. cbn. apply lists_nonempty_set; [exact Hd|].
  destruct (default [] _); discriminate.
Qed.

(** The tail of a dispatch, with the entries already resolved: the calls of
    [attempt_of] for each entry in order, the updated entries back under
    the name, and the error counter of the name moved. *)
Lemma send_to_entries_run (nm : string) (address : Address AddressType)
    (message : PacketType) (es : option (list entry)) (s : state) :
  exists (s' : state) (es' : list entry),
    to_entries nm address message es s = (Returns tt, s')
    /\ transmissions (trace s')
       = transmissions (trace s)
         ++ omap (attempt_by address message) (default [] es)
    /\ Forall2 same_link (default [] es) es'
    /\ _entries_by_name (mgr s')
       = (if truthy es then odict_set nm es' (_entries_by_name (mgr s))
          else _entries_by_name (mgr s))
    /\ _aliases (mgr s') = _aliases (mgr s)
    /\ (truthy es = false ->
        _error_counters (mgr s') !! nm
        = Some (default 0 (_error_counters (mgr s) !! nm) + 1)).
Proof.
  assert (Hfalsy :
    truthy es = false ->
    omap (attempt_by address message) (default [] es) = [] ->
    exists (s' : state) (es' : list entry),
      record_result nm address es false s = (Returns tt, s')
      /\ transmissions (trace s')
         = transmissions (trace s)
           ++ omap (attempt_by address message) (default [] es)
      /\ Forall2 same_link (default [] es) es'
      /\ _entries_by_name (mgr s')
         = (if truthy es then odict_set nm es' (_entries_by_name (mgr s))
            else _entries_by_name (mgr s))
      /\ _aliases (mgr s') = _aliases (mgr s)
      /\ (truthy es = false ->
          _error_counters (mgr s') !! nm
          = Some (default 0 (_error_counters (mgr s) !! nm) + 1))).
  { intros Hf Hnil.
    destruct (record_result_run nm address es false s) as (logs & Hrun & Ht).
    eexists; exists (default [] es). split; [exact Hrun|].
    cbn [mgr trace with_error_counters _entries_by_name _aliases
         _error_counters].
    rewrite transmissions_app, Ht, Hnil, Hf.
    repeat split.
    - clear. induction (default [] es); constructor;
        [apply same_link_refl | assumption].
    - intros _. apply lookup_insert_eq. }
  destruct es as [[|e l]|]; cbn [send_to_entries].
  - apply Hfalsy; reflexivity.
  - destruct (send_loop_run nm address message (e :: l) 0%nat false s)
      as (es' & sent & w & evs & Hrun & Ht & Hl).
    set (s1 := {| mgr := with_entries (mgr s)
                           (odict_set nm es' (_entries_by_name (mgr s)));
                  world := w; trace := trace s ++ evs |}).
    destruct (record_result_run nm address (Some (e :: l)) sent s1)
      as (logs & Hrun2 & Ht2).
    eexists; exists es'. split.
    + rewrite (bind_returns _ _ _ _ _ Hrun). cbn [fst snd].
      unfold bind at 1, get_mgr. unfold bind at 1, put_mgr.
      cbn [mgr world trace]. fold s1. exact Hrun2.
    + cbn [mgr trace with_error_counters _entries_by_name _aliases
           _error_counters truthy default].
      subst s1. cbn [mgr trace with_entries _entries_by_name _aliases].
      rewrite !transmissions_app, Ht, Ht2, app_nil_r.
      repeat split; [exact Hl | discriminate].
  - apply Hfalsy; reflexivity.
Qed.

Lemma single_channel_direct (depth : nat) (nm : string)
    (address : Address AddressType) (message : PacketType) (s : state) :
  truthy (odict_get nm (_entries_by_name (mgr s))) = true ->
  to_single_channel (S depth) message (nm, address) s
  = to_entries nm address message
      (odict_get nm (_entries_by_name (mgr s))) s.
Proof.
  intros Ht. cbn [_send_message_to_single_channel].
  unfold bind at 1, get_mgr. rewrite Ht. reflexivity.
Qed.

Lemma truthy_nonempty (l : list entry) : l <> [] -> truthy (Some l) = true.
Proof. destruct l; [contradiction | reflexivity]. Qed.

(** C3 (as the code has it). A packet dispatched to a name that has
    entries goes through all of them in the order of registration.  When
    the address is not the broadcast marker, a send is attempted on every
    entry that is open and can send; when it is the marker, a broadcast is
    attempted on every entry that is open, can send and can broadcast, and
    no call is made on an entry that cannot broadcast.  The list of calls
    does not depend on what the earlier calls did: a success does not end
    the loop, and a call that raises hands the exception to
    [_handle_tx_error], which advances the error count of the entry, after
    which the loop goes on. *)
Theorem dispatch_attempts_every_entry (depth : nat) (nm : string)
    (address : Address AddressType) (message : PacketType) (s : state)
    (entries : list entry) :
  odict_get nm (_entries_by_name (mgr s)) = Some entries ->
  entries <> [] ->
  (exists (s' : state) (entries' : list entry),
      to_single_channel (S depth) message (nm, address) s
      = (Returns tt, s')
      /\ transmissions (trace s')
         = transmissions (trace s)
           ++ omap (attempt_by address message) entries
      /\ odict_get nm (_entries_by_name (mgr s')) = Some entries'
      /\ Forall2 same_link entries entries')
  /\ (forall (index : nat) (e : entry) (sent : bool) (s0 : state)
             (ev : event) (ex : Exception) (w1 : World),
        attempt_outcome channel_send channel_broadcast address message e
          (world s0) = Some (ev, Some ex, w1) ->
        exists s2 : state,
          handle_tx_error ex address e index
            {| mgr := mgr s0; world := w1; trace := trace s0 ++ [ev] |}
          = (Returns (snd (notify_error e (error_limit (mgr s0)))), s2)
          /\ on_entry nm address message index e sent s0
             = (Returns (snd (notify_error e (error_limit (mgr s0))),
                         sent), s2)).
Proof.
  intros Hget Hne. split.
  - rewrite single_channel_direct
      by (rewrite Hget; apply truthy_nonempty, Hne).
    destruct (send_to_entries_run nm address message
                (odict_get nm (_entries_by_name (mgr s))) s)
      as (s' & es' & Hrun & Ht & Hl & Hreg & _).
    rewrite Hget in Ht, Hl, Hreg. cbn [default] in Ht, Hl.
    rewrite (truthy_nonempty _ Hne) in Hreg.
    exists s', es'. split; [exact Hrun|]. split; [exact Ht|].
    split; [|exact Hl]. rewrite Hreg. apply odict_get_set_eq.
  - intros index e sent s0 ev ex w1 Hout.
    exact (send_on_entry_raises nm address message index e sent s0
             ev ex w1 Hout).
Qed.

(** ** Names without entries: aliases *)

(** A name without entries and without targets: the dispatch returns at
    once and leaves everything, the error counters included, as it was. *)
Lemma unknown_name_is_dropped (depth : nat) (nm : string)
    (address : Address AddressType) (message : PacketType) (s : state) :
  truthy (odict_get nm (_entries_by_name (mgr s))) = false ->
  _aliases (mgr s) !! nm = None ->
  to_single_channel (S depth) message (nm, address) s = (Returns tt, s).
Proof.
  intros Ht Ha. cbn [_send_message_to_single_channel].
  unfold bind at 1, get_mgr. rewrite Ht, Ha. reflexivity.
Qed.

Lemma single_channel_one_target (depth : nat) (nm target : string)
    (address : Address AddressType) (message : PacketType) (s : state) :
  truthy (odict_get nm (_entries_by_name (mgr s))) = false ->
  _aliases (mgr s) !! nm = Some [target] ->
  to_single_channel (S depth) message (nm, address) s
  = to_entries target address message
      (odict_get target (_entries_by_name (mgr s))) s.
Proof.
  intros Ht Ha. cbn [_send_message_to_single_channel].
  unfold bind at 1, get_mgr. rewrite Ht, Ha. reflexivity.
Qed.

Lemma single_channel_many_targets (depth : nat) (nm : string)
    (targets : list string) (address : Address AddressType)
    (message : PacketType) (s : state) :
  truthy (odict_get nm (_entries_by_name (mgr s))) = false ->
  _aliases (mgr s) !! nm = Some targets ->
  (2 <= length targets)%nat ->
  to_single_channel (S depth) message (nm, address) s
  = for_each targets
      (fun target =>
         bind get_mgr
           (fun self' =>
              if odict_contains target (_entries_by_name self') then
                to_single_channel depth message (target, address)
              else ret tt)) s.
Proof.
  intros Ht Ha Hlen. cbn [_send_message_to_single_channel].
  unfold bind at 1, get_mgr. rewrite Ht, Ha. cbn [negb].
  destruct targets as [|t1 [|t2 ts]]; cbn in Hlen; try lia.
  reflexivity.
Qed.

(** ** Submitting packets *)

(** C4 (as the code has it). While the outbound queue is not running,
    [send_packet] fails with [BrokenResourceError] ("Outbound message
    queue is closed") for every packet and destination, having no flag to
    tolerate the failure; [broadcast_packet] fails in the same way unless
    [allow_failure] is set, in which case it returns and changes
    nothing. *)
Theorem submission_when_queue_closed (self : manager)
    (packet : PacketType) :
  _outbound_tx_queue self = None ->
  (forall destination : string * AddressType,
      send_packet self packet destination
      = Failed (BrokenResourceError "Outbound message queue is closed"))
  /\ (forall destination : option string,
        broadcast_packet self packet destination false
        = Failed (BrokenResourceError "Outbound message queue is closed"))
  /\ (forall destination : option string,
        broadcast_packet self packet destination true = Completed self).
Proof.
  intros Hq. unfold send_packet, broadcast_packet. rewrite Hq.
  repeat split.
Qed.

(** ** The alias table *)

(** C6 (as the code has it). [add_alias] fails with a [RuntimeError] when
    the alias is already registered.  Otherwise it registers the targets
    as they are given, the empty list included, and returns a disposer
    that is [remove_alias] for this alias: called on the manager that
    [add_alias] left, it gives back the manager as it was before. *)
Theorem add_alias_spec (self : manager) (alias : string)
    (targets : list string) :
  (is_Some (_aliases self !! alias) ->
     exists msg : string,
       add_alias self alias targets = Raises (RuntimeError msg))
  /\ (_aliases self !! alias = None ->
      exists (self' : manager) (disposer : manager -> Outcome manager),
        add_alias self alias targets = Returns (self', disposer)
        /\ self' = with_aliases self (<[alias := targets]> (_aliases self))
        /\ (forall m : manager, disposer m = remove_alias m alias)
        /\ disposer self' = Returns self).
Proof.
  unfold add_alias. split.
  - intros [old Hold]. rewrite Hold. eexists. reflexivity.
  - intros Hnone. rewrite Hnone. eexists _, _.
    split; [reflexivity|]. split; [reflexivity|].
    split; [reflexivity|].
    unfold remove_alias. cbn [_aliases with_aliases].
    rewrite lookup_insert_eq. f_equal.
    unfold with_aliases at 1. cbn [_aliases with_aliases broadcast_delay
      error_limit _entries_by_name _error_counters _running
      _outbound_tx_queue].
    rewrite (delete_insert_id _ _ _ Hnone).
    destruct self; reflexivity.
Qed.

(** ** The log of a transmission error *)

Abbreviation log_os_error :=
  (@_log_os_error_during_tx
     Connection Channel PacketType AddressType World Seconds
     errorcode EADDRNOTAVAIL EHOSTDOWN EHOSTUNREACH ENETDOWN ENETUNREACH).

(** X20. The records written for an [OSError]: the error numbers of the
    network and of the host, those of Windows included, get a plain [ERROR]
    record marked for telemetry to ignore; any other number, or none, gets
    the record with the traceback. *)
Lemma os_error_classes (errno : option Z) (fa fid : string) (s : state) :
  let prefix := if decide (fa = "") then "" else fa +:+ ": " in
  let code := format_error_code errorcode errno in
  let network :=
    [ENETDOWN; ENETUNREACH; EADDRNOTAVAIL; WSAENETDOWN; WSAENETUNREACH] in
  let host := [EHOSTDOWN; EHOSTUNREACH; WSAEHOSTDOWN; WSAEHOSTUNREACH] in
  let record_of msg ignore exc :=
    (Returns tt,
     {| mgr := mgr s; world := world s;
        trace := trace s
                 ++ [Logged {| level := ERROR; message := msg;
                               extra_id := fid; telemetry_ignore := ignore;
                               exc_info := exc |}] |}) in
  (forall n : Z, errno = Some n -> n ∈ network ->
      log_os_error errno fa fid s
      = record_of (prefix +:+ "Network is down or unreachable ("
                     +:+ code +:+ ")") true false)
  /\ (forall n : Z, errno = Some n -> n ∉ network -> n ∈ host ->
        log_os_error errno fa fid s
        = record_of (prefix +:+ "Host is down or unreachable ("
                       +:+ code +:+ ")") true false)
  /\ ((forall n : Z, errno = Some n -> (n ∉ network) /\ (n ∉ host)) ->
        log_os_error errno fa fid s
        = record_of (prefix +:+ "Error while sending message ("
                       +:+ code +:+ ")") false true).
Proof.
  intros prefix code network host record_of.
  unfold _log_os_error_during_tx, errno_in. fold prefix code network host.
  split; [|split].
  - intros n -> Hin. rewrite (bool_decide_eq_true_2 _ Hin). reflexivity.
  - intros n -> Hnot Hin. rewrite (bool_decide_eq_false_2 _ Hnot).
    rewrite (bool_decide_eq_true_2 _ Hin). reflexivity.
  - intros Hnone. destruct errno as [n|]; [|reflexivity].
    destruct (Hnone n eq_refl) as [Hn Hh].
    rewrite (bool_decide_eq_false_2 _ Hn), (bool_decide_eq_false_2 _ Hh).
    reflexivity.
Qed.

(** The records written for a broken channel while logging is not
    suspended: the plain "Channel is broken" record and, after it, the
    record that [Logger.exception] writes for every exception that is not
    an [OSError], with the traceback. *)
Lemma broken_channel_records (msg : string)
    (address : Address AddressType) (e : entry) (index : nat) (s : state) :
  _error_count e + 1 < error_limit (mgr s) ->
  handle_tx_error (BrokenResourceError msg) address e index s
  = (Returns (snd (notify_error e (error_limit (mgr s)))),
     {| mgr := mgr s; world := world s;
        trace := trace s
          ++ [Logged {| level := ERROR; message := "Channel is broken";
                        extra_id := format_id (name e) index;
                        telemetry_ignore := false; exc_info := false |};
              Logged {| level := ERROR;
                        message := "Error while sending message";
                        extra_id := format_id (name e) index;
                        telemetry_ignore := false; exc_info := true |}] |}).
Proof.
  intros Hlt. unfold _handle_tx_error. unfold bind at 1, get_mgr.
  unfold notify_error. cbn [_error_count].
  destruct (Z.gtb_spec (_error_count e + 1) (error_limit (mgr s))); [lia|].
  destruct (Z.eqb_spec (_error_count e + 1) (error_limit (mgr s))); [lia|].
  cbn [snd name]. destruct (decide (LOG = SKIP_LOGGING)); [discriminate|].
  destruct (decide (LOG = LOG_AND_SUSPEND)); [discriminate|].
  unfold bind, log_error, log_exception, emit, ret. cbn.
  rewrite <- app_assoc. reflexivity.
Qed.

End Properties.

(** * The concrete installation at work *)

(** C1 (the code on an unknown name). A packet for ["nowhere"], which is
    neither registered nor an alias, is dropped without an exception and
    without a call on any channel, but the error counter of ["nowhere"] is
    not touched and nothing is logged; the same packet sent through an alias
    whose only target is ["nowhere"] does count as a failed send: the counter
    of ["nowhere"] goes to 1 and the warning for a missing channel is
    written. *)
Theorem unknown_name_counter_untouched :
  Scenario.send_single 5 7%nat ("nowhere", Unicast 3%nat) (Scenario.running ∅)
  = (Returns tt, Scenario.running ∅)
  /\ _error_counters (mgr (Scenario.running ∅)) !! "nowhere" = None
  /\ (let r := Scenario.send_single 5 7%nat ("G", Unicast 3%nat)
                 (Scenario.running Scenario.dangling) in
      fst r = Returns tt
      /\ _error_counters (mgr (snd r)) !! "nowhere" = Some 1
      /\ trace (snd r)
         = [Logged {| level := WARNING;
                      message :=
                        "Dropping outbound message, no suitable channel";
                      extra_id := "nowhere"; telemetry_ignore := true;
                      exc_info := false |}]).
Proof. vm_compute. repeat split. Qed.

(** C9 (the code on a broken channel). A send that fails with
    [BrokenResourceError] on an entry whose logging is not suspended writes
    the plain "Channel is broken" record and then a second record, "Error
    while sending message", with the traceback of the exception; an
    [OSError] with [ENETUNREACH] writes the single record of a network that
    is down, without traceback. *)
Theorem broken_channel_logged_with_traceback :
  (let r := Scenario.handle_tx_error (BrokenResourceError "")
              (Unicast 3%nat) (Scenario.attached 0 "A" 2) 0
              (Scenario.running ∅) in
   trace (snd r)
   = [Logged {| level := ERROR; message := "Channel is broken";
                extra_id := "A[0]"; telemetry_ignore := false;
                exc_info := false |};
      Logged {| level := ERROR; message := "Error while sending message";
                extra_id := "A[0]"; telemetry_ignore := false;
                exc_info := true |}])
  /\ (let r := Scenario.handle_tx_error (OSError (Some 101))
                 (Unicast 3%nat) (Scenario.attached 0 "A" 2) 0
                 (Scenario.running ∅) in
      trace (snd r)
      = [Logged {| level := ERROR;
                   message :=
                     "3: Network is down or unreachable (ENETUNREACH)";
                   extra_id := "A[0]"; telemetry_ignore := true;
                   exc_info := false |}]).
Proof. vm_compute. split; reflexivity. Qed.

(** ** Instances of the general statements *)

Lemma notify_error_sequence_witness :
  let e := Scenario.attached 0 "A" 2 in
  let acts := fst (notify_errors 7 5 e) in
  let e' := snd (notify_errors 7 5 e) in
  (0 < 5 /\ _error_count e = 0)
  /\ length acts = 7%nat
  /\ _error_count e' = Z.of_nat 7
  /\ (forall (k : nat) (a : ErrorAction),
        acts !! k = Some a ->
        (Z.of_nat (S k) < 5 -> a = LOG)
        /\ (Z.of_nat (S k) = 5 -> a = LOG_AND_SUSPEND)
        /\ (Z.of_nat (S k) > 5 -> a = SKIP_LOGGING))
  /\ count_occ ErrorAction_eq_dec acts LOG_AND_SUSPEND
     = (if 5 <=? Z.of_nat 7 then 1%nat else 0%nat)
  /\ (fst (reset_error_count e') = true <-> _error_count e' <> 0)
  /\ _error_count (snd (reset_error_count e')) = 0
  /\ _error_count (snd (notify_error (snd (reset_error_count e')) 5)) = 1
  /\ fst (notify_error (snd (reset_error_count e')) 5) = action_at_count 5 1.
Proof.
  intros e acts e'. split; [split; [lia | reflexivity]|].
  apply (notify_error_sequence e 5 7); [lia | reflexivity].
Defined.

Lemma set_channel_spec_witness :
  let e := Scenario.attached 0 "A" 2 in
  (channel e <> Some 4%nat
   /\ channel (set_channel Scenario.is_BroadcastMessageChannel e (Some 4%nat))
      = Some 4%nat
   /\ (can_broadcast
         (set_channel Scenario.is_BroadcastMessageChannel e (Some 4%nat))
       = true
       <-> exists c, Some 4%nat = Some c
                     /\ Scenario.is_BroadcastMessageChannel c = true)
   /\ _error_count
        (set_channel Scenario.is_BroadcastMessageChannel e (Some 4%nat)) = 0)
  /\ (channel e = Some 2%nat
      /\ set_channel Scenario.is_BroadcastMessageChannel e (Some 2%nat) = e).
Proof.
  intros e. split.
  - assert (Hne : channel e <> Some 4%nat) by (vm_compute; congruence).
    split; [exact Hne|].
    exact (proj1 (set_channel_spec Scenario.is_BroadcastMessageChannel e
                    (Some 4%nat)) Hne).
  - split; [reflexivity|].
    exact (proj2 (set_channel_spec Scenario.is_BroadcastMessageChannel e
                    (Some 2%nat)) eq_refl).
Defined.

Lemma can_broadcast_has_channel_witness :
  let e := fold_left
             (fun e op => apply_op Scenario.is_BroadcastMessageChannel op e)
             [OpSetChannel (Some 2%nat); OpNotifyError 5]
             (new_entry 0%nat "A" true) in
  can_broadcast e = true
  /\ exists ch : nat,
       channel e = Some ch
       /\ forall (message : nat) (s : Scenario.state),
            broadcast_on_entry Scenario.channel_broadcast message e s
            = (Returns tt,
               {| mgr := mgr s;
                  world := snd (Scenario.channel_broadcast ch message
                                  (world s));
                  trace := trace s ++ [ChannelBroadcast ch message] |}).
Proof.
  intros e. split; [reflexivity|].
  exact (proj2 (can_broadcast_has_channel
                  (PacketType := nat) (AddressType := nat) (World := unit)
                  (Seconds := nat)
                  Scenario.is_BroadcastMessageChannel
                  Scenario.channel_broadcast 0%nat "A" true
                  [OpSetChannel (Some 2%nat); OpNotifyError 5]) eq_refl).
Defined.

Lemma broadcast_reaches_broadcasters_witness :
  let s := Scenario.running Scenario.both in
  Forall broadcast_implies_channel (_iter_entries (mgr s))
  /\ exists chans : list nat,
       Forall2 (fun e ch => channel e = Some ch)
               (List.filter can_broadcast (_iter_entries (mgr s))) chans
       /\ Scenario.send_all 7%nat s
          = (Returns tt,
             {| mgr := mgr s;
                world :=
                  fold_left
                    (fun w ch =>
                       snd (Scenario.channel_broadcast ch 7%nat w))
                    chans (world s);
                trace :=
                  trace s
                  ++ map (fun ch => ChannelBroadcast ch 7%nat) chans |}).
Proof.
  intros s.
  assert (Hinv : Forall broadcast_implies_channel (_iter_entries (mgr s))).
  { repeat constructor; intros _; vm_compute; discriminate. }
  split; [exact Hinv|].
  exact (proj1 (broadcast_reaches_broadcasters Scenario.channel_broadcast
                  7%nat s Hinv)).
Defined.

Lemma dispatch_attempts_every_entry_witness :
  let s := Scenario.running ∅ in
  let entries := [Scenario.attached 0 "A" 2; Scenario.attached 1 "A" 13] in
  (odict_get "A" (_entries_by_name (mgr s)) = Some entries /\ entries <> [])
  /\ exists (s' : Scenario.state) (entries' : list Scenario.entry),
       Scenario.send_single 1 7%nat ("A", Unicast 3%nat) s = (Returns tt, s')
       /\ transmissions (trace s')
          = transmissions (trace s)
            ++ omap (attempt_of (Unicast 3%nat) 7%nat) entries
       /\ odict_get "A" (_entries_by_name (mgr s')) = Some entries'
       /\ Forall2 same_link entries entries'.
Proof.
  intros s entries.
  assert (Hget : odict_get "A" (_entries_by_name (mgr s)) = Some entries)
    by reflexivity.
  assert (Hne : entries <> []) by discriminate.
  split; [split; [exact Hget | exact Hne]|].
  exact (proj1 (dispatch_attempts_every_entry
                  Scenario.channel_send Scenario.channel_broadcast
                  Scenario.format_address Scenario.repr Scenario.is_positive
                  Scenario.errorcode Scenario.EADDRNOTAVAIL
                  Scenario.EHOSTDOWN Scenario.EHOSTUNREACH Scenario.ENETDOWN
                  Scenario.ENETUNREACH
                  0%nat "A" (Unicast 3%nat) 7%nat s entries Hget Hne)).
Defined.

Lemma submission_when_queue_closed_witness :
  _outbound_tx_queue Scenario.stopped = None
  /\ (forall destination : string * nat,
         send_packet Scenario.stopped 7%nat destination
         = Failed (BrokenResourceError "Outbound message queue is closed"))
  /\ (forall destination : option string,
         broadcast_packet Scenario.stopped 7%nat destination false
         = Failed (BrokenResourceError "Outbound message queue is closed"))
  /\ (forall destination : option string,
         broadcast_packet Scenario.stopped 7%nat destination true
         = Completed Scenario.stopped).
Proof.
  split; [reflexivity|].
  apply (submission_when_queue_closed Scenario.stopped 7%nat). reflexivity.
Defined.

Lemma add_alias_spec_witness :
  (_aliases Scenario.stopped !! "G" = None
   /\ exists (self' : Scenario.manager)
             (disposer : Scenario.manager -> Outcome Scenario.manager),
        add_alias Scenario.stopped "G" ["A"; "B"] = Returns (self', disposer)
        /\ self' = with_aliases Scenario.stopped
                     (<["G" := ["A"; "B"]]> (_aliases Scenario.stopped))
        /\ (forall m : Scenario.manager, disposer m = remove_alias m "G")
        /\ disposer self' = Returns Scenario.stopped)
  /\ (is_Some (_aliases (mgr (Scenario.running Scenario.both)) !! "G")
      /\ exists msg : string,
           add_alias (mgr (Scenario.running Scenario.both)) "G" ["A"]
           = Raises (RuntimeError msg)).
Proof.
  split.
  - assert (Hnone : _aliases Scenario.stopped !! "G" = None) by reflexivity.
    split; [exact Hnone|].
    exact (proj2 (add_alias_spec Scenario.stopped "G" ["A"; "B"]) Hnone).
  - assert (Hsome : is_Some
                      (_aliases (mgr (Scenario.running Scenario.both))
                         !! "G"))
      by (exists ["A"; "B"]; vm_compute; reflexivity).
    split; [exact Hsome|].
    exact (proj1 (add_alias_spec (mgr (Scenario.running Scenario.both))
                    "G" ["A"]) Hsome).
Defined.

(** ** Where the code departs from the specification *)

(** C3, as the specification has it, fails: link ["B"] is open and can send
    but cannot broadcast; a packet for its broadcast address should reach it
    through a plain send, and the code makes no call at all. *)
Lemma broadcast_address_skips_plain_channel :
  let s := Scenario.running ∅ in
  let r := Scenario.send_single 1 7%nat ("B", BROADCAST) s in
  fst r = Returns tt
  /\ transmissions (trace (snd r)) = []
  /\ omap (attempt_as_specified (AddressType := nat) (Seconds := nat)
             BROADCAST 7%nat)
          (default [] (odict_get "B" (_entries_by_name (mgr s))))
     = [ChannelSend 5%nat 7%nat BROADCAST]
  /\ transmissions (trace (snd r))
     <> omap (attempt_as_specified (AddressType := nat) (Seconds := nat)
             BROADCAST 7%nat)
             (default [] (odict_get "B" (_entries_by_name (mgr s)))).
Proof. vm_compute. repeat split. discriminate. Qed.

(** C5, as the specification has it, fails: ["G"] is an alias of ["H"],
    itself an alias of the registered ["B"]; following the chain, the packet
    should be sent on the channel of ["B"], and the code sends nothing. *)
Lemma alias_of_alias_not_followed :
  let s := Scenario.running Scenario.chained in
  let r := Scenario.send_single 5 7%nat ("G", Unicast 3%nat) s in
  resolve_as_specified 5 Scenario.registry Scenario.chained "G" = ["B"]
  /\ omap (attempt_of (Seconds := nat) (Unicast 3%nat) 7%nat)
          (entries_of Scenario.registry
             (resolve_as_specified 5 Scenario.registry Scenario.chained "G"))
     = [ChannelSend 5%nat 7%nat (Unicast 3%nat)]
  /\ fst r = Returns tt
  /\ transmissions (trace (snd r)) = []
  /\ transmissions (trace (snd r))
     <> omap (attempt_of (Seconds := nat) (Unicast 3%nat) 7%nat)
             (entries_of Scenario.registry
                (resolve_as_specified 5 Scenario.registry Scenario.chained
                   "G")).
Proof. vm_compute. repeat split. discriminate. Qed.

(** C4, as the specification has it, fails for [send_packet]: with the queue
    not running there is no way of calling it that returns. *)
Lemma send_packet_cannot_tolerate_failure :
  ~ exists destination : string * nat,
      send_packet Scenario.stopped 7%nat destination
      = Completed Scenario.stopped.
Proof. intros [destination Hcall]. discriminate Hcall. Qed.

(** C6, as the specification has it, fails: an alias with no target at all
    is accepted. *)
Lemma add_alias_accepts_no_target :
  ~ exists ex : Exception, add_alias Scenario.stopped "G" [] = Raises ex.
Proof. intros [ex Hcall]. discriminate Hcall. Qed.

(** * Further properties of the manager *)

Section Registry.

Context {Connection Channel PacketType AddressType Seconds : Type}.

Abbreviation entry_t := (CommunicationManagerEntry Connection Channel).
Abbreviation manager_t :=
  (@CommunicationManager Connection Channel PacketType AddressType Seconds).

Lemma odict_get_keys {V : Type} (k : string) (d : odict V) :
  is_Some (odict_get k d) <-> k ∈ odict_keys d.
Proof.
  unfold odict_keys. induction d as [|[k' v] d IH]; cbn.
  - split; [intros [? ?]; discriminate | intros Hin; inversion Hin].
  - destruct (decide (k = k')) as [->|Hne].
    + split; [intros _; left | intros _; eexists; reflexivity].
    + rewrite IH. split; [intros Hin; right; exact Hin|].
      intros Hin. inversion Hin; subst; [contradiction | assumption].
Qed.

Lemma odict_keys_set {V : Type} (k : string) (v : V) (d : odict V) :
  odict_keys (odict_set k v d)
  = if odict_contains k d then odict_keys d else odict_keys d ++ [k].
Proof.
  unfold odict_keys, odict_contains. induction d as [|[k' v'] d IH]; cbn.
  - reflexivity.
  - destruct (decide (k = k')) as [->|Hne]; cbn; [reflexivity|].
    rewrite IH. destruct (odict_get k d); reflexivity.
Qed.

Lemma add_when_stopped (self : manager_t) (conn : Connection)
    (nm : string) (cs : bool) :
  _running self = false ->
  add self conn nm cs
  = Returns (with_entries self
               (odict_set nm
                  (default [] (odict_get nm (_entries_by_name self))
                   ++ [new_entry conn nm cs])
                  (_entries_by_name self))).
Proof. intros Hrun. unfold add. rewrite Hrun. reflexivity. Qed.

(** X1. [add] raises [RuntimeError] exactly when the manager is running.
    Otherwise the new entry, closed and with a clear error count, goes to the
    end of the list of its name; the lists of the other names, the order of
    the names already there, the aliases, the error counters and the queue
    stay as they were, and a new name goes after the names already there. *)
Theorem add_registers_last (self : manager_t) (conn : Connection)
    (nm : string) (cs : bool) :
  (_running self = true ->
     add self conn nm cs
     = Raises (RuntimeError
                 "cannot add new connections when the manager is running"))
  /\ (_running self = false ->
      exists self' : manager_t,
        add self conn nm cs = Returns self'
        /\ odict_get nm (_entries_by_name self')
           = Some (default [] (odict_get nm (_entries_by_name self))
                   ++ [new_entry conn nm cs])
        /\ (forall other : string,
              other <> nm ->
              odict_get other (_entries_by_name self')
              = odict_get other (_entries_by_name self))
        /\ odict_keys (_entries_by_name self')
           = (if odict_contains nm (_entries_by_name self)
              then odict_keys (_entries_by_name self)
              else odict_keys (_entries_by_name self) ++ [nm])
        /\ _aliases self' = _aliases self
        /\ _error_counters self' = _error_counters self
        /\ _outbound_tx_queue self' = _outbound_tx_queue self
        /\ _running self' = false).
Proof.
  unfold add. split; intros Hrun; rewrite Hrun; [reflexivity|].
  eexists. split; [reflexivity|].
  cbn [with_entries _entries_by_name _aliases _error_counters
       _outbound_tx_queue _running]. unfold append_entry.
  split; [apply odict_get_set_eq|].
  split; [intros other Hne; apply odict_get_set_ne; exact Hne|].
  split; [apply odict_keys_set|].
  repeat split. exact Hrun.
Qed.

(** X2. On a manager that is not running, any series of registrations goes
    through, and under every name the entries stand in the order of their
    registration: those that were there, then the new ones, each closed and
    with a clear error count. *)
Theorem add_all_keeps_registration_order (self : manager_t)
    (registrations : list (Connection * string * bool)) :
  _running self = false ->
  exists self' : manager_t,
    add_all self registrations = Returns self'
    /\ forall nm : string,
         default [] (odict_get nm (_entries_by_name self'))
         = default [] (odict_get nm (_entries_by_name self))
           ++ registered_under nm registrations.
Proof.
  revert self. induction registrations as [|[[conn nm0] cs] rest IH];
    intros self Hrun.
  - exists self. split; [reflexivity|]. intros nm.
    unfold registered_under. cbn. rewrite app_nil_r. reflexivity.
  - pose proof (add_when_stopped self conn nm0 cs Hrun) as Hadd.
    set (self1 := with_entries self
                    (odict_set nm0
                       (default [] (odict_get nm0 (_entries_by_name self))
                        ++ [new_entry conn nm0 cs])
                       (_entries_by_name self))) in Hadd.
    assert (Hrun1 : _running self1 = false) by exact Hrun.
    destruct (IH self1 Hrun1) as (self' & Hall & Horder).
    exists self'. split; [cbn [add_all]; rewrite Hadd; exact Hall|].
    intros nm. rewrite Horder. unfold registered_under.
    cbn [List.filter fst snd]. subst self1.
    cbn [_entries_by_name with_entries].
    destruct (decide (nm0 = nm)) as [->|Hne].
    + rewrite bool_decide_eq_true_2 by reflexivity.
      rewrite odict_get_set_eq. cbn [map]. cbn.
      rewrite <- app_assoc. reflexivity.
    + rewrite bool_decide_eq_false_2 by exact Hne.
      rewrite odict_get_set_ne by congruence. reflexivity.
Qed.

Lemma is_channel_open_spec (self : manager_t) (nm : string) :
  is_channel_open self nm = true
  <-> exists (entries : list entry_t) (e : entry_t),
        odict_get nm (_entries_by_name self) = Some entries
        /\ e ∈ entries /\ channel e <> None.
Proof.
  unfold is_channel_open.
  destruct (odict_get nm (_entries_by_name self)) as [[|e0 es]|].
  - split; [discriminate|]. intros (entries & e & [= <-] & Hin & _).
    inversion Hin.
  - rewrite existsb_exists. split.
    + intros (e & Hin & Hopen). exists (e0 :: es), e.
      split; [reflexivity|]. split; [apply list_elem_of_In; exact Hin|].
      unfold is_open in Hopen. destruct (channel e); [discriminate|].
      discriminate.
    + intros (entries & e & [= <-] & Hin & Hch). exists e.
      split; [apply list_elem_of_In; exact Hin|].
      unfold is_open. destruct (channel e); [reflexivity | contradiction].
  - split; [discriminate|]. intros (? & ? & ? & _). discriminate.
Qed.

Lemma odict_get_values {V : Type} (k : string) (v : V) (d : odict V) :
  odict_get k d = Some v -> v ∈ odict_values d.
Proof.
  unfold odict_values. induction d as [|[k' v'] d IH]; cbn; [discriminate|].
  destruct (decide (k = k')).
  - intros [= ->]. left.
  - intros Hget. right. exact (IH Hget).
Qed.

Lemma odict_values_get {V : Type} (v : V) (d : odict V) :
  NoDup (odict_keys d) -> v ∈ odict_values d ->
  exists k : string, odict_get k d = Some v.
Proof.
  unfold odict_values, odict_keys.
  induction d as [|[k' v'] d IH]; cbn; intros Hnd Hin; [inversion Hin|].
  apply NoDup_cons in Hnd as [Hnotin Hnd].
  inversion Hin as [|? ? ? Hin']; subst.
  - exists k'. destruct (decide (k' = k')); [reflexivity | contradiction].
  - destruct (IH Hnd Hin') as [k Hget]. exists k.
    destruct (decide (k = k')) as [->|_]; [|exact Hget].
    exfalso. apply Hnotin. apply (odict_get_keys k' d). eexists. exact Hget.
Qed.

Lemma elem_of_concat {A : Type} (x : A) (ls : list (list A)) :
  x ∈ concat ls <-> exists l : list A, x ∈ l /\ l ∈ ls.
Proof.
  rewrite list_elem_of_In, in_concat. split.
  - intros (l & Hl & Hx). exists l. rewrite !list_elem_of_In. auto.
  - intros (l & Hx & Hl). exists l. rewrite <- !list_elem_of_In. auto.
Qed.

(** [add] never enters a name twice in the registry. *)
Lemma add_keys_nodup (self self' : manager_t) (conn : Connection)
    (nm : string) (cs : bool) :
  NoDup (odict_keys (_entries_by_name self)) ->
  add self conn nm cs = Returns self' ->
  NoDup (odict_keys (_entries_by_name self')).
Proof.
  intros Hnd Hadd. destruct (_running self) eqn:Hrun.
  - unfold add in Hadd. rewrite Hrun in Hadd. discriminate.
  - rewrite (add_when_stopped self conn nm cs Hrun) in Hadd.
    injection Hadd as <-. cbn [_entries_by_name with_entries].
    rewrite odict_keys_set. unfold odict_contains.
    destruct (odict_get nm (_entries_by_name self)) eqn:Hget; [exact Hnd|].
    apply NoDup_app. split; [exact Hnd|]. split; [|apply NoDup_singleton].
    intros k Hk Hk'. apply list_elem_of_singleton in Hk' as ->.
    apply odict_get_keys in Hk as [v Hv]. congruence.
Qed.

(** X3. [is_channel_open] holds for a name exactly when one of the entries
    registered under it has a channel, and, names being entered once in the
    registry, [open_channels] is empty exactly when no name is open. *)
Theorem open_channels_agree (self : manager_t) :
  (forall nm : string,
      is_channel_open self nm = true
      <-> exists (entries : list entry_t) (e : entry_t),
            odict_get nm (_entries_by_name self) = Some entries
            /\ e ∈ entries /\ channel e <> None)
  /\ (NoDup (odict_keys (_entries_by_name self)) ->
      (open_channels self = []
       <-> forall nm : string, is_channel_open self nm = false)).
Proof.
  split; [intros nm; apply is_channel_open_spec|].
  intros Hnd. unfold open_channels, _iter_entries. split.
  - intros Hnone nm. destruct (is_channel_open self nm) eqn:Hopen;
      [|reflexivity].
    apply is_channel_open_spec in Hopen as (entries & e & Hget & Hin & Hch).
    exfalso. destruct (channel e) as [ch|] eqn:Hche; [|contradiction].
    assert (Hin' : ch ∈ omap channel (concat (odict_values
                                               (_entries_by_name self)))).
    { apply list_elem_of_omap. exists e. split; [|exact Hche].
      apply elem_of_concat. exists entries.
      split; [exact Hin | exact (odict_get_values _ _ _ Hget)]. }
    rewrite Hnone in Hin'. inversion Hin'.
  - intros Hclosed.
    destruct (omap channel (concat (odict_values (_entries_by_name self))))
      as [|ch chans] eqn:Hopen; [reflexivity|].
    exfalso.
    assert (Hin : ch ∈ omap channel (concat (odict_values
                                              (_entries_by_name self))))
      by (rewrite Hopen; left).
    apply list_elem_of_omap in Hin as (e & Hin & Hche).
    apply elem_of_concat in Hin as (entries & Hin & Hvals).
    destruct (odict_values_get _ _ Hnd Hvals) as [nm Hget].
    assert (Htrue : is_channel_open self nm = true).
    { apply is_channel_open_spec. exists entries, e.
      split; [exact Hget|]. split; [exact Hin | congruence]. }
    rewrite Hclosed in Htrue. discriminate.
Qed.

(** ** Aliases *)

(** X4. The disposer of an alias works once: it takes the alias out of the
    table and leaves the other aliases alone, and a second call finds
    nothing to delete and raises [KeyError]; registering the alias never
    touches the other aliases either. *)
Theorem disposer_works_once (self : manager_t) (alias : string)
    (targets : list string) :
  _aliases self !! alias = None ->
  exists (self1 self2 : manager_t)
         (disposer : manager_t -> Outcome manager_t),
    add_alias self alias targets = Returns (self1, disposer)
    /\ _aliases self1 !! alias = Some targets
    /\ (forall other : string,
          other <> alias ->
          _aliases self1 !! other = _aliases self !! other)
    /\ disposer self1 = Returns self2
    /\ _aliases self2 = _aliases self
    /\ disposer self2 = Raises (KeyError alias).
Proof.
  intros Hnone. unfold add_alias. rewrite Hnone.
  eexists _, _, _. split; [reflexivity|].
  cbn [_aliases with_aliases].
  split; [apply lookup_insert_eq|].
  split; [intros other Hne; apply lookup_insert_ne; congruence|].
  unfold remove_alias. cbn [_aliases with_aliases].
  rewrite lookup_insert_eq. split; [reflexivity|].
  cbn [_aliases with_aliases]. rewrite (delete_insert_id _ _ _ Hnone).
  split; [reflexivity|]. rewrite Hnone. reflexivity.
Qed.

(** X5. [with_alias] on a free alias runs the body with the alias in place
    and takes it out again when the body is over, whether the body returns
    or raises: the result is that of the body, and the alias table is the
    one from before, provided the body leaves the table alone.  On an alias
    that is taken, the body does not run and the manager is untouched. *)
Theorem with_alias_restores (self : manager_t) (alias : string)
    (targets : list string)
    (body : manager_t -> Outcome unit * manager_t) :
  (forall m : manager_t, _aliases (snd (body m)) = _aliases m) ->
  (_aliases self !! alias = None ->
     let inside :=
       with_aliases self (<[alias := targets]> (_aliases self)) in
     with_alias self alias targets body
     = (fst (body inside),
        with_aliases (snd (body inside)) (_aliases self)))
  /\ (is_Some (_aliases self !! alias) ->
      exists msg : string,
        with_alias self alias targets body = (Raises (RuntimeError msg), self)).
Proof.
  intros Hframe. unfold with_alias, add_alias. split.
  - intros Hnone. cbv zeta. rewrite Hnone.
    set (inside := with_aliases self (<[alias := targets]> (_aliases self))).
    destruct (body inside) as [r self2] eqn:Hbody. cbn [fst snd].
    pose proof (Hframe inside) as Hal. rewrite Hbody in Hal. cbn in Hal.
    unfold remove_alias. rewrite Hal. subst inside.
    cbn [_aliases with_aliases]. rewrite lookup_insert_eq.
    rewrite (delete_insert_id _ _ _ Hnone). reflexivity.
  - intros [old Hold]. rewrite Hold. eexists. reflexivity.
Qed.

(** ** Submission *)

(** X6. With the queue running, the blocking and the non-blocking
    submission of a packet accept it in the same cases and with the same
    effect: while there is room, the packet goes to the end of the buffer,
    which stays within its capacity, and nothing is logged; when the buffer
    is full, [send_packet] waits, whereas [enqueue_packet] returns at once,
    drops the packet and leaves one warning if there is a logger. *)
Theorem enqueue_drops_where_send_waits (self : manager_t)
    (queue : @MemorySendChannel PacketType AddressType) (log : bool)
    (packet : PacketType) (destination : string * AddressType) :
  _outbound_tx_queue self = Some queue ->
  let item :=
    (packet, ToChannel (fst destination) (Unicast (snd destination))) in
  ((length (buffer queue) < max_buffer_size queue)%nat ->
     let self' :=
       with_queue self
         (Some {| buffer := buffer queue ++ [item];
                  max_buffer_size := max_buffer_size queue |}) in
     send_packet self packet destination = Completed self'
     /\ enqueue_packet self log packet destination = Returns (self', [])
     /\ (length (buffer queue ++ [item]) <= max_buffer_size queue)%nat)
  /\ ((max_buffer_size queue <= length (buffer queue))%nat ->
      send_packet self packet destination = Suspended
      /\ enqueue_packet self log packet destination
         = Returns
             (self,
              if log then
                [plain_warning
                   "Dropping outbound packet; outbound message queue is full"]
              else [])).
Proof.
  intros Hq item. unfold send_packet, enqueue_packet, queue_send,
    queue_send_nowait. rewrite Hq. fold item. split; intros Hlen.
  - apply Nat.ltb_lt in Hlen as Hlt. rewrite Hlt.
    repeat split. rewrite length_app. cbn. lia.
  - apply Nat.ltb_ge in Hlen as Hge. rewrite Hge. split; reflexivity.
Qed.

(** X7. The two submissions of a broadcast address it alike: to every
    channel when no destination is given, to the broadcast address of the
    named destination otherwise.  With the queue not running,
    [enqueue_broadcast_packet] raises [BrokenResourceError] unless
    [allow_failure] is set, in which case it does nothing; with the queue
    full it drops the packet where [broadcast_packet] waits. *)
Theorem broadcast_submission (self : manager_t) (log : bool)
    (packet : PacketType) (destination : option string) :
  let item :=
    (packet,
     match destination with
     | None => ToEveryone
     | Some d => ToChannel d (BROADCAST (AddressType := AddressType))
     end) in
  (_outbound_tx_queue self = None ->
     enqueue_broadcast_packet self log packet destination false
     = Raises (BrokenResourceError "Outbound message queue is closed")
     /\ enqueue_broadcast_packet self log packet destination true
        = Returns (self, []))
  /\ (forall (queue : @MemorySendChannel PacketType AddressType)
             (allow_failure : bool),
        _outbound_tx_queue self = Some queue ->
        ((length (buffer queue) < max_buffer_size queue)%nat ->
           let self' :=
             with_queue self
               (Some {| buffer := buffer queue ++ [item];
                        max_buffer_size := max_buffer_size queue |}) in
           broadcast_packet self packet destination allow_failure
           = Completed self'
           /\ enqueue_broadcast_packet self log packet destination
                allow_failure = Returns (self', []))
        /\ ((max_buffer_size queue <= length (buffer queue))%nat ->
            broadcast_packet self packet destination allow_failure
            = Suspended
            /\ exists warning : LogRecord,
                 level warning = WARNING
                 /\ enqueue_broadcast_packet self log packet destination
                      allow_failure
                    = Returns (self, if log then [warning] else []))).
Proof.
  intros item. unfold enqueue_broadcast_packet, broadcast_packet, queue_send,
    queue_send_nowait. split.
  - intros Hq. rewrite Hq. split; reflexivity.
  - intros queue allow_failure Hq. rewrite Hq. fold item.
    split; intros Hlen.
    + apply Nat.ltb_lt in Hlen as Hlt. rewrite Hlt. split; reflexivity.
    + apply Nat.ltb_ge in Hlen as Hge. rewrite Hge.
      split; [reflexivity|]. eexists. split; [|reflexivity]. reflexivity.
Qed.


End Registry.

Section Dispatcher.

Context {Connection Channel PacketType AddressType World Seconds : Type}.
Variable channel_send :
  Channel -> PacketType -> Address AddressType -> World ->
  option Exception * World.
Variable channel_broadcast :
  Channel -> PacketType -> World -> option Exception * World.
Variable format_address : AddressType -> Outcome string.
Variable repr : Address AddressType -> string.
Variable is_positive : Seconds -> bool.
Variable errorcode : Z -> option string.
Variables EADDRNOTAVAIL EHOSTDOWN EHOSTUNREACH ENETDOWN ENETUNREACH : Z.

Abbreviation entry_d := (CommunicationManagerEntry Connection Channel).
Abbreviation manager_d :=
  (@CommunicationManager Connection Channel PacketType AddressType Seconds).
Abbreviation state_d :=
  (@State Connection Channel PacketType AddressType World Seconds).
Abbreviation event_d := (@Event Channel PacketType AddressType Seconds).
Abbreviation action_d A :=
  (@M Connection Channel PacketType AddressType World Seconds A).

Abbreviation d_handle_tx_error :=
  (@_handle_tx_error Connection Channel PacketType AddressType World Seconds
     format_address repr errorcode
     EADDRNOTAVAIL EHOSTDOWN EHOSTUNREACH ENETDOWN ENETUNREACH).
Abbreviation d_on_entry :=
  (@send_on_entry Connection Channel PacketType AddressType World Seconds
     channel_send channel_broadcast format_address repr is_positive
     errorcode EADDRNOTAVAIL EHOSTDOWN EHOSTUNREACH ENETDOWN ENETUNREACH).
Abbreviation d_loop :=
  (@send_loop Connection Channel PacketType AddressType World Seconds
     channel_send channel_broadcast format_address repr is_positive
     errorcode EADDRNOTAVAIL EHOSTDOWN EHOSTUNREACH ENETDOWN ENETUNREACH).
Abbreviation d_to_entries :=
  (@send_to_entries Connection Channel PacketType AddressType World Seconds
     channel_send channel_broadcast format_address repr is_positive
     errorcode EADDRNOTAVAIL EHOSTDOWN EHOSTUNREACH ENETDOWN ENETUNREACH).
Abbreviation d_single :=
  (@_send_message_to_single_channel
     Connection Channel PacketType AddressType World Seconds
     channel_send channel_broadcast format_address repr is_positive
     errorcode EADDRNOTAVAIL EHOSTDOWN EHOSTUNREACH ENETDOWN ENETUNREACH).
Abbreviation d_all :=
  (@_send_message_to_all_channels
     Connection Channel PacketType AddressType World Seconds
     channel_broadcast).
Abbreviation d_dispatch :=
  (@dispatch Connection Channel PacketType AddressType World Seconds
     channel_send channel_broadcast format_address repr is_positive
     errorcode EADDRNOTAVAIL EHOSTDOWN EHOSTUNREACH ENETDOWN ENETUNREACH).
Abbreviation d_outbound_inner :=
  (@_run_outbound_links_inner
     Connection Channel PacketType AddressType World Seconds
     channel_send channel_broadcast format_address repr is_positive
     errorcode EADDRNOTAVAIL EHOSTDOWN EHOSTUNREACH ENETDOWN ENETUNREACH).
Abbreviation d_outbound :=
  (@_run_outbound_links
     Connection Channel PacketType AddressType World Seconds
     channel_send channel_broadcast format_address repr is_positive
     errorcode EADDRNOTAVAIL EHOSTDOWN EHOSTUNREACH ENETDOWN ENETUNREACH).

(** ** What a dispatch leaves alone *)

Lemma same_links_refl (l : list entry_d) : same_links l l.
Proof.
  unfold same_links. induction l; constructor;
    [repeat split | assumption].
Qed.

Lemma same_links_trans (l1 l2 l3 : list entry_d) :
  same_links l1 l2 -> same_links l2 l3 -> same_links l1 l3.
Proof.
  unfold same_links. intros H12. revert l3.
  induction H12 as [|e1 e2 l1 l2 He _ IH]; intros l3 H23;
    inversion H23; subst; constructor.
  - eapply same_link_trans; eassumption.
  - apply IH. assumption.
Qed.

Lemma same_registry_refl (d : odict (list entry_d)) : same_registry d d.
Proof.
  unfold same_registry. induction d as [|[k v] d IH]; constructor;
    [split; [reflexivity | apply same_links_refl] | exact IH].
Qed.

Lemma same_registry_trans (d1 d2 d3 : odict (list entry_d)) :
  same_registry d1 d2 -> same_registry d2 d3 -> same_registry d1 d3.
Proof.
  unfold same_registry. intros H12. revert d3.
  induction H12 as [|kv1 kv2 d1 d2 [Hk Hv] _ IH]; intros d3 H23;
    inversion H23 as [|? kv3 ? d3' [Hk' Hv'] Hrest]; subst; constructor.
  - split; [congruence | eapply same_links_trans; eassumption].
  - apply IH. assumption.
Qed.

Lemma same_registry_set (d : odict (list entry_d)) (k : string)
    (l l' : list entry_d) :
  odict_get k d = Some l -> same_links l l' ->
  same_registry d (odict_set k l' d).
Proof.
  unfold same_registry. intros Hget Hl.
  induction d as [|[k0 v0] d IH]; cbn in *; [discriminate|].
  destruct (decide (k = k0)) as [->|Hne].
  - injection Hget as ->. constructor;
      [split; [reflexivity | exact Hl] | apply same_registry_refl].
  - constructor; [split; [reflexivity | apply same_links_refl]|].
    apply IH, Hget.
Qed.

Lemma same_registry_nonempty (d d' : odict (list entry_d)) :
  same_registry d d' -> lists_nonempty d -> lists_nonempty d'.
Proof.
  unfold same_registry, lists_nonempty.
  induction 1 as [|kv kv' d d' [_ Hv] _ IH]; intros Hne;
    [constructor|].
  inversion Hne as [|? ? Hkv Hrest]; subst. constructor; [|apply IH, Hrest].
  intros Hnil. rewrite Hnil in Hv. inversion Hv as [Hempty|]; subst.
  apply Hkv. symmetry. exact Hempty.
Qed.

Lemma same_manager_refl (self : manager_d) : same_manager self self.
Proof. repeat split. apply same_registry_refl. Qed.

Lemma same_manager_trans (m1 m2 m3 : manager_d) :
  same_manager m1 m2 -> same_manager m2 m3 -> same_manager m1 m3.
Proof.
  unfold same_manager. intros (?&?&?&H12&?&?) (?&?&?&H23&?&?).
  repeat split; try congruence.
  eapply same_registry_trans; eassumption.
Qed.

(** ** What a dispatch to a name puts on the wire *)

Abbreviation d_attempt :=
  (@attempt_of Connection Channel PacketType AddressType Seconds).
Abbreviation d_broadcast_of :=
  (@broadcast_of Connection Channel PacketType AddressType Seconds).
Abbreviation d_expected :=
  (@expected_calls Connection Channel PacketType AddressType Seconds).

Lemma attempt_of_same_link (address : Address AddressType)
    (message : PacketType) (e e' : entry_d) :
  same_link e e' ->
  d_attempt address message e' = d_attempt address message e.
Proof.
  intros (_ & _ & Hb & Hs & Hc). unfold attempt_of.
  rewrite Hb, Hs, Hc. reflexivity.
Qed.

Lemma attempts_same_links (address : Address AddressType)
    (message : PacketType) (l l' : list entry_d) :
  same_links l l' ->
  omap (d_attempt address message) l' = omap (d_attempt address message) l.
Proof.
  unfold same_links. induction 1 as [|e e' l l' He _ IH]; [reflexivity|].
  cbn [omap list_omap].
  rewrite (attempt_of_same_link address message e e' He).
  fold (omap (d_attempt address message) l').
  fold (omap (d_attempt address message) l).
  rewrite IH. reflexivity.
Qed.

Lemma same_registry_get (d d' : odict (list entry_d)) (k : string) :
  same_registry d d' ->
  match odict_get k d, odict_get k d' with
  | Some l, Some l' => same_links l l'
  | None, None => True
  | _, _ => False
  end.
Proof.
  unfold same_registry.
  induction 1 as [|[k1 v1] [k2 v2] d d' [Hk Hv] _ IH]; cbn in *;
    [exact I|].
  subst k2. destruct (decide (k = k1)); [exact Hv | exact IH].
Qed.

Lemma same_registry_truthy (d d' : odict (list entry_d)) (k : string) :
  same_registry d d' ->
  truthy (odict_get k d') = truthy (odict_get k d).
Proof.
  intros Hreg. pose proof (same_registry_get d d' k Hreg) as Hget.
  destruct (odict_get k d) as [l|], (odict_get k d') as [l'|];
    try contradiction; [|reflexivity].
  destruct Hget; reflexivity.
Qed.

Lemma entries_same_registry (address : Address AddressType)
    (message : PacketType) (d d' : odict (list entry_d))
    (names : list string) :
  same_registry d d' ->
  omap (d_attempt address message) (entries_of d' names)
  = omap (d_attempt address message) (entries_of d names).
Proof.
  intros Hreg. unfold entries_of.
  induction names as [|k names IH]; [reflexivity|].
  cbn [flat_map]. rewrite !omap_app, IH. f_equal.
  pose proof (same_registry_get d d' k Hreg) as Hget.
  destruct (odict_get k d) as [l|], (odict_get k d') as [l'|];
    try contradiction; [|reflexivity].
  cbn. apply attempts_same_links, Hget.
Qed.

(** The dispatch to the entries that the registry holds for a name: the
    calls of [attempt_of] for each entry in order, nothing changed in the
    manager but error counts and the error counter of the name. *)
Lemma send_to_entries_effect (nm : string) (address : Address AddressType)
    (message : PacketType) (s : state_d) :
  exists s' : state_d,
    d_to_entries nm address message
      (odict_get nm (_entries_by_name (mgr s))) s = (Returns tt, s')
    /\ transmissions (trace s')
       = transmissions (trace s)
         ++ omap (d_attempt address message)
              (default [] (odict_get nm (_entries_by_name (mgr s))))
    /\ same_manager (mgr s) (mgr s')
    /\ (forall k : string,
          k <> nm ->
          _error_counters (mgr s') !! k = _error_counters (mgr s) !! k)
    /\ (truthy (odict_get nm (_entries_by_name (mgr s))) = false ->
        _error_counters (mgr s') !! nm
        = Some (default 0 (_error_counters (mgr s) !! nm) + 1)).
Proof.
  assert (Hfalsy :
    forall es : option (list entry_d),
      truthy es = false ->
      omap (d_attempt address message) (default [] es) = [] ->
      exists s' : state_d,
        record_result nm address es false s = (Returns tt, s')
        /\ transmissions (trace s')
           = transmissions (trace s)
             ++ omap (d_attempt address message) (default [] es)
        /\ same_manager (mgr s) (mgr s')
        /\ (forall k : string,
              k <> nm ->
              _error_counters (mgr s') !! k = _error_counters (mgr s) !! k)
        /\ (truthy es = false ->
            _error_counters (mgr s') !! nm
            = Some (default 0 (_error_counters (mgr s) !! nm) + 1))).
  { intros es Hf Hnil.
    destruct (record_result_run nm address es false s) as (logs & Hrun & Ht).
    eexists. split; [exact Hrun|].
    cbn [mgr trace with_error_counters _error_counters].
    rewrite transmissions_app, Ht, Hnil.
    split; [reflexivity|]. split; [|split].
    - repeat split. apply same_registry_refl.
    - intros k Hk. apply lookup_insert_ne. congruence.
    - intros _. apply lookup_insert_eq. }
  destruct (odict_get nm (_entries_by_name (mgr s))) as [[|e l]|] eqn:Hget;
    cbn [send_to_entries].
  - apply Hfalsy; reflexivity.
  - destruct (send_loop_run channel_send channel_broadcast format_address
                repr is_positive errorcode EADDRNOTAVAIL EHOSTDOWN
                EHOSTUNREACH ENETDOWN ENETUNREACH
                nm address message (e :: l) 0%nat false s)
      as (es' & sent & w & evs & Hrun & Ht & Hl).
    set (s1 := {| mgr := with_entries (mgr s)
                           (odict_set nm es' (_entries_by_name (mgr s)));
                  world := w; trace := trace s ++ evs |}).
    destruct (record_result_run nm address (Some (e :: l)) sent s1)
      as (logs & Hrun2 & Ht2).
    eexists. split.
    + rewrite (bind_returns _ _ _ _ _ Hrun). cbn [fst snd].
      unfold bind at 1, get_mgr. unfold bind at 1, put_mgr.
      cbn [mgr world trace]. fold s1. exact Hrun2.
    + cbn [mgr trace]. subst s1.
      cbn [mgr trace with_error_counters with_entries _error_counters
           truthy default].
      rewrite !transmissions_app, Ht, Ht2, app_nil_r.
      split; [reflexivity|]. split; [|split].
      * repeat split. cbn.
        apply same_registry_set with (l := e :: l); assumption.
      * intros k Hk. apply lookup_insert_ne. congruence.
      * discriminate.
  - apply Hfalsy; reflexivity.
Qed.

(** The loop over the targets of an alias with several targets: every
    target that is a key of the registry has its turn, in the order of the
    list, whatever the calls for the earlier ones did; a target that is not
    a key is passed over and its error counter is left alone. *)
Lemma targets_effect (depth : nat) (targets : list string)
    (address : Address AddressType) (message : PacketType) :
  forall s : state_d,
    lists_nonempty (_entries_by_name (mgr s)) ->
    exists s' : state_d,
      for_each targets
        (fun target =>
           bind get_mgr
             (fun self' =>
                if odict_contains target (_entries_by_name self') then
                  d_single (S depth) message (target, address)
                else ret tt)) s
      = (Returns tt, s')
      /\ transmissions (trace s')
         = transmissions (trace s)
           ++ omap (d_attempt address message)
                (entries_of (_entries_by_name (mgr s)) targets)
      /\ same_manager (mgr s) (mgr s')
      /\ (forall k : string,
            odict_get k (_entries_by_name (mgr s)) = None ->
            _error_counters (mgr s') !! k = _error_counters (mgr s) !! k).
Proof.
  induction targets as [|t ts IH]; intros s Hwf.
  - exists s. split; [reflexivity|]. cbn. rewrite app_nil_r.
    split; [reflexivity|]. split; [apply same_manager_refl|]. reflexivity.
  - assert (Hstep :
      exists s1 : state_d,
        bind get_mgr
          (fun self' =>
             if odict_contains t (_entries_by_name self') then
               d_single (S depth) message (t, address)
             else ret tt) s
        = (Returns tt, s1)
        /\ transmissions (trace s1)
           = transmissions (trace s)
             ++ omap (d_attempt address message)
                  (default [] (odict_get t (_entries_by_name (mgr s))))
        /\ same_manager (mgr s) (mgr s1)
        /\ (forall k : string,
              odict_get k (_entries_by_name (mgr s)) = None ->
              _error_counters (mgr s1) !! k
              = _error_counters (mgr s) !! k)).
    { unfold bind at 1, get_mgr. unfold odict_contains.
      destruct (odict_get t (_entries_by_name (mgr s))) as [l|] eqn:Hget.
      - pose proof (lists_nonempty_get _ _ _ Hwf Hget) as Hne.
        rewrite (single_channel_direct channel_send channel_broadcast
                   format_address repr is_positive errorcode EADDRNOTAVAIL
                   EHOSTDOWN EHOSTUNREACH ENETDOWN ENETUNREACH
                   depth t address message s)
          by (rewrite Hget; apply truthy_nonempty, Hne).
        destruct (send_to_entries_effect t address message s)
          as (s1 & Hrun & Htr & Hsame & Hframe & _).
        rewrite Hget in Htr.
        exists s1. split; [exact Hrun|]. split; [exact Htr|].
        split; [exact Hsame|].
        intros k Hk. apply Hframe. congruence.
      - exists s. split; [reflexivity|]. cbn. rewrite app_nil_r.
        split; [reflexivity|]. split; [apply same_manager_refl|].
        reflexivity. }
    destruct Hstep as (s1 & Hrun1 & Htr1 & Hsame1 & Hframe1).
    assert (Hreg1 : same_registry (_entries_by_name (mgr s))
                      (_entries_by_name (mgr s1)))
      by (destruct Hsame1 as (_ & _ & _ & Hreg & _); exact Hreg).
    destruct (IH s1 (same_registry_nonempty _ _ Hreg1 Hwf))
      as (s2 & Hrun2 & Htr2 & Hsame2 & Hframe2).
    exists s2. split; [|split; [|split]].
    + cbn [for_each]. rewrite (bind_returns _ _ _ _ _ Hrun1). exact Hrun2.
    + rewrite Htr2, Htr1,
        (entries_same_registry address message _ _ ts Hreg1).
      change (entries_of (_entries_by_name (mgr s)) (t :: ts))
        with (default [] (odict_get t (_entries_by_name (mgr s)))
              ++ entries_of (_entries_by_name (mgr s)) ts).
      rewrite omap_app, app_assoc. reflexivity.
    + eapply same_manager_trans; eassumption.
    + intros k Hk. rewrite Hframe2; [apply Hframe1, Hk|].
      pose proof (same_registry_get _ _ k Hreg1) as Hget.
      rewrite Hk in Hget.
      destruct (odict_get k (_entries_by_name (mgr s1)));
        [contradiction | reflexivity].
Qed.

(** A dispatch to a name, with room for two nested calls and a registry
    without empty lists: the calls go to the entries of the names that
    [route] gives, in order. *)
Lemma single_channel_effect (depth : nat) (message : PacketType)
    (nm : string) (address : Address AddressType) (s : state_d) :
  lists_nonempty (_entries_by_name (mgr s)) ->
  exists s' : state_d,
    d_single (S (S depth)) message (nm, address) s = (Returns tt, s')
    /\ transmissions (trace s')
       = transmissions (trace s)
         ++ omap (d_attempt address message)
              (entries_of (_entries_by_name (mgr s))
                 (route (_entries_by_name (mgr s)) (_aliases (mgr s)) nm))
    /\ same_manager (mgr s) (mgr s').
Proof.
  intros Hwf. unfold route.
  destruct (truthy (odict_get nm (_entries_by_name (mgr s)))) eqn:Ht.
  - rewrite (single_channel_direct channel_send channel_broadcast
               format_address repr is_positive errorcode EADDRNOTAVAIL
               EHOSTDOWN EHOSTUNREACH ENETDOWN ENETUNREACH
               (S depth) nm address message s Ht).
    destruct (send_to_entries_effect nm address message s)
      as (s' & Hrun & Htr & Hsame & _).
    exists s'. split; [exact Hrun|]. split; [|exact Hsame].
    unfold entries_of. cbn [flat_map]. rewrite app_nil_r. exact Htr.
  - destruct (_aliases (mgr s) !! nm) as [[|t1 [|t2 ts]]|] eqn:Ha.
    + exists s. split; [|split; [|apply same_manager_refl]].
      * cbn [_send_message_to_single_channel].
        unfold bind at 1, get_mgr. rewrite Ht, Ha. reflexivity.
      * cbn. rewrite app_nil_r. reflexivity.
    + rewrite (single_channel_one_target channel_send channel_broadcast
                 format_address repr is_positive errorcode EADDRNOTAVAIL
                 EHOSTDOWN EHOSTUNREACH ENETDOWN ENETUNREACH
                 (S depth) nm t1 address message s Ht Ha).
      destruct (send_to_entries_effect t1 address message s)
        as (s' & Hrun & Htr & Hsame & _).
      exists s'. split; [exact Hrun|]. split; [|exact Hsame].
      unfold entries_of. cbn [default from_option id flat_map].
      rewrite app_nil_r. exact Htr.
    + rewrite (single_channel_many_targets channel_send channel_broadcast
                 format_address repr is_positive errorcode EADDRNOTAVAIL
                 EHOSTDOWN EHOSTUNREACH ENETDOWN ENETUNREACH
                 (S depth) nm (t1 :: t2 :: ts) address message s Ht Ha)
        by (cbn; lia).
      destruct (targets_effect depth (t1 :: t2 :: ts) address message s Hwf)
        as (s' & Hrun & Htr & Hsame & _).
      exists s'. split; [exact Hrun|]. split; [exact Htr | exact Hsame].
    + exists s. split; [|split; [|apply same_manager_refl]].
      * apply (unknown_name_is_dropped channel_send channel_broadcast
                 format_address repr is_positive errorcode EADDRNOTAVAIL
                 EHOSTDOWN EHOSTUNREACH ENETDOWN ENETUNREACH);
          assumption.
      * cbn. rewrite app_nil_r. reflexivity.
Qed.

(** C5 (as the code has it). For a name without entries the alias table
    is consulted once, and the registry alone says what each target stands
    for.  Whatever the channels do, the dispatch returns, and the calls made
    on channels are those for the entries registered under the targets,
    target after target in the order of the alias and entry after entry in
    the order of registration: every target has its turn, none is kept from
    it by what the calls for an earlier one raised.  A target without
    entries in the registry, an alias for instance, contributes no call: an
    alias of an alias is not followed.  When such a target is the only one
    of the alias, the send counts as failed for it and its error counter
    goes up by one; when the alias has several targets, it is passed over
    and its error counter is left alone.  Nothing else changes in the
    manager but error counts and error counters. *)
Theorem alias_resolution (depth : nat) (nm : string)
    (address : Address AddressType) (message : PacketType) (s : state_d) :
  truthy (odict_get nm (_entries_by_name (mgr s))) = false ->
  lists_nonempty (_entries_by_name (mgr s)) ->
  exists s' : state_d,
    d_single (S (S depth)) message (nm, address) s = (Returns tt, s')
    /\ transmissions (trace s')
       = transmissions (trace s)
         ++ omap (d_attempt address message)
              (entries_of (_entries_by_name (mgr s))
                 (default [] (_aliases (mgr s) !! nm)))
    /\ same_manager (mgr s) (mgr s')
    /\ (forall target : string,
          _aliases (mgr s) !! nm = Some [target] ->
          odict_get target (_entries_by_name (mgr s)) = None ->
          _error_counters (mgr s') !! target
          = Some (default 0 (_error_counters (mgr s) !! target) + 1))
    /\ (forall (targets : list string) (target : string),
          _aliases (mgr s) !! nm = Some targets ->
          (2 <= length targets)%nat ->
          odict_get target (_entries_by_name (mgr s)) = None ->
          _error_counters (mgr s') !! target
          = _error_counters (mgr s) !! target).
Proof.
  intros Ht Hwf.
  destruct (_aliases (mgr s) !! nm) as [[|t1 [|t2 ts]]|] eqn:Ha.
  - exists s. split; [|split; [|split; [|split]]].
    + cbn [_send_message_to_single_channel].
      unfold bind at 1, get_mgr. rewrite Ht, Ha. reflexivity.
    + cbn. rewrite app_nil_r. reflexivity.
    + apply same_manager_refl.
    + discriminate.
    + intros targets target [= <-]. cbn. lia.
  - rewrite (single_channel_one_target channel_send channel_broadcast
               format_address repr is_positive errorcode EADDRNOTAVAIL
               EHOSTDOWN EHOSTUNREACH ENETDOWN ENETUNREACH
               (S depth) nm t1 address message s Ht Ha).
    destruct (send_to_entries_effect t1 address message s)
      as (s' & Hrun & Htr & Hsame & _ & Hcount).
    exists s'. split; [exact Hrun|]. split; [|split; [exact Hsame|split]].
    + unfold entries_of. cbn [default from_option id flat_map].
      rewrite app_nil_r. exact Htr.
    + intros target [= <-] Hnone. apply Hcount. rewrite Hnone. reflexivity.
    + intros targets target [= <-]. cbn. lia.
  - rewrite (single_channel_many_targets channel_send channel_broadcast
               format_address repr is_positive errorcode EADDRNOTAVAIL
               EHOSTDOWN EHOSTUNREACH ENETDOWN ENETUNREACH
               (S depth) nm (t1 :: t2 :: ts) address message s Ht Ha)
      by (cbn; lia).
    destruct (targets_effect depth (t1 :: t2 :: ts) address message s Hwf)
      as (s' & Hrun & Htr & Hsame & Hframe).
    exists s'. split; [exact Hrun|]. split; [exact Htr|].
    split; [exact Hsame|]. split.
    + discriminate.
    + intros targets target _ _ Hnone. apply Hframe, Hnone.
  - exists s. split; [|split; [|split; [|split]]].
    + apply (unknown_name_is_dropped channel_send channel_broadcast
               format_address repr is_positive errorcode EADDRNOTAVAIL
               EHOSTDOWN EHOSTUNREACH ENETDOWN ENETUNREACH);
        assumption.
    + cbn. rewrite app_nil_r. reflexivity.
    + apply same_manager_refl.
    + discriminate.
    + discriminate.
Qed.

(** ** The outbound task *)

Abbreviation d_task :=
  (@_run_outbound_links
     Connection Channel PacketType AddressType World Seconds
     channel_send channel_broadcast format_address repr is_positive
     errorcode EADDRNOTAVAIL EHOSTDOWN EHOSTUNREACH ENETDOWN ENETUNREACH).
Abbreviation d_turn :=
  (@take_turn
     Connection Channel PacketType AddressType World Seconds
     channel_send channel_broadcast format_address repr is_positive
     errorcode EADDRNOTAVAIL EHOSTDOWN EHOSTUNREACH ENETDOWN ENETUNREACH).
Abbreviation queue_d := (@MemorySendChannel PacketType AddressType).
Abbreviation item_d := (PacketType * Destination AddressType)%type.

Lemma broadcast_of_same_link (message : PacketType) (e e' : entry_d) :
  same_link e e' -> d_broadcast_of message e' = d_broadcast_of message e.
Proof.
  intros (_ & _ & Hb & _ & Hc). unfold broadcast_of. rewrite Hb, Hc.
  reflexivity.
Qed.

Lemma broadcasts_same_registry (message : PacketType)
    (d d' : odict (list entry_d)) :
  same_registry d d' ->
  omap (d_broadcast_of message) (concat (odict_values d'))
  = omap (d_broadcast_of message) (concat (odict_values d)).
Proof.
  unfold same_registry, odict_values.
  induction 1 as [|kv kv' d d' [_ Hv] _ IH]; [reflexivity|].
  cbn [map concat]. rewrite !omap_app, IH. f_equal.
  clear -Hv. unfold same_links in Hv.
  induction Hv as [|e e' l l' He _ IHl]; [reflexivity|].
  cbn [omap list_omap]. rewrite (broadcast_of_same_link message e e' He).
  fold (omap (d_broadcast_of message) l').
  fold (omap (d_broadcast_of message) l).
  rewrite IHl. reflexivity.
Qed.

(** What the dispatch of an item puts on the wire depends on the registry
    through names, channels and flags only, not through error counts. *)
Lemma expected_same_registry (d d' : odict (list entry_d))
    (aliases : gmap string (list string)) (item : item_d) :
  same_registry d d' ->
  d_expected d' aliases item = d_expected d aliases item.
Proof.
  intros Hreg. unfold expected_calls.
  destruct (snd item) as [|nm address].
  - apply broadcasts_same_registry, Hreg.
  - unfold route. rewrite (same_registry_truthy d d' nm Hreg).
    apply entries_same_registry, Hreg.
Qed.

Lemma flat_map_expected_same (d d' : odict (list entry_d))
    (aliases : gmap string (list string)) (items : list item_d) :
  same_registry d d' ->
  flat_map (d_expected d' aliases) items
  = flat_map (d_expected d aliases) items.
Proof.
  intros Hreg. induction items as [|item items IH]; [reflexivity|].
  cbn [flat_map]. rewrite IH, (expected_same_registry d d' aliases item Hreg).
  reflexivity.
Qed.

Lemma transmissions_broadcasts (message : PacketType) (l : list entry_d) :
  transmissions (omap (d_broadcast_of message) l)
  = omap (d_broadcast_of message) l.
Proof.
  unfold transmissions.
  induction l as [|e l IH]; [reflexivity|].
  cbn [omap list_omap].
  fold (omap (d_broadcast_of message) l).
  destruct (d_broadcast_of message e) as [ev|] eqn:Hev; [|exact IH].
  assert (Hcall : is_transmission ev = true).
  { unfold broadcast_of in Hev.
    destruct (can_broadcast e); [|discriminate].
    destruct (channel e); [|discriminate].
    injection Hev as <-. reflexivity. }
  cbn [List.filter]. rewrite Hcall. f_equal. exact IH.
Qed.

(** One turn of the loop of the outbound task, once it has its item: the
    dispatch returns whatever the channels do, makes the calls of
    [expected_calls], and changes nothing in the manager but error counts
    and error counters. *)
Lemma dispatch_effect (depth : nat) (item : item_d) (s : state_d) :
  lists_nonempty (_entries_by_name (mgr s)) ->
  exists s' : state_d,
    d_dispatch (S (S depth)) item s = (Returns tt, s')
    /\ transmissions (trace s')
       = transmissions (trace s)
         ++ d_expected (_entries_by_name (mgr s)) (_aliases (mgr s)) item
    /\ same_manager (mgr s) (mgr s').
Proof.
  intros Hwf. destruct item as [message [|nm address]];
    unfold dispatch, expected_calls; cbn [fst snd].
  - destruct (broadcast_lists_trace channel_broadcast message
                (odict_values (_entries_by_name (mgr s))) s) as [w Hrun].
    eexists. split; [|split].
    + unfold _send_message_to_all_channels, bind, get_mgr. exact Hrun.
    + cbn [trace]. rewrite transmissions_app, transmissions_broadcasts.
      reflexivity.
    + cbn [mgr]. apply same_manager_refl.
  - apply single_channel_effect, Hwf.
Qed.

(** The loop of the outbound task on a buffer that holds fewer items than
    the loop is allowed turns: the items leave the buffer one after the
    other, oldest first, each is dispatched, and the loop ends up waiting
    on an empty buffer. *)
Lemma outbound_inner_run (depth steps : nat) :
  forall (queue : queue_d) (s : state_d),
    _outbound_tx_queue (mgr s) = Some queue ->
    lists_nonempty (_entries_by_name (mgr s)) ->
    (length (buffer queue) < steps)%nat ->
    exists s' : state_d,
      d_outbound_inner (S (S depth)) steps s = (Returns Waiting, s')
      /\ transmissions (trace s')
         = transmissions (trace s)
           ++ flat_map
                (d_expected (_entries_by_name (mgr s)) (_aliases (mgr s)))
                (buffer queue)
      /\ _outbound_tx_queue (mgr s')
         = Some {| buffer := [];
                   max_buffer_size := max_buffer_size queue |}
      /\ same_manager
           (with_queue (mgr s)
              (Some {| buffer := [];
                       max_buffer_size := max_buffer_size queue |}))
           (mgr s')
      /\ lists_nonempty (_entries_by_name (mgr s')).
Proof.
  induction steps as [|steps IH]; intros queue s Hq Hwf Hlen; [lia|].
  cbn [_run_outbound_links_inner]. unfold bind at 1, queue_receive.
  rewrite Hq. destruct queue as [[|item rest] size]; cbn [buffer] in *.
  - exists s. split; [reflexivity|]. cbn [flat_map max_buffer_size].
    rewrite app_nil_r. split; [reflexivity|]. split; [exact Hq|].
    split; [|exact Hwf].
    unfold same_manager. cbn. rewrite Hq.
    repeat split. apply same_registry_refl.
  - cbn [max_buffer_size].
    set (s0 := {| mgr := with_queue (mgr s)
                           (Some {| buffer := rest;
                                    max_buffer_size := size |});
                  world := world s; trace := trace s |}).
    destruct (dispatch_effect depth item s0 Hwf)
      as (s1 & Hrun1 & Htr1 & Hsame1).
    destruct Hsame1 as (Hd1 & Hl1 & Ha1 & Hreg1 & Hr1 & Hq1).
    cbn [mgr with_queue broadcast_delay error_limit _aliases
         _entries_by_name _running _outbound_tx_queue trace s0]
      in Htr1, Hd1, Hl1, Ha1, Hreg1, Hr1, Hq1.
    destruct (IH {| buffer := rest; max_buffer_size := size |} s1 Hq1
                 (same_registry_nonempty _ _ Hreg1 Hwf))
      as (s2 & Hrun2 & Htr2 & Hq2 & Hsame2 & Hwf2);
      [cbn in *; lia|].
    destruct Hsame2 as (Hd2 & Hl2 & Ha2 & Hreg2 & Hr2 & _).
    cbn [mgr with_queue broadcast_delay error_limit _aliases
         _entries_by_name _running buffer max_buffer_size]
      in Htr2, Hq2, Hd2, Hl2, Ha2, Hreg2, Hr2.
    exists s2. split; [|split; [|split; [|split]]].
    + unfold bind at 1. rewrite Hrun1. exact Hrun2.
    + rewrite Htr2, Htr1, Ha1,
        (flat_map_expected_same _ _ _ rest Hreg1).
      cbn [flat_map]. rewrite app_assoc. reflexivity.
    + exact Hq2.
    + unfold same_manager. cbn. rewrite Hq2.
      repeat split; try congruence.
      eapply same_registry_trans; eassumption.
    + exact Hwf2.
Qed.

(** X8. The loop of the outbound task consumes the queue that the
    submitting methods fill.  From a buffer that holds fewer items than the
    loop is allowed turns, with a registry filled by [add] and room for two
    nested calls, and whatever the channels do: the loop returns to wait on
    an empty buffer; every item that was in the buffer has been dispatched,
    oldest first, the calls made on channels being those of
    [expected_calls] for one item after the other; no exception of a
    channel ends the loop; and but for the buffer, the error counts of the
    entries and the error counters of the names the manager is as it was,
    so that the registry is fit for the next items in the same way. *)
Theorem outbound_loop_survives (depth steps : nat) (queue : queue_d)
    (s : state_d) :
  _outbound_tx_queue (mgr s) = Some queue ->
  lists_nonempty (_entries_by_name (mgr s)) ->
  (length (buffer queue) < steps)%nat ->
  exists s' : state_d,
    d_outbound_inner (S (S depth)) steps s = (Returns Waiting, s')
    /\ transmissions (trace s')
       = transmissions (trace s)
         ++ flat_map
              (d_expected (_entries_by_name (mgr s)) (_aliases (mgr s)))
              (buffer queue)
    /\ _outbound_tx_queue (mgr s')
       = Some {| buffer := []; max_buffer_size := max_buffer_size queue |}
    /\ same_manager
         (with_queue (mgr s)
            (Some {| buffer := [];
                     max_buffer_size := max_buffer_size queue |}))
         (mgr s')
    /\ lists_nonempty (_entries_by_name (mgr s')).
Proof. intros Hq Hwf Hlen. exact (outbound_inner_run depth steps queue s Hq Hwf Hlen). Qed.

Lemma for_each_app {A : Type} (l1 l2 : list A)
    (body : A -> action_d unit) (s : state_d) :
  for_each (l1 ++ l2) body s
  = bind (for_each l1 body) (fun _ => for_each l2 body) s.
Proof.
  revert s. induction l1 as [|x l1 IH]; intros s; [reflexivity|].
  cbn [app for_each]. unfold bind.
  destruct (body x s) as [[[]|ex] s1]; [|reflexivity].
  rewrite IH. reflexivity.
Qed.

Lemma submitted_app (l1 l2 : list (@Turn PacketType AddressType)) :
  submitted (l1 ++ l2) = submitted l1 ++ submitted l2.
Proof. unfold submitted. apply omap_app. Qed.

(** With the queue in place, the two submitting methods that wait come
    down to [queue.send] of their item. *)
Lemma submit_open (self : manager_d) (queue : queue_d)
    (call : @Submission PacketType AddressType) :
  _outbound_tx_queue self = Some queue ->
  submit self call = queue_send self queue (item_of call).
Proof.
  intros Hq. destruct call as [packet destination|packet destination allow];
    cbn [submit item_of]; unfold send_packet, broadcast_packet;
    rewrite Hq; reflexivity.
Qed.

(** One turn of the tasks while the queue of 256 places is installed: the
    turn returns, the queue stays installed, and the items dispatched so
    far followed by those that wait are the items submitted so far. *)
Lemma take_turn_run (depth steps : nat)
    (turn : @Turn PacketType AddressType) (queue : queue_d) (s : state_d) :
  _outbound_tx_queue (mgr s) = Some queue ->
  max_buffer_size queue = 256%nat ->
  (length (buffer queue) <= 256)%nat ->
  (256 < steps)%nat ->
  lists_nonempty (_entries_by_name (mgr s)) ->
  exists (s' : state_d) (queue' : queue_d),
    d_turn (S (S depth)) steps turn s = (Returns tt, s')
    /\ _outbound_tx_queue (mgr s') = Some queue'
    /\ max_buffer_size queue' = 256%nat
    /\ (length (buffer queue') <= 256)%nat
    /\ transmissions (trace s')
       ++ flat_map
            (d_expected (_entries_by_name (mgr s)) (_aliases (mgr s)))
            (buffer queue')
       = transmissions (trace s)
         ++ flat_map
              (d_expected (_entries_by_name (mgr s)) (_aliases (mgr s)))
              (buffer queue ++ submitted [turn])
    /\ (turn = LoopRuns -> buffer queue' = [])
    /\ same_manager (with_queue (mgr s) (Some queue')) (mgr s')
    /\ lists_nonempty (_entries_by_name (mgr s')).
Proof.
  intros Hq Hmax Hlen Hsteps Hwf.
  destruct (outbound_inner_run depth steps queue s Hq Hwf ltac:(lia))
    as (s1 & Hrun1 & Htr1 & Hq1 & Hsame1 & Hwf1).
  destruct turn as [call|]; cbn [take_turn].
  - unfold bind at 1, get_mgr. rewrite (submit_open _ queue call Hq).
    unfold queue_send at 1. rewrite Hmax.
    destruct (length (buffer queue) <? 256)%nat eqn:Hroom.
    + apply Nat.ltb_lt in Hroom.
      eexists; eexists. split; [reflexivity|]. split; [reflexivity|].
      cbn [mgr trace with_queue _outbound_tx_queue _entries_by_name
           _aliases buffer max_buffer_size submitted omap list_omap].
      split; [reflexivity|].
      split; [rewrite length_app; cbn; lia|].
      split; [reflexivity|]. split; [discriminate|].
      split; [apply same_manager_refl | exact Hwf].
    + unfold bind at 1. rewrite Hrun1. unfold bind at 1, get_mgr.
      rewrite (submit_open _ _ call Hq1).
      unfold queue_send at 1. cbn [buffer max_buffer_size length].
      rewrite Hmax. cbn [Nat.ltb Nat.leb].
      eexists; eexists. split; [reflexivity|]. split; [reflexivity|].
      cbn [mgr trace with_queue _outbound_tx_queue _entries_by_name
           _aliases buffer max_buffer_size submitted omap list_omap app].
      split; [reflexivity|].
      split; [cbn; lia|].
      split; [rewrite Htr1, flat_map_app, app_assoc; reflexivity|].
      split; [discriminate|].
      destruct Hsame1 as (Hd & Hl & Ha & Hreg & Hr & _).
      split; [|exact Hwf1].
      unfold same_manager. cbn in *. repeat split; assumption.
  - unfold bind at 1. rewrite Hrun1.
    exists s1; eexists. split; [reflexivity|]. split; [exact Hq1|].
    cbn [buffer max_buffer_size length flat_map submitted omap list_omap].
    split; [exact Hmax|]. split; [lia|].
    split; [rewrite !app_nil_r; exact Htr1|].
    split; [reflexivity|].
    split; [exact Hsame1 | exact Hwf1].
Qed.

Lemma schedule_run (depth steps : nat)
    (schedule : list (@Turn PacketType AddressType)) :
  forall (queue : queue_d) (s : state_d),
    _outbound_tx_queue (mgr s) = Some queue ->
    max_buffer_size queue = 256%nat ->
    (length (buffer queue) <= 256)%nat ->
    (256 < steps)%nat ->
    lists_nonempty (_entries_by_name (mgr s)) ->
    exists (s' : state_d) (queue' : queue_d),
      for_each schedule (d_turn (S (S depth)) steps) s = (Returns tt, s')
      /\ _outbound_tx_queue (mgr s') = Some queue'
      /\ max_buffer_size queue' = 256%nat
      /\ (length (buffer queue') <= 256)%nat
      /\ transmissions (trace s')
         ++ flat_map
              (d_expected (_entries_by_name (mgr s)) (_aliases (mgr s)))
              (buffer queue')
         = transmissions (trace s)
           ++ flat_map
                (d_expected (_entries_by_name (mgr s)) (_aliases (mgr s)))
                (buffer queue ++ submitted schedule)
      /\ same_manager (with_queue (mgr s) (Some queue')) (mgr s')
      /\ lists_nonempty (_entries_by_name (mgr s')).
Proof.
  induction schedule as [|turn schedule IH];
    intros queue s Hq Hmax Hlen Hsteps Hwf.
  - exists s, queue. split; [reflexivity|]. split; [exact Hq|].
    split; [exact Hmax|]. split; [exact Hlen|].
    cbn [submitted omap list_omap]. rewrite app_nil_r.
    split; [reflexivity|]. split; [|exact Hwf].
    unfold same_manager. cbn. rewrite Hq. repeat split.
    apply same_registry_refl.
  - destruct (take_turn_run depth steps turn queue s Hq Hmax Hlen Hsteps
                Hwf)
      as (s1 & queue1 & Hrun1 & Hq1 & Hmax1 & Hlen1 & Htr1 & _ & Hsame1
          & Hwf1).
    destruct (IH queue1 s1 Hq1 Hmax1 Hlen1 Hsteps Hwf1)
      as (s2 & queue2 & Hrun2 & Hq2 & Hmax2 & Hlen2 & Htr2 & Hsame2 & Hwf2).
    destruct Hsame1 as (Hd1 & Hl1 & Ha1 & Hreg1 & Hr1 & _).
    destruct Hsame2 as (Hd2 & Hl2 & Ha2 & Hreg2 & Hr2 & _).
    cbn [with_queue broadcast_delay error_limit _aliases _entries_by_name
         _running] in Hd1, Hl1, Ha1, Hreg1, Hr1, Hd2, Hl2, Ha2, Hreg2, Hr2.
    exists s2, queue2. split; [|split; [|split; [|split; [|split; [|split]]]]].
    + cbn [for_each]. unfold bind at 1. rewrite Hrun1. exact Hrun2.
    + exact Hq2.
    + exact Hmax2.
    + exact Hlen2.
    + rewrite Ha1, !(flat_map_expected_same _ _ _ _ Hreg1) in Htr2.
      rewrite Htr2.
      change (turn :: schedule) with ([turn] ++ schedule).
      rewrite (submitted_app [turn] schedule).
      rewrite (flat_map_app _ (buffer queue1)), app_assoc, Htr1.
      rewrite !flat_map_app, !app_assoc. reflexivity.
    + unfold same_manager. cbn. rewrite Hq2.
      repeat split; try congruence.
      eapply same_registry_trans; eassumption.
    + exact Hwf2.
Qed.


(** X10. A packet for an alias with a single registered target is handled
    exactly as a packet for the target itself: same calls on the channels,
    same log, same error counts, and the error counter that moves is the one
    of the target, not one of the alias. *)
Theorem alias_behaves_as_its_target (depth depth' : nat)
    (alias target : string) (address : Address AddressType)
    (message : PacketType) (s : state_d) :
  truthy (odict_get alias (_entries_by_name (mgr s))) = false ->
  _aliases (mgr s) !! alias = Some [target] ->
  truthy (odict_get target (_entries_by_name (mgr s))) = true ->
  d_single (S depth) message (alias, address) s
  = d_single (S depth') message (target, address) s.
Proof.
  intros Ht Ha Htarget.
  rewrite (single_channel_one_target channel_send channel_broadcast
             format_address repr is_positive errorcode EADDRNOTAVAIL
             EHOSTDOWN EHOSTUNREACH ENETDOWN ENETUNREACH
             depth alias target address message s Ht Ha).
  rewrite (single_channel_direct channel_send channel_broadcast
             format_address repr is_positive errorcode EADDRNOTAVAIL
             EHOSTDOWN EHOSTUNREACH ENETDOWN ENETUNREACH
             depth' target address message s Htarget).
  reflexivity.
Qed.

(** ** Failures and recoveries *)

Lemma odict_set_same {V : Type} (k : string) (v : V) (d : odict V) :
  odict_get k d = Some v -> odict_set k v d = d.
Proof.
  induction d as [|[k' v'] d IH]; cbn; [discriminate|].
  destruct (decide (k = k')) as [->|Hne].
  - intros [= ->]. reflexivity.
  - intros Hget. rewrite (IH Hget). reflexivity.
Qed.

Lemma with_entries_same (self : manager_d) :
  with_entries self (_entries_by_name self) = self.
Proof. destruct self; reflexivity. Qed.

Lemma send_loop_closed (nm : string) (address : Address AddressType)
    (message : PacketType) (entries : list entry_d) :
  Forall (fun e => is_open e && can_send e = false) entries ->
  forall (index : nat) (sent : bool) (s : state_d),
    d_loop nm address message index entries sent s
    = (Returns (entries, sent), s).
Proof.
  induction 1 as [|e entries He _ IH]; intros index sent s; [reflexivity|].
  cbn [send_loop]. unfold bind at 1. unfold send_on_entry. rewrite He.
  unfold ret at 1. cbn [fst snd]. unfold bind. rewrite IH. reflexivity.
Qed.

(** X11. A packet for a name whose entries are all closed, or unable to
    send, reaches no channel and changes no entry; it counts as one more
    failure of the name, and the warning that the message is dropped is
    written only while the failures in a row do not exceed the error limit,
    and never for a broadcast address. *)
Theorem closed_name_counts_failure (depth : nat) (nm : string)
    (address : Address AddressType) (message : PacketType) (s : state_d)
    (entries : list entry_d) :
  odict_get nm (_entries_by_name (mgr s)) = Some entries ->
  entries <> [] ->
  Forall (fun e => is_open e && can_send e = false) entries ->
  let failures := default 0 (_error_counters (mgr s) !! nm) + 1 in
  d_single (S depth) message (nm, address) s
  = (Returns tt,
     {| mgr := with_error_counters (mgr s)
                 (<[nm := failures]> (_error_counters (mgr s)));
        world := world s;
        trace :=
          trace s
          ++ (if negb (is_BROADCAST address)
                 && (failures <=? error_limit (mgr s))
              then
                [Logged
                   {| level := WARNING;
                      message :=
                        "Dropping outbound message, sending failed on all channels";
                      extra_id := nm; telemetry_ignore := true;
                      exc_info := false |}]
              else []) |}).
Proof.
  intros Hget Hne Hclosed failures.
  rewrite (single_channel_direct channel_send channel_broadcast
             format_address repr is_positive errorcode EADDRNOTAVAIL
             EHOSTDOWN EHOSTUNREACH ENETDOWN ENETUNREACH
             depth nm address message s)
    by (rewrite Hget; apply truthy_nonempty, Hne).
  rewrite Hget. destruct entries as [|e l]; [contradiction|].
  cbn [send_to_entries].
  rewrite (bind_returns _ _ _ _ _
             (send_loop_closed nm address message (e :: l) Hclosed
                0%nat false s)).
  cbn [fst snd]. unfold bind at 1, get_mgr. unfold bind at 1, put_mgr.
  rewrite (odict_set_same _ _ _ Hget), with_entries_same.
  unfold record_result, bind, get_mgr, put_mgr. cbn [mgr world trace truthy].
  fold failures.
  destruct (negb (is_BROADCAST address)); cbn [andb].
  - destruct (failures <=? error_limit (mgr s)); [reflexivity|].
    unfold ret. rewrite app_nil_r. reflexivity.
  - unfold ret. rewrite app_nil_r. reflexivity.
Qed.

(** X12. When the call on an entry returns, the turn of the loop reports a
    success, brings a positive error count of the entry back to 0 and, if it
    was positive, writes that the channel resumed normal operation; after a
    broadcast it first pauses for [broadcast_delay] when that is positive. *)
Theorem successful_call_clears_error_count (nm : string)
    (address : Address AddressType) (message : PacketType) (index : nat)
    (e : entry_d) (sent : bool) (s : state_d) (ev : event_d) (w1 : World) :
  attempt_outcome channel_send channel_broadcast address message e (world s)
  = Some (ev, None, w1) ->
  d_on_entry nm address message index e sent s
  = (Returns (snd (reset_error_count e), true),
     {| mgr := mgr s; world := w1;
        trace :=
          trace s ++ [ev]
          ++ (if is_BROADCAST address
                 && is_positive (broadcast_delay (mgr s))
              then [Sleep (broadcast_delay (mgr s))] else [])
          ++ (if fst (reset_error_count e)
              then
                [Logged
                   {| level := INFO;
                      message := "Channel resumed normal operation";
                      extra_id := format_id nm index;
                      telemetry_ignore := false; exc_info := false |}]
              else []) |})
  /\ _error_count (snd (reset_error_count e)) = Z.min (_error_count e) 0
  /\ (fst (reset_error_count e) = true <-> 0 < _error_count e).
Proof.
  intros Hout. split.
  - unfold attempt_outcome in Hout. unfold send_on_entry, is_open.
    destruct (channel e) as [ch|] eqn:Hch; [|discriminate].
    destruct (can_send e); [|discriminate]. cbn [andb].
    destruct address as [|a]; cbn [is_BROADCAST andb] in *.
    + destruct (can_broadcast e); [|discriminate].
      destruct (channel_broadcast ch message (world s)) as [r w'] eqn:Hcall.
      injection Hout as <- -> ->.
      unfold try_except, bind, call_broadcast, get_mgr. rewrite Hcall.
      cbn [mgr world trace].
      destruct (is_positive (broadcast_delay (mgr s)));
        unfold emit, ret; cbn [mgr world trace];
        destruct (reset_error_count e) as [[|] e']; cbn [fst snd];
        unfold log_info, emit, ret; cbn [mgr world trace];
        rewrite <- ?app_assoc, ?app_nil_r; reflexivity.
    + destruct (channel_send ch message (Unicast a) (world s)) as [r w']
        eqn:Hcall.
      injection Hout as <- -> ->.
      unfold try_except, bind, call_send. rewrite Hcall.
      cbn [mgr world trace]. unfold ret.
      destruct (reset_error_count e) as [[|] e']; cbn [fst snd];
        unfold log_info, emit, ret; cbn [mgr world trace];
        rewrite <- ?app_assoc, ?app_nil_r; reflexivity.
  - unfold reset_error_count.
    destruct (Z.gtb_spec (_error_count e) 0); cbn [fst snd _error_count];
      split; try lia; split; intros; try lia; try discriminate; reflexivity.
Qed.

(** X13. The error limit silences the handler of transmission errors: once
    the errors in a row exceed the limit, a further error only advances the
    error count of the entry, and nothing is written to the log. *)
Theorem errors_beyond_limit_are_silent (ex : Exception)
    (address : Address AddressType) (e : entry_d) (index : nat)
    (s : state_d) :
  error_limit (mgr s) < _error_count e + 1 ->
  d_handle_tx_error ex address e index s
  = (Returns (snd (notify_error e (error_limit (mgr s)))), s)
  /\ _error_count (snd (notify_error e (error_limit (mgr s))))
     = _error_count e + 1.
Proof.
  intros Hgt. split.
  - unfold _handle_tx_error. unfold bind at 1, get_mgr.
    unfold notify_error. cbn [_error_count].
    destruct (Z.gtb_spec (_error_count e + 1) (error_limit (mgr s)));
      [|lia].
    cbn [snd]. destruct (decide (SKIP_LOGGING = SKIP_LOGGING));
      [reflexivity | contradiction].
  - unfold notify_error. cbn.
    destruct (_ >? _); [reflexivity|]. destruct (_ =? _); reflexivity.
Qed.


(** X14. Until the error limit is passed, the handler of transmission
    errors writes one [ERROR] record for the error, then, only for the error
    that brings the count of the entry to the limit, the notice that error
    reporting is suspended, and last, for every exception that is not an
    [OSError], the record with the traceback. *)
Theorem suspension_is_announced_at_limit (ex : Exception)
    (address : Address AddressType) (e : entry_d) (index : nat)
    (s : state_d) :
  _error_count e + 1 <= error_limit (mgr s) ->
  exists first : LogRecord,
    level first = ERROR
    /\ extra_id first = format_id (name e) index
    /\ d_handle_tx_error ex address e index s
       = (Returns (snd (notify_error e (error_limit (mgr s)))),
          {| mgr := mgr s; world := world s;
             trace :=
               trace s
               ++ [Logged first]
               ++ (if decide (_error_count e + 1 = error_limit (mgr s))
                   then
                     [Logged
                        {| level := WARNING;
                           message :=
                             "Error reporting suspended until the connection recovers";
                           extra_id := format_id (name e) index;
                           telemetry_ignore := true; exc_info := false |}]
                   else [])
               ++ (if isinstance_OSError ex then []
                   else
                     [Logged
                        {| level := ERROR;
                           message := "Error while sending message";
                           extra_id := format_id (name e) index;
                           telemetry_ignore := false;
                           exc_info := true |}]) |}).
Proof.
  intros Hle. unfold _handle_tx_error. unfold bind at 1, get_mgr.
  unfold notify_error. cbn [_error_count].
  destruct (Z.gtb_spec (_error_count e + 1) (error_limit (mgr s))); [lia|].
  assert (Hfirst :
    forall (act : ErrorAction) (m : action_d unit) (first : LogRecord),
      level first = ERROR ->
      extra_id first = format_id (name e) index ->
      (forall s0 : state_d,
          m s0 = (Returns tt,
                  {| mgr := mgr s0; world := world s0;
                     trace := trace s0 ++ [Logged first] |})) ->
      exists first0 : LogRecord,
        level first0 = ERROR
        /\ extra_id first0 = format_id (name e) index
        /\ bind m
             (fun _ =>
                bind
                  (if decide (act = LOG_AND_SUSPEND) then
                     log_warning
                       "Error reporting suspended until the connection recovers"
                       (format_id (name e) index) true
                   else ret tt)
                  (fun _ =>
                     bind
                       (if negb (isinstance_OSError ex) then
                          log_exception "Error while sending message"
                            (format_id (name e) index)
                        else ret tt)
                       (fun _ =>
                          ret {| connection := connection e; name := name e;
                                 can_broadcast := can_broadcast e;
                                 can_send := can_send e;
                                 channel := channel e;
                                 _error_count := _error_count e + 1 |}))) s
           = (Returns {| connection := connection e; name := name e;
                         can_broadcast := can_broadcast e;
                         can_send := can_send e; channel := channel e;
                         _error_count := _error_count e + 1 |},
              {| mgr := mgr s; world := world s;
                 trace :=
                   trace s ++ [Logged first0]
                   ++ (if decide (act = LOG_AND_SUSPEND)
                       then
                         [Logged
                            {| level := WARNING;
                               message :=
                                 "Error reporting suspended until the connection recovers";
                               extra_id := format_id (name e) index;
                               telemetry_ignore := true;
                               exc_info := false |}]
                       else [])
                   ++ (if isinstance_OSError ex then []
                       else
                         [Logged
                            {| level := ERROR;
                               message := "Error while sending message";
                               extra_id := format_id (name e) index;
                               telemetry_ignore := false;
                               exc_info := true |}]) |})).
  { intros act m first Hlevel Hid Hm. exists first.
    split; [exact Hlevel|]. split; [exact Hid|].
    unfold bind at 1. rewrite Hm.
    destruct (decide (act = LOG_AND_SUSPEND));
      destruct (isinstance_OSError ex);
      unfold bind, log_warning, log_exception, emit, ret;
      cbn [mgr world trace negb];
      rewrite <- ?app_assoc, ?app_nil_r; reflexivity. }
  assert (Hos :
    forall errno : option Z,
      exists first : LogRecord,
        level first = ERROR
        /\ extra_id first = format_id (name e) index
        /\ forall s0 : state_d,
             _log_os_error_during_tx errorcode EADDRNOTAVAIL EHOSTDOWN
               EHOSTUNREACH ENETDOWN ENETUNREACH errno
               match address with
               | BROADCAST => ""
               | Unicast a =>
                   match format_address a with
                   | Returns text => text
                   | Raises _ => repr address
                   end
               end (format_id (name e) index) s0
             = (Returns tt,
                {| mgr := mgr s0; world := world s0;
                   trace := trace s0 ++ [Logged first] |})).
  { intros errno. unfold _log_os_error_during_tx.
    destruct (errno_in errno _);
      [eexists; split; [|split; [|intros s0; reflexivity]]; reflexivity|].
    destruct (errno_in errno _);
      eexists; (split; [|split; [|intros s0; reflexivity]]); reflexivity. }
  destruct (Z.eqb_spec (_error_count e + 1) (error_limit (mgr s)))
    as [Heq|Hneq]; cbn [snd name].
  - destruct (decide (LOG_AND_SUSPEND = SKIP_LOGGING)); [discriminate|].
    destruct (decide (_error_count e + 1 = error_limit (mgr s)));
      [|contradiction].
    destruct ex as [errno| | | | | | | |];
      try (apply (Hfirst LOG_AND_SUSPEND _
                    {| level := ERROR;
                       message := "Error while sending message";
                       extra_id := format_id (name e) index;
                       telemetry_ignore := false; exc_info := false |});
           [reflexivity | reflexivity | intros s0; reflexivity]).
    + destruct (Hos errno) as (first & Hlevel & Hid & Hm).
      exact (Hfirst LOG_AND_SUSPEND _ first Hlevel Hid Hm).
    + apply (Hfirst LOG_AND_SUSPEND _
               {| level := ERROR; message := "Channel is broken";
                  extra_id := format_id (name e) index;
                  telemetry_ignore := false; exc_info := false |});
        [reflexivity | reflexivity | intros s0; reflexivity].
  - destruct (decide (LOG = SKIP_LOGGING)); [discriminate|].
    destruct (decide (_error_count e + 1 = error_limit (mgr s)));
      [contradiction|].
    destruct ex as [errno| | | | | | | |];
      try (apply (Hfirst LOG _
                    {| level := ERROR;
                       message := "Error while sending message";
                       extra_id := format_id (name e) index;
                       telemetry_ignore := false; exc_info := false |});
           [reflexivity | reflexivity | intros s0; reflexivity]).
    + destruct (Hos errno) as (first & Hlevel & Hid & Hm).
      exact (Hfirst LOG _ first Hlevel Hid Hm).
    + apply (Hfirst LOG _
               {| level := ERROR; message := "Channel is broken";
                  extra_id := format_id (name e) index;
                  telemetry_ignore := false; exc_info := false |});
        [reflexivity | reflexivity | intros s0; reflexivity].
Qed.


(** A turn of the loop never takes a success back. *)
Lemma send_on_entry_keeps_success (nm : string)
    (address : Address AddressType) (message : PacketType) (index : nat)
    (e : entry_d) (s : state_d) :
  exists (e' : entry_d) (s' : state_d),
    d_on_entry nm address message index e true s = (Returns (e', true), s').
Proof.
  unfold send_on_entry.
  destruct (is_open e && can_send e) eqn:Hel; [|eexists _, _; reflexivity].
  apply andb_true_iff in Hel as [Hopen _]. unfold is_open in Hopen.
  destruct (channel e) as [ch|] eqn:Hch; [clear Hopen | discriminate].
  destruct address as [|a]; cbn [is_BROADCAST].
  - destruct (can_broadcast e) eqn:Hcb.
    + destruct (channel_broadcast ch message (world s)) as [[ex|] w1]
        eqn:Hcall.
      * set (s1 := {| mgr := mgr s; world := w1;
                      trace := trace s ++ [ChannelBroadcast ch message] |}).
        destruct (on_error_run format_address repr errorcode EADDRNOTAVAIL
                    EHOSTDOWN EHOSTUNREACH ENETDOWN ENETUNREACH
                    nm ex BROADCAST e index true s1) as (logs & Hrun & _).
        eexists _, _. erewrite try_raises.
        -- rewrite Hrun. reflexivity.
        -- apply bind_raises. apply bind_raises.
           unfold call_broadcast. rewrite Hcall. reflexivity.
      * set (s1 := {| mgr := mgr s; world := w1;
                      trace := trace s ++ [ChannelBroadcast ch message] |}).
        set (s2 := {| mgr := mgr s; world := w1;
                      trace :=
                        trace s1
                        ++ (if is_positive (broadcast_delay (mgr s))
                            then [Sleep (broadcast_delay (mgr s))]
                            else []) |}).
        destruct (after_attempt_run (PacketType := PacketType)
                  (AddressType := AddressType) (World := World)
                  (Seconds := Seconds) nm index e true)
          as (e' & _ & Hrun).
        destruct (Hrun s2) as (logs & Hrun2 & _).
        eexists _, _. erewrite try_returns; [reflexivity|].
        rewrite (bind_returns _ _ s s2 true).
        -- cbn beta iota. exact Hrun2.
        -- erewrite bind_returns.
           2:{ unfold call_broadcast. rewrite Hcall. reflexivity. }
           unfold bind, get_mgr. subst s2 s1. cbn [mgr world trace].
           destruct (is_positive (broadcast_delay (mgr s)));
             cbn; [reflexivity|].
           rewrite app_nil_r. reflexivity.
    + destruct (after_attempt_run (PacketType := PacketType)
                  (AddressType := AddressType) (World := World)
                  (Seconds := Seconds) nm index e true)
        as (e' & _ & Hrun).
      destruct (Hrun s) as (logs & Hrun2 & _).
      eexists _, _. erewrite try_returns; [reflexivity|].
      rewrite (bind_returns _ _ s s true); [exact Hrun2 | reflexivity].
  - destruct (channel_send ch message (Unicast a) (world s)) as [[ex|] w1]
      eqn:Hcall.
    + set (s1 := {| mgr := mgr s; world := w1;
                    trace := trace s
                             ++ [ChannelSend ch message (Unicast a)] |}).
      destruct (on_error_run format_address repr errorcode EADDRNOTAVAIL
                  EHOSTDOWN EHOSTUNREACH ENETDOWN ENETUNREACH
                  nm ex (Unicast a) e index true s1) as (logs & Hrun & _).
      eexists _, _. erewrite try_raises.
      * rewrite Hrun. reflexivity.
      * apply bind_raises. apply bind_raises.
        unfold call_send. rewrite Hcall. reflexivity.
    + set (s1 := {| mgr := mgr s; world := w1;
                    trace := trace s
                             ++ [ChannelSend ch message (Unicast a)] |}).
      destruct (after_attempt_run (PacketType := PacketType)
                  (AddressType := AddressType) (World := World)
                  (Seconds := Seconds) nm index e true)
        as (e' & _ & Hrun).
      destruct (Hrun s1) as (logs & Hrun2 & _).
      eexists _, _. erewrite try_returns; [reflexivity|].
      rewrite (bind_returns _ _ s s1 true).
      * cbn beta iota. exact Hrun2.
      * erewrite bind_returns.
        2:{ unfold call_send. rewrite Hcall. reflexivity. }
        reflexivity.
Qed.

Lemma send_loop_keeps_success (nm : string) (address : Address AddressType)
    (message : PacketType) (entries : list entry_d) :
  forall (index : nat) (s : state_d),
  exists (es' : list entry_d) (s' : state_d),
    d_loop nm address message index entries true s
    = (Returns (es', true), s').
Proof.
  induction entries as [|e entries IH]; intros index s.
  - eexists _, _. reflexivity.
  - destruct (send_on_entry_keeps_success nm address message index e s)
      as (e' & s1 & Hrun1).
    destruct (IH (S index) s1) as (es' & s2 & Hrun2).
    eexists _, _. cbn [send_loop].
    rewrite (bind_returns _ _ _ _ _ Hrun1). cbn [fst snd].
    rewrite (bind_returns _ _ _ _ _ Hrun2). reflexivity.
Qed.

Lemma successful_call_run (nm : string) (address : Address AddressType)
    (message : PacketType) (index : nat) (e : entry_d) (sent : bool)
    (s : state_d) (ev : event_d) (w1 : World) :
  attempt_outcome channel_send channel_broadcast address message e (world s)
  = Some (ev, None, w1) ->
  exists (e' : entry_d) (s' : state_d),
    d_on_entry nm address message index e sent s = (Returns (e', true), s').
Proof.
  intros Hout. unfold attempt_outcome in Hout. unfold send_on_entry, is_open.
  destruct (channel e) as [ch|] eqn:Hch; [|discriminate].
  destruct (can_send e); [|discriminate]. cbn [andb].
  destruct address as [|a]; cbn [is_BROADCAST andb] in *.
  - destruct (can_broadcast e); [|discriminate].
    destruct (channel_broadcast ch message (world s)) as [r w'] eqn:Hcall.
    injection Hout as <- -> ->.
    unfold try_except, bind, call_broadcast, get_mgr. rewrite Hcall.
    cbn [mgr world trace].
    destruct (is_positive (broadcast_delay (mgr s)));
      unfold emit, ret; cbn [mgr world trace];
      destruct (reset_error_count e) as [[|] e']; cbn [fst snd];
      unfold log_info, emit, ret; eexists _, _; reflexivity.
  - destruct (channel_send ch message (Unicast a) (world s)) as [r w']
      eqn:Hcall.
    injection Hout as <- -> ->.
    unfold try_except, bind, call_send. rewrite Hcall.
    cbn [mgr world trace]. unfold ret.
    destruct (reset_error_count e) as [[|] e']; cbn [fst snd];
      unfold log_info, emit, ret; eexists _, _; reflexivity.
Qed.

(** X15. One working link keeps a name in good standing: when the call on
    the first entry of a name returns, the dispatch clears the counter of
    failures in a row of that name, whatever the calls on the further
    entries do. *)
Theorem first_success_clears_name_counter (depth : nat) (nm : string)
    (address : Address AddressType) (message : PacketType) (s : state_d)
    (e : entry_d) (rest : list entry_d) (ev : event_d) (w1 : World) :
  odict_get nm (_entries_by_name (mgr s)) = Some (e :: rest) ->
  attempt_outcome channel_send channel_broadcast address message e (world s)
  = Some (ev, None, w1) ->
  exists s' : state_d,
    d_single (S depth) message (nm, address) s = (Returns tt, s')
    /\ _error_counters (mgr s') !! nm = Some 0.
Proof.
  intros Hget Hout.
  rewrite (single_channel_direct channel_send channel_broadcast
             format_address repr is_positive errorcode EADDRNOTAVAIL
             EHOSTDOWN EHOSTUNREACH ENETDOWN ENETUNREACH
             depth nm address message s)
    by (rewrite Hget; reflexivity).
  rewrite Hget. cbn [send_to_entries send_loop].
  destruct (successful_call_run nm address message 0%nat e false s ev w1
              Hout) as (e' & s1 & Hrun1).
  destruct (send_loop_keeps_success nm address message rest 1%nat s1)
    as (es' & s2 & Hrun2).
  set (s3 := {| mgr := with_entries (mgr s2)
                         (odict_set nm (e' :: es')
                            (_entries_by_name (mgr s2)));
                world := world s2; trace := trace s2 |}).
  destruct (record_result_run nm address (Some (e :: rest)) true s3)
    as (logs & Hrun3 & _).
  eexists. split.
  - unfold bind at 1. unfold bind at 1. rewrite Hrun1. cbn [fst snd].
    unfold bind at 1. rewrite Hrun2. unfold ret at 1. cbn [fst snd].
    unfold bind at 1, get_mgr. unfold bind at 1, put_mgr.
    fold s3. exact Hrun3.
  - cbn [mgr with_error_counters _error_counters].
    apply lookup_insert_eq.
Qed.


End Dispatcher.

Section InboundLink.

Context {Connection Channel PacketType AddressType : Type}
        `{EqDecision Channel}.
Variable is_BroadcastMessageChannel : Channel -> bool.
Variable connection_address : Connection -> option AddressType.
Variable format_address : AddressType -> Outcome string.
Variable str : Exception -> string.
Variable inbound_send : nat -> option Exception.

Abbreviation entry_i := (CommunicationManagerEntry Connection Channel).
Abbreviation session_i := (@LinkSession Channel PacketType AddressType).
Abbreviation event_i := (@LinkEvent PacketType AddressType).
Abbreviation run_link :=
  (@_run_inbound_link Connection Channel PacketType AddressType _
     is_BroadcastMessageChannel connection_address format_address str
     inbound_send).
Abbreviation created :=
  (@channel_created Connection Channel PacketType AddressType
     connection_address format_address).
Abbreviation raised :=
  (@link_raised Connection Channel PacketType AddressType
     connection_address format_address inbound_send).
Abbreviation address_of :=
  (@link_address Connection Channel AddressType
     connection_address format_address).

Lemma detach_attached (e : entry_i) (ch : Channel) :
  detach_channel is_BroadcastMessageChannel
    (set_channel is_BroadcastMessageChannel e (Some ch))
  = {| connection := connection e; name := name e; can_broadcast := false;
       can_send := can_send e; channel := None; _error_count := 0 |}.
Proof.
  unfold detach_channel, set_channel.
  destruct (decide (channel e = Some ch)) as [Heq|Hne].
  - rewrite Heq. destruct (decide (Some ch = None)); [discriminate|].
    reflexivity.
  - cbn. destruct (decide (Some ch = None)); [discriminate|]. reflexivity.
Qed.

Lemma detach_closed (e : entry_i) :
  channel e = None -> detach_channel is_BroadcastMessageChannel e = e.
Proof.
  intros Hch. unfold detach_channel, set_channel.
  destruct (decide (channel e = None)); [reflexivity | contradiction].
Qed.

Lemma detach_channel_none (e : entry_i) :
  channel (detach_channel is_BroadcastMessageChannel e) = None
  /\ connection (detach_channel is_BroadcastMessageChannel e) = connection e
  /\ name (detach_channel is_BroadcastMessageChannel e) = name e
  /\ can_send (detach_channel is_BroadcastMessageChannel e) = can_send e.
Proof.
  unfold detach_channel, set_channel.
  destruct (decide (channel e = None)); repeat split; assumption.
Qed.

Lemma link_body_entry (entry : entry_i) (address : option string)
    (session : session_i) :
  fst (link_body is_BroadcastMessageChannel str inbound_send entry address
         session)
  = match session with
    | FactoryRaises _ => detach_channel is_BroadcastMessageChannel entry
    | ChannelRuns _ _ _ =>
        {| connection := connection entry; name := name entry;
           can_broadcast := false; can_send := can_send entry;
           channel := None; _error_count := 0 |}
    end.
Proof.
  destruct session as [ex|ch received ending]; cbn [link_body fst];
    [reflexivity | apply detach_attached].
Qed.

(** X16. However a run of the inbound task ends (the address cannot be
    formatted, the factory fails, the channel is exhausted, the channel or
    the queue raises), the task leaves the entry without a channel, with its
    connection, name and [can_send] flag.  A run that did not get to create
    a channel leaves a closed entry exactly as it was; a run that did
    leaves the entry unable to broadcast and with a clear error count. *)
Theorem inbound_link_always_detaches (entry : entry_i)
    (session : session_i) :
  let entry' := fst (run_link entry session) in
  channel entry' = None
  /\ is_open entry' = false
  /\ connection entry' = connection entry
  /\ name entry' = name entry
  /\ can_send entry' = can_send entry
  /\ (created entry session = false -> channel entry = None ->
      entry' = entry)
  /\ (created entry session = true ->
      can_broadcast entry' = false /\ _error_count entry' = 0).
Proof.
  unfold _run_inbound_link, channel_created, format_raises, is_open.
  destruct (detach_channel_none entry) as (Hc & Hconn & Hname & Hcs).
  destruct (connection_address (connection entry)) as [a|];
    [destruct (format_address a) as [text|ex]|];
    rewrite ?link_body_entry;
    try destruct session as [ex'|ch received ending];
    cbn [fst]; rewrite ?Hc;
    cbn [channel connection name can_send can_broadcast _error_count];
    repeat split; try assumption; try discriminate;
    try (intros _ Hclosed; apply detach_closed; exact Hclosed).
Qed.

(** ** What a run forwards and what it logs *)

Lemma forwarded_of_app (l1 l2 : list event_i) :
  forwarded_of (l1 ++ l2) = forwarded_of l1 ++ forwarded_of l2.
Proof. unfold forwarded_of. apply omap_app. Qed.

Lemma logged_of_app (l1 l2 : list event_i) :
  logged_of (l1 ++ l2) = logged_of l1 ++ logged_of l2.
Proof. unfold logged_of. apply omap_app. Qed.

Lemma forwarded_of_failure (ex : Exception) (c : bool) (a : option string)
    (id : string) :
  forwarded_of (link_failure str ex c a id : list event_i) = [].
Proof.
  unfold link_failure, forwarded_of.
  destruct (is_benign ex), c, a; reflexivity.
Qed.

Lemma logged_of_failure (ex : Exception) (c : bool) (a : option string)
    (id : string) :
  logged_of (link_failure str ex c a id : list event_i)
  = (if is_benign ex then []
     else [{| level := ERROR; message := str ex; extra_id := "";
              telemetry_ignore := false; exc_info := true |}])
    ++ (if c then
          [{| level := WARNING;
              message := link_message a " down, trying to reopen...";
              extra_id := id; telemetry_ignore := false;
              exc_info := false |}]
        else []).
Proof.
  unfold link_failure, logged_of.
  destruct (is_benign ex), c, a; reflexivity.
Qed.

(** The loop that forwards: the messages up to the first call of
    [queue.send] that raises are in the queue, in their order; the message
    of that call is not, and its exception ends the loop; nothing is
    logged. *)
Lemma forward_run (nm : string)
    (received : list (PacketType * AddressType))
    (ending : option Exception) :
  forall k : nat,
    let r := forward inbound_send nm k received ending in
    logged_of (fst r) = []
    /\ snd r = match send_failure inbound_send k (length received) with
               | Some ex => Some ex
               | None => ending
               end
    /\ exists j : nat,
         (j <= length received)%nat
         /\ forwarded_of (fst r)
            = map (fun message => (nm, message)) (take j received)
         /\ (forall i : nat, (i < j)%nat -> inbound_send (k + i) = None)
         /\ (forall message : PacketType * AddressType,
               received !! j = Some message ->
               exists ex : Exception,
                 inbound_send (k + j) = Some ex /\ snd r = Some ex)
         /\ (j = length received -> snd r = ending).
Proof.
  induction received as [|m rest IH]; intros k; cbv zeta.
  - cbn. split; [reflexivity|]. split; [reflexivity|].
    exists 0%nat. repeat split; try reflexivity; try lia.
    intros message Hm. discriminate.
  - cbn [forward send_failure length].
    destruct (inbound_send k) as [ex|] eqn:Hsend.
    + cbn [fst snd]. split; [reflexivity|]. split; [reflexivity|].
      exists 0%nat. split; [lia|]. split; [reflexivity|].
      split; [intros i Hi; lia|]. split.
      * intros message _. exists ex. rewrite Nat.add_0_r.
        split; [exact Hsend | reflexivity].
      * discriminate.
    + destruct (IH (S k)) as (Hlog & Hend & j & Hj & Hfw & Hok & Hlost
                              & Hall).
      cbn [fst snd]. split; [exact Hlog|]. split; [exact Hend|].
      exists (S j). split; [lia|]. split; [|split; [|split]].
      * cbn [take map]. unfold forwarded_of in *. cbn [omap list_omap].
        f_equal. exact Hfw.
      * intros [|i] Hi.
        -- rewrite Nat.add_0_r. exact Hsend.
        -- replace (k + S i)%nat with (S k + i)%nat by lia.
           apply Hok. lia.
      * intros message Hm. cbn in Hm.
        replace (k + S j)%nat with (S k + j)%nat by lia.
        apply (Hlost message Hm).
      * intros Hlen. apply Hall. lia.
Qed.

Lemma set_channel_name (entry : entry_i) (ch : option Channel) :
  name (set_channel is_BroadcastMessageChannel entry ch) = name entry.
Proof.
  unfold set_channel. destruct (decide (channel entry = ch)); reflexivity.
Qed.

(** The events of a run that got to call the factory. *)
Lemma link_body_events (entry : entry_i) (address : option string)
    (session : session_i) :
  snd (link_body is_BroadcastMessageChannel str inbound_send entry address
         session)
  = match session with
    | FactoryRaises ex => link_failure str ex false address (name entry)
    | ChannelRuns ch received ending =>
        let loop := forward inbound_send (name entry) 0 received ending in
        link_record INFO (link_message address " up and running")
          (name entry) false
        :: fst loop
           ++ match snd loop with
              | Some ex => link_failure str ex true address (name entry)
              | None =>
                  [link_record INFO (link_message address " closed")
                     (name entry) false]
              end
    end.
Proof.
  destruct session as [ex|ch received ending]; cbn [link_body snd];
    [reflexivity|].
  rewrite set_channel_name. destruct address as [a|]; reflexivity.
Qed.

(** The address under which the body of the task runs is [link_address]. *)
Lemma run_link_events (entry : entry_i) (session : session_i) :
  snd (run_link entry session)
  = match format_raises connection_address format_address entry with
    | Some ex => link_failure str ex false None (name entry)
    | None =>
        snd (link_body is_BroadcastMessageChannel str inbound_send entry
               (address_of entry) session)
    end.
Proof.
  unfold _run_inbound_link, format_raises, link_address.
  destruct (connection_address (connection entry)) as [a|];
    [|reflexivity].
  destruct (format_address a) as [[|c text]|ex]; reflexivity.
Qed.

(** X17. What a run of the inbound task puts in the queue of the consumer.
    A run that does not get to create a channel forwards nothing.  A run
    with a channel forwards the messages that the channel delivers, in the
    order of delivery and each under the name of the entry, up to the first
    call of [queue.send] that raises: the calls before it all returned, the
    message of that call is lost and its exception is the one that ends the
    run; when no call raises, every message of the channel is in the queue
    and the run ends as the channel does. *)
Theorem inbound_link_forwards_in_order (entry : entry_i)
    (session : session_i) :
  let sent := forwarded_of (snd (run_link entry session)) in
  match session with
  | ChannelRuns _ received ending =>
      if created entry session then
        exists k : nat,
          (k <= length received)%nat
          /\ sent
             = map (fun message => (name entry, message)) (take k received)
          /\ (forall i : nat, (i < k)%nat -> inbound_send i = None)
          /\ (forall message : PacketType * AddressType,
                received !! k = Some message ->
                exists ex : Exception,
                  inbound_send k = Some ex
                  /\ raised entry session = Some ex)
          /\ (k = length received -> raised entry session = ending)
      else sent = []
  | FactoryRaises _ => sent = []
  end.
Proof.
  cbv zeta. rewrite run_link_events.
  unfold channel_created, link_raised.
  destruct (format_raises connection_address format_address entry)
    as [ex|] eqn:Hformat.
  - destruct session as [ex'|ch received ending];
      apply forwarded_of_failure.
  - rewrite link_body_events.
    destruct session as [ex'|ch received ending];
      [apply forwarded_of_failure|].
    cbv zeta.
    destruct (forward_run (name entry) received ending 0%nat)
      as (_ & Hend & k & Hk & Hfw & Hok & Hlost & Hall).
    cbv zeta in Hend, Hfw, Hlost, Hall.
    exists k. split; [exact Hk|]. split; [|split; [|split]].
    + unfold link_record.
      change (forwarded_of (LinkLogged ?r :: ?l)) with (forwarded_of l).
      rewrite forwarded_of_app, Hfw.
      destruct (snd (forward inbound_send (name entry) 0 received ending));
        [rewrite forwarded_of_failure|]; cbn; rewrite app_nil_r;
        reflexivity.
    + intros i Hi. exact (Hok i Hi).
    + intros message Hm. destruct (Hlost message Hm) as (ex & Hsend & Hr).
      exists ex. split; [exact Hsend|]. rewrite <- Hend. exact Hr.
    + intros Hlen. rewrite <- Hend. apply Hall, Hlen.
Qed.

(** X18. The log of a run of the inbound task, record by record.  A run
    that creates its channel first announces the connection [up and
    running].  A run that ends with an exception then writes the exception
    with its traceback, unless it is [BrokenResourceError] or
    [ClosedResourceError], and, if the channel had been created, the
    warning that the connection is [down, trying to reopen...]; a run that
    ends without an exception announces the connection [closed].  Nothing
    else is logged, the messages name the formatted address of the
    connection when it has one, and all records but the traceback carry the
    name of the entry as their id. *)
Theorem inbound_link_log (entry : entry_i) (session : session_i) :
  logged_of (snd (run_link entry session))
  = (if created entry session then
       [{| level := INFO;
           message := link_message (address_of entry) " up and running";
           extra_id := name entry; telemetry_ignore := false;
           exc_info := false |}]
     else [])
    ++ match raised entry session with
       | Some ex =>
           (if is_benign ex then []
            else [{| level := ERROR; message := str ex; extra_id := "";
                     telemetry_ignore := false; exc_info := true |}])
           ++ (if created entry session then
                 [{| level := WARNING;
                     message :=
                       link_message (address_of entry)
                         " down, trying to reopen...";
                     extra_id := name entry; telemetry_ignore := false;
                     exc_info := false |}]
               else [])
       | None =>
           if created entry session then
             [{| level := INFO;
                 message := link_message (address_of entry) " closed";
                 extra_id := name entry; telemetry_ignore := false;
                 exc_info := false |}]
           else []
       end.
Proof.
  rewrite run_link_events.
  unfold channel_created, link_raised.
  destruct (format_raises connection_address format_address entry)
    as [ex|] eqn:Hformat.
  - rewrite logged_of_failure. destruct session; reflexivity.
  - rewrite link_body_events.
    destruct session as [ex'|ch received ending].
    + rewrite logged_of_failure. reflexivity.
    + cbv zeta.
      destruct (forward_run (name entry) received ending 0%nat)
        as (Hlog & Hend & _).
      cbv zeta in Hlog, Hend. rewrite <- Hend.
      unfold link_record at 1.
      change (logged_of (LinkLogged ?r :: ?l)) with (r :: logged_of l).
      rewrite logged_of_app, Hlog. cbn [app]. f_equal.
      destruct (snd (forward inbound_send (name entry) 0 received ending));
        [apply logged_of_failure | reflexivity].
Qed.

End InboundLink.

Section Attachment.

Context {Connection Channel PacketType AddressType Seconds : Type}
        `{EqDecision Channel}.
Variable is_BroadcastMessageChannel : Channel -> bool.

Abbreviation entry_a := (CommunicationManagerEntry Connection Channel).
Abbreviation manager_a :=
  (@CommunicationManager Connection Channel PacketType AddressType Seconds).

Lemma is_channel_open_existsb (self : manager_a) (nm : string) :
  is_channel_open self nm
  = existsb is_open (default [] (odict_get nm (_entries_by_name self))).
Proof.
  unfold is_channel_open.
  destruct (odict_get nm (_entries_by_name self)) as [[|e es]|]; reflexivity.
Qed.

(** X19. The channel of one entry decides for its name.  When the inbound
    task of an entry attaches a channel, the name of the entry is open; when
    it detaches the channel and no other entry of the name has one, the name
    is closed again; and whatever happens to an entry leaves the other
    names as open or closed as they were. *)
Theorem attach_opens_detach_closes (self : manager_a) (nm : string)
    (index : nat) (entries : list entry_a) (e : entry_a) (ch : Channel) :
  odict_get nm (_entries_by_name self) = Some entries ->
  entries !! index = Some e ->
  is_channel_open
    (update_entry nm index
       (fun e0 => set_channel is_BroadcastMessageChannel e0 (Some ch)) self)
    nm = true
  /\ ((forall (j : nat) (e' : entry_a),
          j <> index -> entries !! j = Some e' -> channel e' = None) ->
      is_channel_open
        (update_entry nm index (detach_channel is_BroadcastMessageChannel)
           self) nm = false)
  /\ (forall (other : string) (f : entry_a -> entry_a),
        other <> nm ->
        is_channel_open (update_entry nm index f self) other
        = is_channel_open self other).
Proof.
  intros Hget Hidx. pose proof (lookup_lt_Some _ _ _ Hidx) as Hlt.
  split; [|split].
  - rewrite is_channel_open_existsb. unfold update_entry.
    rewrite Hget, Hidx. cbn [_entries_by_name with_entries].
    rewrite odict_get_set_eq. cbn [default from_option id].
    apply existsb_exists.
    exists (set_channel is_BroadcastMessageChannel e (Some ch)). split.
    + apply list_elem_of_In. apply list_elem_of_lookup. exists index.
      apply list_lookup_insert_eq. exact Hlt.
    + unfold is_open, set_channel.
      destruct (decide (channel e = Some ch)) as [Heq|_];
        [rewrite Heq|]; reflexivity.
  - intros Hothers. rewrite is_channel_open_existsb. unfold update_entry.
    rewrite Hget, Hidx. cbn [_entries_by_name with_entries].
    rewrite odict_get_set_eq. cbn [default from_option id].
    destruct (existsb is_open
                (<[index := detach_channel is_BroadcastMessageChannel e]>
                   entries)) eqn:Hopen; [|reflexivity].
    exfalso. apply existsb_exists in Hopen as (x & Hin & Hx).
    apply list_elem_of_In, list_elem_of_lookup in Hin as (j & Hj).
    assert (Hnone : channel x = None).
    { destruct (decide (j = index)) as [->|Hne].
      - rewrite list_lookup_insert_eq in Hj by exact Hlt.
        injection Hj as <-.
        unfold detach_channel, set_channel.
        destruct (decide (channel e = None)); [assumption | reflexivity].
      - rewrite list_lookup_insert_ne in Hj by congruence.
        exact (Hothers j x Hne Hj). }
    unfold is_open in Hx. rewrite Hnone in Hx. discriminate.
  - intros other f Hne. rewrite !is_channel_open_existsb.
    unfold update_entry. rewrite Hget, Hidx.
    cbn [_entries_by_name with_entries].
    rewrite odict_get_set_ne by exact Hne. reflexivity.
Qed.

End Attachment.

(** ** Instances of the properties of this part *)

Lemma alias_resolution_witness :
  let s := Scenario.running Scenario.both in
  (truthy (odict_get "G" (_entries_by_name (mgr s))) = false
   /\ lists_nonempty (_entries_by_name (mgr s)))
  /\ exists s' : Scenario.state,
       Scenario.send_single 2 7%nat ("G", Unicast 3%nat) s = (Returns tt, s')
       /\ transmissions (trace s')
          = transmissions (trace s)
            ++ omap (attempt_of (Seconds := nat) (Unicast 3%nat) 7%nat)
                 (entries_of (_entries_by_name (mgr s))
                    (default [] (_aliases (mgr s) !! "G")))
       /\ same_manager (mgr s) (mgr s')
       /\ (forall target : string,
             _aliases (mgr s) !! "G" = Some [target] ->
             odict_get target (_entries_by_name (mgr s)) = None ->
             _error_counters (mgr s') !! target
             = Some (default 0 (_error_counters (mgr s) !! target) + 1))
       /\ (forall (targets : list string) (target : string),
             _aliases (mgr s) !! "G" = Some targets ->
             (2 <= length targets)%nat ->
             odict_get target (_entries_by_name (mgr s)) = None ->
             _error_counters (mgr s') !! target
             = _error_counters (mgr s) !! target).
Proof.
  intros s.
  assert (Ht : truthy (odict_get "G" (_entries_by_name (mgr s))) = false)
    by reflexivity.
  assert (Hwf : lists_nonempty (_entries_by_name (mgr s)))
    by (repeat constructor; discriminate).
  split; [split; [exact Ht | exact Hwf]|].
  exact (alias_resolution
           Scenario.channel_send Scenario.channel_broadcast
           Scenario.format_address Scenario.repr Scenario.is_positive
           Scenario.errorcode Scenario.EADDRNOTAVAIL
           Scenario.EHOSTDOWN Scenario.EHOSTUNREACH Scenario.ENETDOWN
           Scenario.ENETUNREACH
           0%nat "G" (Unicast 3%nat) 7%nat s Ht Hwf).
Defined.


Lemma add_registers_last_witness :
  (_running (mgr (Scenario.running ∅)) = true
   /\ add (mgr (Scenario.running ∅)) 9%nat "C" true
      = Raises (RuntimeError
                  "cannot add new connections when the manager is running"))
  /\ (_running Scenario.stopped = false
      /\ exists self' : Scenario.manager,
           add Scenario.stopped 9%nat "A" true = Returns self'
           /\ odict_get "A" (_entries_by_name self')
              = Some (default [] (odict_get "A"
                                    (_entries_by_name Scenario.stopped))
                      ++ [new_entry 9%nat "A" true])).
Proof.
  split.
  - assert (Hrun : _running (mgr (Scenario.running ∅)) = true)
      by reflexivity.
    split; [exact Hrun|].
    exact (proj1 (add_registers_last (mgr (Scenario.running ∅))
                    9%nat "C" true) Hrun).
  - assert (Hrun : _running Scenario.stopped = false) by reflexivity.
    split; [exact Hrun|].
    destruct (proj2 (add_registers_last Scenario.stopped 9%nat "A" true)
                Hrun) as (self' & Hadd & Hget & _).
    exists self'. split; [exact Hadd | exact Hget].
Defined.

Lemma add_all_keeps_registration_order_witness :
  let registrations := [(7%nat, "A", true); (8%nat, "C", false)] in
  _running Scenario.stopped = false
  /\ exists self' : Scenario.manager,
       add_all Scenario.stopped registrations = Returns self'
       /\ forall nm : string,
            default [] (odict_get nm (_entries_by_name self'))
            = default [] (odict_get nm (_entries_by_name Scenario.stopped))
              ++ registered_under nm registrations.
Proof.
  intros registrations.
  assert (Hrun : _running Scenario.stopped = false) by reflexivity.
  split; [exact Hrun|].
  exact (add_all_keeps_registration_order Scenario.stopped registrations
           Hrun).
Defined.

Lemma open_channels_agree_witness :
  NoDup (odict_keys (_entries_by_name Scenario.stopped))
  /\ (open_channels Scenario.stopped = []
      <-> forall nm : string, is_channel_open Scenario.stopped nm = false).
Proof.
  assert (Hnd : NoDup (odict_keys (_entries_by_name Scenario.stopped))).
  { cbn. apply NoDup_cons_2; [|apply NoDup_cons_2; [|apply NoDup_nil_2]].
    - intros Hin. apply list_elem_of_singleton in Hin. discriminate.
    - intros Hin. inversion Hin. }
  split; [exact Hnd|].
  exact (proj2 (open_channels_agree Scenario.stopped) Hnd).
Defined.

Lemma disposer_works_once_witness :
  _aliases Scenario.stopped !! "G" = None
  /\ exists (self1 self2 : Scenario.manager)
            (disposer : Scenario.manager -> Outcome Scenario.manager),
       add_alias Scenario.stopped "G" ["A"] = Returns (self1, disposer)
       /\ disposer self1 = Returns self2
       /\ disposer self2 = Raises (KeyError "G").
Proof.
  assert (Hnone : _aliases Scenario.stopped !! "G" = None) by reflexivity.
  split; [exact Hnone|].
  destruct (disposer_works_once Scenario.stopped "G" ["A"] Hnone)
    as (self1 & self2 & disposer & Hadd & _ & _ & Hfirst & _ & Hsecond).
  exists self1, self2, disposer.
  split; [exact Hadd|]. split; [exact Hfirst | exact Hsecond].
Defined.

Lemma with_alias_restores_witness :
  let body := fun m : Scenario.manager =>
                (Raises (A := unit) (OtherException 1), m) in
  (forall m : Scenario.manager, _aliases (snd (body m)) = _aliases m)
  /\ _aliases Scenario.stopped !! "G" = None
  /\ with_alias Scenario.stopped "G" ["A"] body
     = (Raises (OtherException 1),
        with_aliases
          (with_aliases Scenario.stopped
             (<["G" := ["A"]]> (_aliases Scenario.stopped)))
          (_aliases Scenario.stopped)).
Proof.
  intros body.
  assert (Hframe : forall m : Scenario.manager,
             _aliases (snd (body m)) = _aliases m)
    by (intros m; reflexivity).
  assert (Hnone : _aliases Scenario.stopped !! "G" = None) by reflexivity.
  split; [exact Hframe|]. split; [exact Hnone|].
  exact (proj1 (with_alias_restores Scenario.stopped "G" ["A"] body Hframe)
           Hnone).
Defined.

Lemma enqueue_drops_where_send_waits_witness :
  let full : Scenario.manager :=
    with_queue Scenario.stopped
      (Some {| buffer := []; max_buffer_size := 0 |}) in
  (_outbound_tx_queue full = Some {| buffer := []; max_buffer_size := 0 |}
   /\ (0 <= 0)%nat)
  /\ send_packet full 7%nat ("A", 3%nat) = Suspended
  /\ enqueue_packet full true 7%nat ("A", 3%nat)
     = Returns
         (full,
          [plain_warning
             "Dropping outbound packet; outbound message queue is full"]).
Proof.
  intros full.
  assert (Hq : _outbound_tx_queue full
               = Some {| buffer := []; max_buffer_size := 0 |})
    by reflexivity.
  assert (Hlen : (0 <= 0)%nat) by lia.
  split; [split; [exact Hq | exact Hlen]|].
  exact (proj2 (enqueue_drops_where_send_waits full
                  {| buffer := []; max_buffer_size := 0 |} true 7%nat
                  ("A", 3%nat) Hq) Hlen).
Defined.

Lemma broadcast_submission_witness :
  _outbound_tx_queue Scenario.stopped = None
  /\ enqueue_broadcast_packet Scenario.stopped true 7%nat None false
     = Raises (BrokenResourceError "Outbound message queue is closed")
  /\ enqueue_broadcast_packet Scenario.stopped true 7%nat None true
     = Returns (Scenario.stopped, []).
Proof.
  assert (Hq : _outbound_tx_queue Scenario.stopped = None) by reflexivity.
  split; [exact Hq|].
  exact (proj1 (broadcast_submission Scenario.stopped true 7%nat None) Hq).
Defined.

Lemma outbound_loop_survives_witness :
  let s0 := Scenario.running Scenario.both in
  let queue :=
    {| buffer :=
         [(7%nat, ToEveryone); (7%nat, ToChannel "G" (Unicast 3%nat));
          (7%nat, ToChannel "nowhere" BROADCAST)];
       max_buffer_size := 256 |} in
  let s : Scenario.state :=
    {| mgr := with_queue (mgr s0) (Some queue);
       world := world s0; trace := trace s0 |} in
  (_outbound_tx_queue (mgr s) = Some queue
   /\ lists_nonempty (_entries_by_name (mgr s))
   /\ (length (buffer queue) < 4)%nat)
  /\ exists s' : Scenario.state,
       _run_outbound_links_inner
         Scenario.channel_send Scenario.channel_broadcast
         Scenario.format_address Scenario.repr Scenario.is_positive
         Scenario.errorcode Scenario.EADDRNOTAVAIL Scenario.EHOSTDOWN
         Scenario.EHOSTUNREACH Scenario.ENETDOWN Scenario.ENETUNREACH
         2 4 s = (Returns Waiting, s')
       /\ transmissions (trace s')
          = transmissions (trace s)
            ++ flat_map
                 (expected_calls (_entries_by_name (mgr s))
                    (_aliases (mgr s)))
                 (buffer queue)
       /\ _outbound_tx_queue (mgr s')
          = Some {| buffer := [];
                    max_buffer_size := max_buffer_size queue |}
       /\ same_manager
            (with_queue (mgr s)
               (Some {| buffer := [];
                        max_buffer_size := max_buffer_size queue |}))
            (mgr s')
       /\ lists_nonempty (_entries_by_name (mgr s')).
Proof.
  intros s0 queue s.
  assert (Hq : _outbound_tx_queue (mgr s) = Some queue) by reflexivity.
  assert (Hwf : lists_nonempty (_entries_by_name (mgr s)))
    by (repeat constructor; discriminate).
  assert (Hlen : (length (buffer queue) < 4)%nat) by (cbn; lia).
  split; [split; [exact Hq | split; [exact Hwf | exact Hlen]]|].
  exact (outbound_loop_survives
           Scenario.channel_send Scenario.channel_broadcast
           Scenario.format_address Scenario.repr Scenario.is_positive
           Scenario.errorcode Scenario.EADDRNOTAVAIL Scenario.EHOSTDOWN
           Scenario.EHOSTUNREACH Scenario.ENETDOWN Scenario.ENETUNREACH
           0%nat 4%nat queue s Hq Hwf Hlen).
Defined.


Lemma alias_behaves_as_its_target_witness :
  let s := Scenario.running (<["G" := ["B"]]> ∅) in
  (truthy (odict_get "G" (_entries_by_name (mgr s))) = false
   /\ _aliases (mgr s) !! "G" = Some ["B"]
   /\ truthy (odict_get "B" (_entries_by_name (mgr s))) = true)
  /\ Scenario.send_single 1 7%nat ("G", Unicast 3%nat) s
     = Scenario.send_single 4 7%nat ("B", Unicast 3%nat) s.
Proof.
  intros s.
  assert (Ht : truthy (odict_get "G" (_entries_by_name (mgr s))) = false)
    by reflexivity.
  assert (Ha : _aliases (mgr s) !! "G" = Some ["B"])
    by (vm_compute; reflexivity).
  assert (Hb : truthy (odict_get "B" (_entries_by_name (mgr s))) = true)
    by reflexivity.
  split; [split; [exact Ht | split; [exact Ha | exact Hb]]|].
  exact (alias_behaves_as_its_target
           Scenario.channel_send Scenario.channel_broadcast
           Scenario.format_address Scenario.repr Scenario.is_positive
           Scenario.errorcode Scenario.EADDRNOTAVAIL Scenario.EHOSTDOWN
           Scenario.EHOSTUNREACH Scenario.ENETDOWN Scenario.ENETUNREACH
           0%nat 3%nat "G" "B" (Unicast 3%nat) 7%nat s Ht Ha Hb).
Defined.

Lemma closed_name_counts_failure_witness :
  let entries := [new_entry 5%nat "C" true] in
  let s : Scenario.state :=
    {| mgr := {| broadcast_delay := 0%nat; error_limit := 5;
                 _aliases := ∅; _entries_by_name := [("C", entries)];
                 _error_counters := ∅; _running := true;
                 _outbound_tx_queue := None |};
       world := tt; trace := [] |} in
  (odict_get "C" (_entries_by_name (mgr s)) = Some entries
   /\ entries <> []
   /\ Forall (fun e => is_open e && can_send e = false) entries)
  /\ Scenario.send_single 1 7%nat ("C", Unicast 3%nat) s
     = (Returns tt,
        {| mgr := with_error_counters (mgr s)
                    (<["C" := default 0 (_error_counters (mgr s) !! "C") + 1]>
                       (_error_counters (mgr s)));
           world := world s;
           trace :=
             trace s
             ++ (if negb (is_BROADCAST (Unicast 3%nat))
                    && (default 0 (_error_counters (mgr s) !! "C") + 1
                        <=? error_limit (mgr s))
                 then
                   [Logged
                      {| level := WARNING;
                         message :=
                           "Dropping outbound message, sending failed on all channels";
                         extra_id := "C"; telemetry_ignore := true;
                         exc_info := false |}]
                 else []) |}).
Proof.
  intros entries s.
  assert (Hget : odict_get "C" (_entries_by_name (mgr s)) = Some entries)
    by reflexivity.
  assert (Hne : entries <> []) by discriminate.
  assert (Hclosed : Forall (fun e => is_open e && can_send e = false)
                      entries)
    by (repeat constructor).
  split; [split; [exact Hget | split; [exact Hne | exact Hclosed]]|].
  exact (closed_name_counts_failure
           Scenario.channel_send Scenario.channel_broadcast
           Scenario.format_address Scenario.repr Scenario.is_positive
           Scenario.errorcode Scenario.EADDRNOTAVAIL Scenario.EHOSTDOWN
           Scenario.EHOSTUNREACH Scenario.ENETDOWN Scenario.ENETUNREACH
           0%nat "C" (Unicast 3%nat) 7%nat s entries Hget Hne Hclosed).
Defined.

Lemma successful_call_clears_error_count_witness :
  let e : Scenario.entry :=
    {| connection := 0%nat; name := "A"; can_broadcast := true;
       can_send := true; channel := Some 2%nat; _error_count := 3 |} in
  let s := Scenario.running ∅ in
  attempt_outcome (Seconds := nat)
    Scenario.channel_send Scenario.channel_broadcast
    (Unicast 3%nat) 7%nat e (world s)
  = Some (ChannelSend 2%nat 7%nat (Unicast 3%nat), None, tt)
  /\ _error_count (snd (reset_error_count e)) = Z.min (_error_count e) 0
  /\ (fst (reset_error_count e) = true <-> 0 < _error_count e).
Proof.
  intros e s.
  assert (Hout : attempt_outcome (Seconds := nat) Scenario.channel_send
                   Scenario.channel_broadcast (Unicast 3%nat) 7%nat e
                   (world s)
                 = Some (ChannelSend 2%nat 7%nat (Unicast 3%nat), None, tt))
    by reflexivity.
  split; [exact Hout|].
  exact (proj2 (successful_call_clears_error_count
                  Scenario.channel_send Scenario.channel_broadcast
                  Scenario.format_address Scenario.repr Scenario.is_positive
                  Scenario.errorcode Scenario.EADDRNOTAVAIL
                  Scenario.EHOSTDOWN Scenario.EHOSTUNREACH Scenario.ENETDOWN
                  Scenario.ENETUNREACH
                  "A" (Unicast 3%nat) 7%nat 0%nat e false s
                  (ChannelSend 2%nat 7%nat (Unicast 3%nat)) tt Hout)).
Defined.

Lemma errors_beyond_limit_are_silent_witness :
  let e : Scenario.entry :=
    {| connection := 0%nat; name := "A"; can_broadcast := true;
       can_send := true; channel := Some 2%nat; _error_count := 5 |} in
  let s := Scenario.running ∅ in
  error_limit (mgr s) < _error_count e + 1
  /\ Scenario.handle_tx_error (OSError (Some 101)) (Unicast 3%nat) e 0 s
     = (Returns (snd (notify_error e (error_limit (mgr s)))), s)
  /\ _error_count (snd (notify_error e (error_limit (mgr s))))
     = _error_count e + 1.
Proof.
  intros e s.
  assert (Hgt : error_limit (mgr s) < _error_count e + 1)
    by (vm_compute; reflexivity).
  split; [exact Hgt|].
  exact (errors_beyond_limit_are_silent
           Scenario.format_address Scenario.repr Scenario.errorcode
           Scenario.EADDRNOTAVAIL Scenario.EHOSTDOWN Scenario.EHOSTUNREACH
           Scenario.ENETDOWN Scenario.ENETUNREACH
           (OSError (Some 101)) (Unicast 3%nat) e 0%nat s Hgt).
Defined.

Lemma suspension_is_announced_at_limit_witness :
  let e : Scenario.entry :=
    {| connection := 0%nat; name := "A"; can_broadcast := true;
       can_send := true; channel := Some 2%nat; _error_count := 4 |} in
  let s := Scenario.running ∅ in
  _error_count e + 1 <= error_limit (mgr s)
  /\ exists first : LogRecord,
       level first = ERROR
       /\ extra_id first = format_id (name e) 0.
Proof.
  intros e s.
  assert (Hle : _error_count e + 1 <= error_limit (mgr s))
    by (vm_compute; discriminate).
  split; [exact Hle|].
  destruct (suspension_is_announced_at_limit
              Scenario.format_address Scenario.repr Scenario.errorcode
              Scenario.EADDRNOTAVAIL Scenario.EHOSTDOWN Scenario.EHOSTUNREACH
              Scenario.ENETDOWN Scenario.ENETUNREACH
              (OSError (Some 101)) (Unicast 3%nat) e 0%nat s Hle)
    as (first & Hlevel & Hid & _).
  exists first. split; [exact Hlevel | exact Hid].
Defined.

Lemma first_success_clears_name_counter_witness :
  let s := Scenario.running ∅ in
  let e := Scenario.attached 0 "A" 2 in
  let rest := [Scenario.attached 1 "A" 13] in
  (odict_get "A" (_entries_by_name (mgr s)) = Some (e :: rest)
   /\ attempt_outcome (Seconds := nat)
        Scenario.channel_send Scenario.channel_broadcast
        (Unicast 3%nat) 7%nat e (world s)
      = Some (ChannelSend 2%nat 7%nat (Unicast 3%nat), None, tt))
  /\ exists s' : Scenario.state,
       Scenario.send_single 1 7%nat ("A", Unicast 3%nat) s = (Returns tt, s')
       /\ _error_counters (mgr s') !! "A" = Some 0.
Proof.
  intros s e rest.
  assert (Hget : odict_get "A" (_entries_by_name (mgr s)) = Some (e :: rest))
    by reflexivity.
  assert (Hout : attempt_outcome (Seconds := nat) Scenario.channel_send
                   Scenario.channel_broadcast (Unicast 3%nat) 7%nat e
                   (world s)
                 = Some (ChannelSend 2%nat 7%nat (Unicast 3%nat), None, tt))
    by reflexivity.
  split; [split; [exact Hget | exact Hout]|].
  exact (first_success_clears_name_counter
           Scenario.channel_send Scenario.channel_broadcast
           Scenario.format_address Scenario.repr Scenario.is_positive
           Scenario.errorcode Scenario.EADDRNOTAVAIL Scenario.EHOSTDOWN
           Scenario.EHOSTUNREACH Scenario.ENETDOWN Scenario.ENETUNREACH
           0%nat "A" (Unicast 3%nat) 7%nat s e rest
           (ChannelSend 2%nat 7%nat (Unicast 3%nat)) tt Hget Hout).
Defined.

Lemma inbound_link_always_detaches_witness :
  let entry : Scenario.entry := new_entry 0%nat "A" true in
  let session : @LinkSession nat nat nat :=
    ChannelRuns 2%nat [(7%nat, 3%nat)] (Some ClosedResourceError) in
  let entry' :=
    fst (_run_inbound_link Scenario.is_BroadcastMessageChannel
           (fun _ : nat => Some 3%nat) Scenario.format_address
           (fun _ : Exception => "error") (fun _ : nat => None)
           entry session) in
  channel_created (fun _ : nat => Some 3%nat) Scenario.format_address
    entry session = true
  /\ can_broadcast entry' = false
  /\ _error_count entry' = 0.
Proof.
  intros entry session entry'.
  assert (Hcreated : channel_created (fun _ : nat => Some 3%nat)
                       Scenario.format_address entry session = true)
    by reflexivity.
  split; [exact Hcreated|].
  destruct (inbound_link_always_detaches Scenario.is_BroadcastMessageChannel
              (fun _ : nat => Some 3%nat) Scenario.format_address
              (fun _ : Exception => "error") (fun _ : nat => None)
              entry session)
    as (_ & _ & _ & _ & _ & _ & Hrun).
  exact (Hrun Hcreated).
Defined.

(** A run whose second call of [queue.send] finds the queue closed by the
    consumer: the first message is in the queue, the second is lost, the
    third is never asked for. *)
Lemma inbound_link_forwards_in_order_witness :
  let entry : Scenario.entry := new_entry 0%nat "A" true in
  let received := [(7%nat, 3%nat); (8%nat, 3%nat); (9%nat, 3%nat)] in
  let session : @LinkSession nat nat nat :=
    ChannelRuns 2%nat received None in
  let send := fun k : nat =>
    if (k =? 1)%nat then Some (BrokenResourceError "closed") else None in
  let sent :=
    forwarded_of
      (snd (_run_inbound_link Scenario.is_BroadcastMessageChannel
              (fun _ : nat => Some 3%nat) Scenario.format_address
              (fun _ : Exception => "error") send entry session)) in
  sent = [("A", (7%nat, 3%nat))]
  /\ exists k : nat,
       (k <= length received)%nat
       /\ sent = map (fun message => (name entry, message)) (take k received)
       /\ (forall i : nat, (i < k)%nat -> send i = None)
       /\ (forall message : nat * nat,
             received !! k = Some message ->
             exists ex : Exception,
               send k = Some ex
               /\ link_raised (fun _ : nat => Some 3%nat)
                    Scenario.format_address send entry session = Some ex)
       /\ (k = length received ->
           link_raised (fun _ : nat => Some 3%nat)
             Scenario.format_address send entry session = None).
Proof.
  intros entry received session send sent.
  split; [reflexivity|].
  exact (inbound_link_forwards_in_order Scenario.is_BroadcastMessageChannel
           (fun _ : nat => Some 3%nat) Scenario.format_address
           (fun _ : Exception => "error") send entry session).
Defined.

Lemma inbound_link_log_witness :
  let entry : Scenario.entry := new_entry 0%nat "A" true in
  let session : @LinkSession nat nat nat :=
    ChannelRuns 2%nat [(7%nat, 3%nat); (8%nat, 3%nat)]
      (Some (OSError (Some 101))) in
  logged_of
    (snd (_run_inbound_link Scenario.is_BroadcastMessageChannel
            (fun _ : nat => Some 3%nat) Scenario.format_address
            (fun _ : Exception => "error") (fun _ : nat => None)
            entry session))
  = [{| level := INFO; message := "Connection at 3 up and running";
        extra_id := "A"; telemetry_ignore := false; exc_info := false |};
     {| level := ERROR; message := "error"; extra_id := "";
        telemetry_ignore := false; exc_info := true |};
     {| level := WARNING;
        message := "Connection at 3 down, trying to reopen...";
        extra_id := "A"; telemetry_ignore := false; exc_info := false |}].
Proof.
  intros entry session.
  exact (inbound_link_log Scenario.is_BroadcastMessageChannel
           (fun _ : nat => Some 3%nat) Scenario.format_address
           (fun _ : Exception => "error") (fun _ : nat => None)
           entry session).
Defined.

Lemma attach_opens_detach_closes_witness :
  let entries := [Scenario.attached 2 "B" 5] in
  (odict_get "B" (_entries_by_name Scenario.stopped) = Some entries
   /\ entries !! 0%nat = Some (Scenario.attached 2 "B" 5))
  /\ is_channel_open
       (update_entry "B" 0
          (fun e0 => set_channel Scenario.is_BroadcastMessageChannel e0
                       (Some 6%nat)) Scenario.stopped) "B" = true.
Proof.
  intros entries.
  assert (Hget : odict_get "B" (_entries_by_name Scenario.stopped)
                 = Some entries) by reflexivity.
  assert (Hidx : entries !! 0%nat = Some (Scenario.attached 2 "B" 5))
    by reflexivity.
  split; [split; [exact Hget | exact Hidx]|].
  exact (proj1 (attach_opens_detach_closes
                  Scenario.is_BroadcastMessageChannel Scenario.stopped "B"
                  0%nat entries (Scenario.attached 2 "B" 5) 6%nat
                  Hget Hidx)).
Defined.

Lemma os_error_classes_witness :
  let s := Scenario.running ∅ in
  101 ∈ [Scenario.ENETDOWN; Scenario.ENETUNREACH; Scenario.EADDRNOTAVAIL;
         WSAENETDOWN; WSAENETUNREACH]
  /\ _log_os_error_during_tx Scenario.errorcode Scenario.EADDRNOTAVAIL
       Scenario.EHOSTDOWN Scenario.EHOSTUNREACH Scenario.ENETDOWN
       Scenario.ENETUNREACH (Some 101) "3" "A[0]" s
     = (Returns tt,
        {| mgr := mgr s; world := world s;
           trace :=
             trace s
             ++ [Logged
                   {| level := ERROR;
                      message :=
                        "3: Network is down or unreachable (ENETUNREACH)";
                      extra_id := "A[0]"; telemetry_ignore := true;
                      exc_info := false |}] |}).
Proof.
  intros s.
  assert (Hin : 101 ∈ [Scenario.ENETDOWN; Scenario.ENETUNREACH;
                       Scenario.EADDRNOTAVAIL; WSAENETDOWN; WSAENETUNREACH])
    by (apply list_elem_of_In; simpl; tauto).
  split; [exact Hin|].
  exact (proj1 (os_error_classes Scenario.errorcode Scenario.EADDRNOTAVAIL
                  Scenario.EHOSTDOWN Scenario.EHOSTUNREACH Scenario.ENETDOWN
                  Scenario.ENETUNREACH (Some 101) "3" "A[0]" s)
           101 eq_refl Hin).
Defined.
